(** * Python-Terminal: the command engine and the natural-language translator

    A shallow embedding of [terminal.py] (class [PythonTerminal]) and of
    [ai_interface.py] (class [AITerminalInterface]), with the session store
    of [web_interface.py].

    Text is modelled over Rocq's 8-bit [ascii], read as the code points
    0 to 255 of a Python [str]; characters beyond that range appear as
    their UTF-8 bytes (the box-drawing connectors of [tree]).  The
    operating system (file system, process table, child processes) is a
    collaborator: its operations are the fields of the class [OS], over an
    abstract type of worlds, and a small concrete world at the end of the
    file instantiates it for the examples. *)

From Stdlib Require Import Ascii String ZArith List Bool Lia DecimalString
  Sorted.
From stdpp Require Import base list strings gmap.

Local Open Scope string_scope.
Local Open Scope list_scope.

(** ** Python [str] helpers *)

Module Py.

Definition code (c : ascii) : N := N_of_ascii c.

(** [str.isspace] and the class [\s] of [re], on code points 0..255. *)
Definition isspace (c : ascii) : bool :=
  let n := code c in
  ((9 <=? n) && (n <=? 13) || (28 <=? n) && (n <=? 32)
   || (n =? 133) || (n =? 160))%N.

(** [str.lower] on one code point below 256: A-Z and the Latin-1 capitals
    0xC0..0xDE except the multiplication sign 0xD7. *)
Definition lower_char (c : ascii) : ascii :=
  let n := code c in
  if ((65 <=? n) && (n <=? 90)
      || (192 <=? n) && (n <=? 222) && negb (n =? 215))%N
  then ascii_of_N (n + 32) else c.

(** The class [\w] of [re]: alphanumeric code points and the underscore. *)
Definition isword (c : ascii) : bool :=
  let n := code c in
  ((48 <=? n) && (n <=? 57) || (65 <=? n) && (n <=? 90)
   || (97 <=? n) && (n <=? 122) || (n =? 95)
   || (n =? 170) || (n =? 178) || (n =? 179) || (n =? 181)
   || (n =? 185) || (n =? 186) || (188 <=? n) && (n <=? 190)
   || (192 <=? n) && (n <=? 214) || (216 <=? n) && (n <=? 246)
   || (248 <=? n))%N.

Definition chars (s : string) : list ascii := list_ascii_of_string s.
Definition str (l : list ascii) : string := string_of_list_ascii l.

Definition lower (s : string) : string := str (map lower_char (chars s)).

Fixpoint lstrip_chars (l : list ascii) : list ascii :=
  match l with
  | c :: l' => if isspace c then lstrip_chars l' else l
  | [] => []
  end.

Definition strip_chars (l : list ascii) : list ascii :=
  rev (lstrip_chars (rev (lstrip_chars l))).

(** [s.strip()] *)
Definition strip (s : string) : string := str (strip_chars (chars s)).

(** [s.startswith(p)] *)
Definition startswith (s p : string) : bool := String.prefix p s.

(** [sep.join(l)] *)
Fixpoint join (sep : string) (l : list string) : string :=
  match l with
  | [] => ""
  | [x] => x
  | x :: l' => x +:+ sep +:+ join sep l'
  end.

(** [x in l] for a list of strings *)
Definition mem (x : string) (l : list string) : bool :=
  existsb (String.eqb x) l.

(** [s.split()]: maximal runs of non-whitespace characters. *)
Fixpoint split_go (cur : list ascii) (l : list ascii) : list (list ascii) :=
  match l with
  | [] => match cur with [] => [] | _ => [rev cur] end
  | c :: l' =>
      if isspace c
      then match cur with
           | [] => split_go [] l'
           | _ => rev cur :: split_go [] l'
           end
      else split_go (c :: cur) l'
  end.

Definition split (s : string) : list string := map str (split_go [] (chars s)).

(** [s.split(sep, 1)] when [sep in s]: the text before and after the
    first occurrence of the character [sep]. *)
Fixpoint split_once (sep : ascii) (s : string) : option (string * string) :=
  match s with
  | EmptyString => None
  | String c s' =>
      if Ascii.eqb c sep then Some ("", s')
      else match split_once sep s' with
           | Some (a, b) => Some (String c a, b)
           | None => None
           end
  end.

(** [l[-n:]] for [n > 0] *)
Definition last_n {A} (n : nat) (l : list A) : list A :=
  drop (length l - n) l.

(** insertion sort under the code-point order of [str], as [sorted] *)
Fixpoint insert_sorted (x : string) (l : list string) : list string :=
  match l with
  | [] => [x]
  | y :: l' => if String.leb x y then x :: l else y :: insert_sorted x l'
  end.

Definition sorted (l : list string) : list string :=
  foldr insert_sorted [] l.

(** insertion-ordered [dict] with string keys *)
Definition dict (V : Type) : Type := list (string * V).

Fixpoint dict_get {V} (d : dict V) (k : string) : option V :=
  match d with
  | [] => None
  | (k', v) :: d' => if String.eqb k k' then Some v else dict_get d' k
  end.

Fixpoint dict_set {V} (d : dict V) (k : string) (v : V) : dict V :=
  match d with
  | [] => [(k, v)]
  | (k', v') :: d' =>
      if String.eqb k k' then (k', v) :: d' else (k', v') :: dict_set d' k v
  end.

End Py.

(** ** Exceptions and the operating-system collaborator *)

(** The exception classes the source distinguishes in its [except] clauses;
    every one is a subclass of [Exception] and carries its [str(e)]. *)
Inductive exn : Type :=
| TimeoutExpired (detail : string)
| FileNotFoundError (detail : string)
| PermissionError (detail : string)
| ValueError (detail : string)
| OtherException (detail : string).

Definition exn_str (e : exn) : string :=
  match e with
  | TimeoutExpired d | FileNotFoundError d | PermissionError d
  | ValueError d | OtherException d => d
  end.

(** [subprocess.CompletedProcess] with captured text output *)
Record CompletedProcess := mkCompleted {
  stdout : string;
  stderr : string;
  returncode : Z
}.

(** The fields of a [PythonTerminal] object. *)
Record Session := mkSession {
  current_directory : string;
  command_history : list string;
  aliases : Py.dict string;
  environment_vars : Py.dict string
}.

(** The bound methods stored in [self.builtin_commands]. *)
Inductive handler : Type :=
| cmd_cd_h | cmd_pwd_h | cmd_ls_h | cmd_mkdir_h | cmd_rmdir_h | cmd_rm_h
| cmd_touch_h | cmd_cat_h | cmd_echo_h | cmd_cp_h | cmd_mv_h | cmd_find_h
| cmd_grep_h | cmd_ps_h | cmd_kill_h | cmd_top_h | cmd_df_h | cmd_free_h
| cmd_whoami_h | cmd_date_h | cmd_history_h | cmd_clear_h | cmd_exit_h
| cmd_help_h | cmd_alias_h | cmd_env_h | cmd_set_h | cmd_tree_h.

(** What the program asks of the operating system.  An effectful call
    returns its value or the exception it raises, with the world after it.
    [os_other h] stands for the builtins that are not detailed below
    ([ls], [mkdir], [cat], [ps], ...): they read the session, act on the
    world and return or raise, and none of them assigns a field of
    [self]. *)
Class OS (World : Type) := {
  os_getcwd : World -> string;
  os_environ : World -> Py.dict string;
  os_expanduser : World -> string -> string;
  os_isabs : string -> bool;
  os_join : string -> string -> string;
  os_abspath : World -> string -> string;
  os_basename : string -> string;
  os_exists : World -> string -> bool;
  os_isdir : World -> string -> bool;
  os_listdir : World -> string -> list string + exn;
  os_chdir : string -> World -> (unit + exn) * World;
  os_remove : string -> World -> (unit + exn) * World;
  os_rmtree : string -> World -> (unit + exn) * World;
  os_putenv : string -> string -> World -> (unit + exn) * World;
  subprocess_run :
    list string -> string -> World -> (CompletedProcess + exn) * World;
  os_other :
    handler -> list string -> Session -> World -> (string + exn) * World
}.

(** ** [shlex.split(line)]: POSIX mode, whitespace splitting, no comments *)

Module Shlex.

Inductive state : Type :=
| InWhitespace                      (* state ' ' *)
| InWord                            (* state 'a' *)
| InQuote (q : ascii)               (* state is the quote character *)
| InEscape (escapedstate : option ascii).
    (* state is the backslash; [None] is 'a', [Some q] a quote *)

Definition is_whitespace (c : ascii) : bool :=
  match c with
  | " " | "009" | "013" | "010" => true
  | _ => false
  end%char.

Definition is_quote (c : ascii) : bool :=
  match c with
  | "'" | "034" => true
  | _ => false
  end%char.

Definition is_escape (c : ascii) : bool := Ascii.eqb c "\"%char.

Definition emit (quoted : bool) (tok : list ascii) : list string :=
  match tok with
  | [] => if quoted then [""] else []
  | _ => [Py.str (rev tok)]
  end.

(** [read_token] iterated to the end of the input; [tok] is the token
    being built, most recent character first. *)
Fixpoint tokens (st : state) (quoted : bool) (tok : list ascii)
    (l : list ascii) : list string + exn :=
  match l with
  | [] =>
      match st with
      | InWhitespace => inl []
      | InWord => inl (emit quoted tok)
      | InQuote _ => inr (ValueError "No closing quotation")
      | InEscape _ => inr (ValueError "No escaped character")
      end
  | c :: l' =>
      match st with
      | InWhitespace =>
          if is_whitespace c then tokens InWhitespace quoted tok l'
          else if is_escape c then tokens (InEscape None) quoted tok l'
          else if is_quote c then tokens (InQuote c) quoted tok l'
          else tokens InWord quoted [c] l'
      | InQuote q =>
          if Ascii.eqb c q then tokens InWord true tok l'
          else if is_escape c && Ascii.eqb q "034"%char
          then tokens (InEscape (Some q)) true tok l'
          else tokens (InQuote q) true (c :: tok) l'
      | InEscape es =>
          let tok1 :=
            match es with
            | Some q =>
                if negb (is_escape c) && negb (Ascii.eqb c q)
                then "\"%char :: tok else tok
            | None => tok
            end in
          tokens (match es with Some q => InQuote q | None => InWord end)
                 quoted (c :: tok1) l'
      | InWord =>
          if is_whitespace c then
            match tokens InWhitespace false [] l' with
            | inl rest => inl (emit quoted tok ++ rest)
            | inr e => inr e
            end
          else if is_quote c then tokens (InQuote c) quoted tok l'
          else if is_escape c then tokens (InEscape None) quoted tok l'
          else tokens InWord quoted (c :: tok) l'
      end
  end.

Definition split (s : string) : list string + exn :=
  tokens InWhitespace false [] (Py.chars s).

End Shlex.

(** ** The command engine: [PythonTerminal] *)

Section Engine.

Context {World : Type} `{OS World}.

(** A method body: it reads and writes the object's fields and the
    world, and returns a value or raises.  What it wrote before raising
    stays written. *)
Definition M (A : Type) : Type :=
  Session * World -> (A + exn) * (Session * World).

Definition ret {A} (a : A) : M A := fun st => (inl a, st).
Definition raise {A} (e : exn) : M A := fun st => (inr e, st).

Definition bind {A B} (m : M A) (k : A -> M B) : M B :=
  fun st =>
    match m st with
    | (inl a, st') => k a st'
    | (inr e, st') => (inr e, st')
    end.

(** [try: body / except Exception as e: handler e] *)
Definition try_except {A} (body : M A) (handler : exn -> M A) : M A :=
  fun st =>
    match body st with
    | (inl a, st') => (inl a, st')
    | (inr e, st') => handler e st'
    end.

Definition get_self : M Session := fun st => (inl (fst st), st).
Definition get_world : M World := fun st => (inl (snd st), st).
Definition set_self (f : Session -> Session) : M unit :=
  fun st => (inl tt, (f (fst st), snd st)).

(** a call into the operating system *)
Definition os_call {A} (f : World -> (A + exn) * World) : M A :=
  fun st => let '(r, w') := f (snd st) in (r, (fst st, w')).

(** a raising function without effect *)
Definition of_result {A} (r : A + exn) : M A := fun st => (r, st).

Local Notation "x <- m ;; k" := (bind m (fun x => k))
  (at level 100, m at next level, right associativity).
Local Notation "m ;;; k" := (bind m (fun _ => k))
  (at level 100, right associativity).

(** *** [__init__] *)

Definition builtin_commands : Py.dict handler :=
  [ ("cd", cmd_cd_h); ("pwd", cmd_pwd_h); ("ls", cmd_ls_h);
    ("dir", cmd_ls_h); ("mkdir", cmd_mkdir_h); ("rmdir", cmd_rmdir_h);
    ("rm", cmd_rm_h); ("del", cmd_rm_h); ("touch", cmd_touch_h);
    ("cat", cmd_cat_h); ("type", cmd_cat_h); ("echo", cmd_echo_h);
    ("cp", cmd_cp_h); ("copy", cmd_cp_h); ("mv", cmd_mv_h);
    ("move", cmd_mv_h); ("find", cmd_find_h); ("grep", cmd_grep_h);
    ("ps", cmd_ps_h); ("kill", cmd_kill_h); ("top", cmd_top_h);
    ("df", cmd_df_h); ("free", cmd_free_h); ("whoami", cmd_whoami_h);
    ("date", cmd_date_h); ("history", cmd_history_h);
    ("clear", cmd_clear_h); ("cls", cmd_clear_h); ("exit", cmd_exit_h);
    ("quit", cmd_exit_h); ("help", cmd_help_h); ("alias", cmd_alias_h);
    ("env", cmd_env_h); ("set", cmd_set_h); ("tree", cmd_tree_h) ].

(** [PythonTerminal()]: the working directory is the process's, the
    history and the alias table are empty, the environment is a copy. *)
Definition new_terminal (w : World) : Session :=
  {| current_directory := os_getcwd w;
     command_history := [];
     aliases := [];
     environment_vars := os_environ w |}.

Definition with_current_directory (d : string) (s : Session) : Session :=
  {| current_directory := d;
     command_history := command_history s;
     aliases := aliases s;
     environment_vars := environment_vars s |}.

Definition with_command_history (h : list string) (s : Session) : Session :=
  {| current_directory := current_directory s;
     command_history := h;
     aliases := aliases s;
     environment_vars := environment_vars s |}.

Definition with_aliases (a : Py.dict string) (s : Session) : Session :=
  {| current_directory := current_directory s;
     command_history := command_history s;
     aliases := a;
     environment_vars := environment_vars s |}.

Definition with_environment_vars (e : Py.dict string) (s : Session)
    : Session :=
  {| current_directory := current_directory s;
     command_history := command_history s;
     aliases := aliases s;
     environment_vars := e |}.

(** *** [execute_external_command] *)

Definition execute_external_command (command : string)
    (args : list string) : M (string * Z) :=
  try_except
    (self <- get_self ;;
     result <- os_call (subprocess_run (command :: args)
                                       (current_directory self)) ;;
     let output := stdout result in
     let output :=
       if negb (String.eqb (stderr result) "")
       then output +:+ stderr result else output in
     ret (output, returncode result))
    (fun e =>
       match e with
       | TimeoutExpired _ => ret ("Command timed out after 30 seconds", 1%Z)
       | FileNotFoundError _ => ret ("Command not found: " +:+ command, 127%Z)
       | _ => ret ("Error executing external command: " +:+ exn_str e, 1%Z)
       end).

(** *** Builtins *)

(** the target [cmd_cd] computes before its [try] *)
Definition cd_target (self : Session) (w : World) (args : list string)
    : string :=
  match args with
  | [] => os_expanduser w "~"
  | target :: _ =>
      if Py.startswith target "~" then os_expanduser w target
      else if negb (os_isabs target)
           then os_join (current_directory self) target
           else target
  end.

(** [os.path.abspath] is taken as a total function of the path and the
    process's directory, so it stands before the [try] it opens in the
    source *)
Definition cmd_cd (args : list string) : M string :=
  self <- get_self ;;
  w <- get_world ;;
  let target := cd_target self w args in
  let target := os_abspath w target in
  try_except
    (if os_isdir w target then
       set_self (with_current_directory target) ;;;
       os_call (os_chdir target) ;;;
       ret ("Changed directory to: " +:+ target)
     else
       ret ("Directory not found: " +:+ target))
    (fun e =>
       match e with
       | PermissionError _ => ret ("Permission denied: " +:+ target)
       | _ => ret ("Error changing directory: " +:+ exn_str e)
       end).

Definition cmd_pwd (args : list string) : M string :=
  self <- get_self ;; ret (current_directory self).

Definition cmd_echo (args : list string) : M string :=
  ret (Py.join " " args).

(** the path an operand names: joined to the working directory unless
    absolute *)
Definition resolve (self : Session) (name : string) : string :=
  if negb (os_isabs name) then os_join (current_directory self) name
  else name.

Definition rm_recursive (args : list string) : bool :=
  Py.mem "-r" args || Py.mem "-rf" args || Py.mem "--recursive" args.

Definition rm_force (args : list string) : bool :=
  Py.mem "-f" args || Py.mem "-rf" args || Py.mem "--force" args.

Definition rm_files (args : list string) : list string :=
  List.filter (fun arg => negb (Py.startswith arg "-")) args.

(** the body of the [for file_name in files] loop of [cmd_rm] *)
Definition rm_one (recursive force : bool) (file_name : string)
    (results : list string) : M (list string) :=
  try_except
    (self <- get_self ;;
     let file_path := resolve self file_name in
     w <- get_world ;;
     if os_isdir w file_path then
       if recursive then
         os_call (os_rmtree file_path) ;;;
         ret (results ++ ["Removed directory tree: " +:+ file_name])
       else
         ret (results ++ ["Cannot remove directory " +:+ file_name
                          +:+ ": use -r flag"])
     else
       os_call (os_remove file_path) ;;;
       ret (results ++ ["Removed file: " +:+ file_name]))
    (fun e =>
       match e with
       | FileNotFoundError _ =>
           if negb force
           then ret (results ++ ["File not found: " +:+ file_name])
           else ret results
       | PermissionError _ =>
           ret (results ++ ["Permission denied: " +:+ file_name])
       | _ =>
           ret (results ++ ["Error removing " +:+ file_name +:+ ": "
                            +:+ exn_str e])
       end).

Fixpoint rm_loop (recursive force : bool) (files : list string)
    (results : list string) : M (list string) :=
  match files with
  | [] => ret results
  | file_name :: files' =>
      results' <- rm_one recursive force file_name results ;;
      rm_loop recursive force files' results'
  end.

Definition cmd_rm (args : list string) : M string :=
  match args with
  | [] => ret "Usage: rm [-r] <file_or_directory>"
  | _ =>
      let recursive := rm_recursive args in
      let force := rm_force args in
      let files := rm_files args in
      match files with
      | [] => ret "No files specified"
      | _ =>
          results <- rm_loop recursive force files [] ;;
          ret (Py.join (String "010" "") results)
      end
  end.

Definition nat_str (n : nat) : string :=
  NilEmpty.string_of_uint (Nat.to_uint n).

(** [f"{i:3d}"] *)
Definition format_3d (i : nat) : string :=
  let d := nat_str i in
  Py.str (repeat " "%char (3 - String.length d)) +:+ d.

Definition cmd_history (args : list string) : M string :=
  self <- get_self ;;
  match command_history self with
  | [] => ret "No command history"
  | _ =>
      let results :=
        imap (fun i cmd => format_3d (i + 1) +:+ "  " +:+ cmd)
             (Py.last_n 50 (command_history self)) in
      ret (Py.join (String "010" "") results)
  end.

Definition cmd_clear (args : list string) : M string :=
  ret (String "027" "[2J" +:+ String "027" "[H").

Definition cmd_exit (args : list string) : M string :=
  ret "EXIT_TERMINAL".

Definition cmd_alias (args : list string) : M string :=
  self <- get_self ;;
  match args with
  | [] =>
      match aliases self with
      | [] => ret "No aliases defined"
      | _ =>
          let results :=
            "Defined aliases:"
            :: map (fun '(alias, command) =>
                      "  " +:+ alias +:+ " = " +:+ command)
                   (aliases self) in
          ret (Py.join (String "010" "") results)
      end
  | arg0 :: _ =>
      match Py.split_once "="%char arg0 with
      | Some (alias, command) =>
          set_self (with_aliases
                      (Py.dict_set (aliases self) (Py.strip alias)
                                   (Py.strip command))) ;;;
          ret ("Alias created: " +:+ Py.strip alias +:+ " = "
               +:+ Py.strip command)
      | None => ret "Usage: alias name=command"
      end
  end.

Definition cmd_set (args : list string) : M string :=
  match args with
  | [] => ret "Usage: set VARIABLE=value"
  | arg0 :: _ =>
      match Py.split_once "="%char arg0 with
      | None => ret "Usage: set VARIABLE=value"
      | Some (var, value) =>
          self <- get_self ;;
          set_self (with_environment_vars
                      (Py.dict_set (environment_vars self) var value)) ;;;
          os_call (os_putenv var value) ;;;
          ret ("Set " +:+ var +:+ "=" +:+ value)
      end
  end.

(** *** [tree] *)

Definition last_connector : string := "└── ".
Definition mid_connector : string := "├── ".
Definition last_indent : string := "    ".
Definition mid_indent : string := "│   ".
Definition denied_marker : string := "└── [Permission Denied]".

(** [results] is a list the callee appends to in place: every function
    below returns the list as it stands when it returns or raises, with
    the exception that leaves it, if any. *)
Definition tree_result : Type := list string * option exn.

Section TreeLoop.

Variable w : World.
(** the recursive call [self._build_tree(item_path, next_prefix,
    results, depth + 1, max_depth)] *)
Variable recurse : string -> string -> list string -> tree_result.
Variables path prefix : string.
(** [len(items)] *)
Variable n : nat.

(** [for i, item in enumerate(items)], from index [i] on *)
Fixpoint tree_loop (i : nat) (items : list string)
    (results : list string) : tree_result :=
  match items with
  | [] => (results, None)
  | item :: items' =>
      if Py.startswith item "." then tree_loop (S i) items' results
      else
        let item_path := os_join path item in
        let is_last := Nat.eqb i (n - 1) in
        let current_prefix :=
          if is_last then last_connector else mid_connector in
        let results := results ++ [prefix +:+ current_prefix +:+ item] in
        if os_isdir w item_path then
          let next_prefix :=
            prefix +:+ (if is_last then last_indent else mid_indent) in
          match recurse item_path next_prefix results with
          | (results', None) => tree_loop (S i) items' results'
          | (results', Some e) => (results', Some e)
          end
        else tree_loop (S i) items' results
  end.

End TreeLoop.

(** [_build_tree], by recursion on [max_depth - depth]: the guard
    [depth >= max_depth] is the case 0. *)
Fixpoint build_tree_from (w : World) (remaining : nat)
    (path prefix : string) (results : list string) : tree_result :=
  match remaining with
  | 0 => (results, None)
  | S remaining' =>
      let body :=
        match os_listdir w path with
        | inr e => (results, Some e)
        | inl names =>
            let items := Py.sorted names in
            tree_loop w (build_tree_from w remaining') path prefix
                      (length items) 0 items results
        end in
      match body with
      | (results', Some (PermissionError _)) =>
          (results' ++ [prefix +:+ denied_marker], None)
      | other => other
      end
  end.

Definition _build_tree (w : World) (path prefix : string)
    (results : list string) (depth max_depth : nat) : tree_result :=
  build_tree_from w (max_depth - depth) path prefix results.

Definition cmd_tree (args : list string) : M string :=
  self <- get_self ;;
  w <- get_world ;;
  let path := match args with a :: _ => a | [] => current_directory self end in
  let max_depth := 3 in
  let path := if negb (os_isabs path)
              then os_join (current_directory self) path else path in
  if negb (os_exists w path) then ret ("Path not found: " +:+ path)
  else
    let results :=
      [ if String.eqb (os_basename path) "" then path
        else os_basename path ] in
    match _build_tree w path "" results 0 max_depth with
    | (results, None) => ret (Py.join (String "010" "") results)
    | (_, Some e) => ret ("Error building tree: " +:+ exn_str e)
    end.

(** *** [execute_command] *)

(** the bound method behind a registry entry *)
Definition run_handler (h : handler) (args : list string) : M string :=
  match h with
  | cmd_cd_h => cmd_cd args
  | cmd_pwd_h => cmd_pwd args
  | cmd_rm_h => cmd_rm args
  | cmd_echo_h => cmd_echo args
  | cmd_history_h => cmd_history args
  | cmd_clear_h => cmd_clear args
  | cmd_exit_h => cmd_exit args
  | cmd_alias_h => cmd_alias args
  | cmd_set_h => cmd_set args
  | cmd_tree_h => cmd_tree args
  | _ => self <- get_self ;; os_call (os_other h args self)
  end.

(** [command_line.strip()] is empty *)
Definition is_blank (command_line : string) : bool :=
  String.eqb (Py.strip command_line) "".

Definition append_history (command_line : string) (self : Session)
    : Session :=
  let h := command_history self ++ [command_line] in
  with_command_history
    (if (1000 <? length h)%nat then Py.last_n 1000 h else h) self.

(** the alias check: the first token is replaced by the alias's value *)
Definition resolve_alias (self : Session) (command : string) : string :=
  match Py.dict_get (aliases self) command with
  | Some v => v
  | None => command
  end.

Definition execute_command (command_line : string) : M (string * Z) :=
  if is_blank command_line then ret ("", 0%Z)
  else
    set_self (append_history command_line) ;;;
    try_except
      (parts <- of_result (Shlex.split command_line) ;;
       match parts with
       | [] => ret ("", 0%Z)
       | command :: args =>
           self <- get_self ;;
           let command := resolve_alias self command in
           match Py.dict_get builtin_commands command with
           | Some h =>
               try_except
                 (out <- run_handler h args ;; ret (out, 0%Z))
                 (fun e =>
                    ret ("Error executing " +:+ command +:+ ": "
                         +:+ exn_str e, 1%Z))
           | None => execute_external_command command args
           end
       end)
      (fun e => ret ("Command parsing error: " +:+ exn_str e, 1%Z)).

(** a sequence of [execute_command] calls on one terminal; the outputs
    are dropped *)
Fixpoint execute_all (lines : list string) (st : Session * World)
    : Session * World :=
  match lines with
  | [] => st
  | line :: lines' => execute_all lines' (snd (execute_command line st))
  end.

End Engine.

Arguments M : clear implicits.

(** ** The session store of [web_interface.py] *)

Section SessionStore.

Context {World : Type} `{OS World}.

(** [get_terminal(session_id)] on the module-level dict [terminals] *)
Definition get_terminal (session_id : string)
    (terminals : gmap string Session) (w : World)
    : Session * gmap string Session :=
  match terminals !! session_id with
  | Some t => (t, terminals)
  | None =>
      let t := new_terminal w in (t, <[session_id := t]> terminals)
  end.

(** the core of the [/execute] route: a blank command is answered at
    once; otherwise the session's terminal runs the stripped command.  The
    terminal object in the dict is the one that was mutated, and [exit]
    deletes it; the route's own [except Exception] answers with the
    error text *)
Definition route_execute (session_id command : string)
    (st : gmap string Session * World)
    : (string * Z) * (gmap string Session * World) :=
  let command := Py.strip command in
  if String.eqb command "" then (("", 0%Z), st)
  else
    let '(terminals, w) := st in
    let '(t, terminals) := get_terminal session_id terminals w in
    match execute_command command (t, w) with
    | (inl (output, return_code), (t', w')) =>
        if String.eqb output "EXIT_TERMINAL"
        then (("Terminal session ended.", 0%Z),
              (delete session_id terminals, w'))
        else ((output, return_code), (<[session_id := t']> terminals, w'))
    | (inr e, (t', w')) =>
        ((exn_str e, 1%Z), (<[session_id := t']> terminals, w'))
    end.

End SessionStore.

(** ** The regular expressions of [re] used by the translator

    The fragment the pattern tables need: literals (under
    [re.IGNORECASE]), [.], the classes [\s], [\S], [\w] and a negated
    one-character set, the quantifiers [*?], [*], [+] and [?] on a
    one-character atom, alternation, and groups, capturing or not.  The
    matcher backtracks in the order [re] does: alternatives left to right,
    a lazy star shortest first, a greedy one longest first. *)

Module Re.

Inductive cls : Type :=
| Any                      (* [.]: every character but the newline *)
| Lit (c : ascii)          (* a literal, compared case-insensitively *)
| Space                    (* [\s] *)
| NonSpace                 (* [\S] *)
| Word                     (* [\w] *)
| NotChar (c : ascii).     (* a negated set of one character *)

Inductive re : Type :=
| Eps
| Chr (k : cls)
| Seq (r1 r2 : re)
| Alt (r1 r2 : re)
| Star (greedy : bool) (k : cls)
| Group (r : re).

Definition cls_matches (k : cls) (a : ascii) : bool :=
  match k with
  | Any => negb (Ascii.eqb a "010"%char)
  | Lit c => Ascii.eqb (Py.lower_char a) (Py.lower_char c)
  | Space => Py.isspace a
  | NonSpace => negb (Py.isspace a)
  | Word => Py.isword a
  | NotChar c => negb (Ascii.eqb a c)
  end.

(** *** Reading a pattern *)

Definition escape_cls (c : ascii) : cls :=
  match c with
  | "s" => Space
  | "S" => NonSpace
  | "w" => Word
  | _ => Lit c
  end%char.

(** the quantifier after a one-character atom *)
Definition quantified (k : cls) (s : list ascii) : re * list ascii :=
  match s with
  | "*" :: "?" :: s' => (Star false k, s')
  | "*" :: s' => (Star true k, s')
  | "+" :: s' => (Seq (Chr k) (Star true k), s')
  | "?" :: s' => (Alt (Chr k) Eps, s')
  | _ => (Chr k, s)
  end%char.

Fixpoint parse_alt (fuel : nat) (s : list ascii) : option (re * list ascii) :=
  match fuel with
  | 0 => None
  | S fuel' =>
      match parse_seq fuel' s with
      | Some (r1, "|"%char :: s') =>
          match parse_alt fuel' s' with
          | Some (r2, s'') => Some (Alt r1 r2, s'')
          | None => None
          end
      | other => other
      end
  end
with parse_seq (fuel : nat) (s : list ascii) : option (re * list ascii) :=
  match fuel with
  | 0 => None
  | S fuel' =>
      match s with
      | [] => Some (Eps, [])
      | ")"%char :: _ | "|"%char :: _ => Some (Eps, s)
      | _ =>
          match parse_atom fuel' s with
          | Some (r1, s') =>
              match parse_seq fuel' s' with
              | Some (Eps, s'') => Some (r1, s'')
              | Some (r2, s'') => Some (Seq r1 r2, s'')
              | None => None
              end
          | None => None
          end
      end
  end
with parse_atom (fuel : nat) (s : list ascii) : option (re * list ascii) :=
  match fuel with
  | 0 => None
  | S fuel' =>
      match s with
      | "("%char :: "?"%char :: ":"%char :: s' =>
          match parse_alt fuel' s' with
          | Some (r, ")"%char :: s'') => Some (r, s'')
          | _ => None
          end
      | "("%char :: s' =>
          match parse_alt fuel' s' with
          | Some (r, ")"%char :: s'') => Some (Group r, s'')
          | _ => None
          end
      | "\"%char :: c :: s' => Some (quantified (escape_cls c) s')
      | "["%char :: "^"%char :: c :: "]"%char :: s' =>
          Some (quantified (NotChar c) s')
      | "."%char :: s' => Some (quantified Any s')
      | c :: s' => Some (quantified (Lit c) s')
      | [] => None
      end
  end.

(** [re.compile(pattern)]; a pattern outside the fragment matches
    nothing *)
Definition compile (pattern : string) : option re :=
  let s := Py.chars pattern in
  match parse_alt (3 * length s + 3) s with
  | Some (r, []) => Some r
  | _ => None
  end.

(** *** Matching *)

Definition groups : Type := list (list ascii).

Section Stars.
Variable k : cls.
Variable cont : list ascii -> option groups.

Fixpoint lazy_star (s : list ascii) : option groups :=
  match cont s with
  | Some g => Some g
  | None =>
      match s with
      | a :: s' => if cls_matches k a then lazy_star s' else None
      | [] => None
      end
  end.

Fixpoint greedy_star (s : list ascii) : option groups :=
  match s with
  | a :: s' =>
      if cls_matches k a then
        match greedy_star s' with
        | Some g => Some g
        | None => cont s
        end
      else cont s
  | [] => cont s
  end.
End Stars.

(** [m r s caps cont]: match [r] at the head of [s], then [cont] on the
    rest; [caps] are the groups closed so far, in order. *)
Fixpoint m (r : re) (s : list ascii) (caps : groups)
    (cont : list ascii -> groups -> option groups) : option groups :=
  match r with
  | Eps => cont s caps
  | Chr k =>
      match s with
      | a :: s' => if cls_matches k a then cont s' caps else None
      | [] => None
      end
  | Seq r1 r2 => m r1 s caps (fun s' caps' => m r2 s' caps' cont)
  | Alt r1 r2 =>
      match m r1 s caps cont with
      | Some g => Some g
      | None => m r2 s caps cont
      end
  | Star true k => greedy_star k (fun s' => cont s' caps) s
  | Star false k => lazy_star k (fun s' => cont s' caps) s
  | Group r1 =>
      m r1 s caps
        (fun s' caps' =>
           cont s' (caps' ++ [take (length s - length s') s]))
  end.

(** [re.match]: anchored at the start of [s] *)
Definition match_here (r : re) (s : list ascii) : option groups :=
  m r s [] (fun _ caps => Some caps).

(** [re.search]: the leftmost start position that matches *)
Fixpoint search_from (r : re) (s : list ascii) : option groups :=
  match match_here r s with
  | Some g => Some g
  | None =>
      match s with
      | _ :: s' => search_from r s'
      | [] => None
      end
  end.

(** [re.search(pattern, text, re.IGNORECASE)], giving [match.groups()] *)
Definition search (pattern text : string) : option (list string) :=
  match compile pattern with
  | Some r => option_map (map Py.str) (search_from r (Py.chars text))
  | None => None
  end.

End Re.

(** ** The translator: [AITerminalInterface] *)

Module AI.

(** the double quote, which a string literal of this file cannot hold *)
Definition dq : string := String "034" "".

Definition result (A : Type) : Type := (A + exn)%type.

(** [template.format] on the tuple of groups, for templates whose replacement fields
    are a single digit between braces *)
Definition digit (c : ascii) : option nat :=
  let n := N.to_nat (N_of_ascii c) in
  if (48 <=? n)%nat && (n <=? 57)%nat then Some (n - 48) else None.

Fixpoint format (template : string) (params : list string)
    : result string :=
  match template with
  | String "{" (String d (String "}" rest)) =>
      match digit d with
      | Some i =>
          match nth_error params i, format rest params with
          | Some p, inl out => inl (p +:+ out)
          | None, _ =>
              inr (OtherException
                     "Replacement index out of range for positional args tuple")
          | _, inr e => inr e
          end
      | None => inr (ValueError "unsupported replacement field")
      end
  | String c rest =>
      match format rest params with
      | inl out => inl (String c out)
      | inr e => inr e
      end
  | EmptyString => inl ""
  end.

(** one entry of a category: [{'patterns': [...], 'command': ...}] *)
Record pattern_dict := mkPatternDict {
  patterns : list string;
  command : string
}.

(** [_initialize_patterns]: the dict iterates in insertion order *)
Definition command_patterns : Py.dict (list pattern_dict) :=
  [ ("create_file",
     [ {| patterns :=
            [ "create.*?file.*?(?:named|called)\s+(\S+)";
              "make.*?file.*?(\S+)";
              "touch.*?(\S+)";
              "new file.*?(\S+)" ];
          command := "touch {0}" |} ]);
    ("create_directory",
     [ {| patterns :=
            [ "create.*?(?:directory|folder|dir).*?(?:named|called)\s+(\S+)";
              "make.*?(?:directory|folder|dir).*?(\S+)";
              "mkdir.*?(\S+)";
              "new (?:directory|folder).*?(\S+)" ];
          command := "mkdir {0}" |} ]);
    ("list_files",
     [ {| patterns :=
            [ "list.*?files?";
              "show.*?files?";
              "what.*?files?.*?here";
              "ls";
              "dir" ];
          command := "ls" |} ]);
    ("delete_file",
     [ {| patterns :=
            [ "delete.*?file.*?(\S+)";
              "remove.*?file.*?(\S+)";
              "rm.*?(\S+)";
              "del.*?(\S+)" ];
          command := "rm {0}" |} ]);
    ("copy_file",
     [ {| patterns :=
            [ "copy.*?(\S+).*?to.*?(\S+)";
              "cp.*?(\S+).*?(\S+)";
              "duplicate.*?(\S+).*?as.*?(\S+)" ];
          command := "cp {0} {1}" |} ]);
    ("move_file",
     [ {| patterns :=
            [ "move.*?(\S+).*?to.*?(\S+)";
              "mv.*?(\S+).*?(\S+)";
              "relocate.*?(\S+).*?to.*?(\S+)" ];
          command := "mv {0} {1}" |} ]);
    ("change_directory",
     [ {| patterns :=
            [ "go.*?to.*?(?:directory|folder).*?(\S+)";
              "change.*?(?:directory|folder).*?to.*?(\S+)";
              "cd.*?(\S+)";
              "navigate.*?to.*?(\S+)" ];
          command := "cd {0}" |} ]);
    ("show_content",
     [ {| patterns :=
            [ "show.*?content.*?(?:of|in).*?(\S+)";
              "display.*?(\S+)";
              "cat.*?(\S+)";
              "read.*?(\S+)";
              "view.*?(\S+)" ];
          command := "cat {0}" |} ]);
    ("find_files",
     [ {| patterns :=
            [ "find.*?files?.*?(?:named|called).*?(\S+)";
              "search.*?for.*?(\S+)";
              "locate.*?(\S+)" ];
          command := "find . -name " +:+ dq +:+ "{0}" +:+ dq |} ]);
    ("system_info",
     [ {| patterns :=
            [ "show.*?system.*?info";
              "system.*?status";
              "resource.*?usage";
              "top" ];
          command := "top" |} ]);
    ("list_processes",
     [ {| patterns :=
            [ "list.*?processes?";
              "show.*?processes?";
              "running.*?programs?";
              "ps" ];
          command := "ps" |} ]);
    ("current_directory",
     [ {| patterns :=
            [ "where.*?am.*?i";
              "current.*?(?:directory|folder|location)";
              "pwd";
              "show.*?(?:directory|folder)" ];
          command := "pwd" |} ]);
    ("disk_usage",
     [ {| patterns :=
            [ "disk.*?usage";
              "disk.*?space";
              "storage.*?info";
              "df" ];
          command := "df" |} ]);
    ("memory_usage",
     [ {| patterns :=
            [ "memory.*?usage";
              "ram.*?usage";
              "memory.*?info";
              "free.*?memory";
              "free" ];
          command := "free" |} ]);
    ("clear_screen",
     [ {| patterns :=
            [ "clear.*?screen";
              "clear.*?terminal";
              "cls";
              "clear" ];
          command := "clear" |} ]);
    ("help",
     [ {| patterns :=
            [ "help";
              "what.*?can.*?do";
              "available.*?commands?";
              "show.*?commands?" ];
          command := "help" |} ]);
    ("echo",
     [ {| patterns :=
            [ "say.*?" +:+ dq +:+ "([^" +:+ dq +:+ "]+)" +:+ dq;
              "echo.*?" +:+ dq +:+ "([^" +:+ dq +:+ "]+)" +:+ dq;
              "print.*?" +:+ dq +:+ "([^" +:+ dq +:+ "]+)" +:+ dq;
              "display.*?" +:+ dq +:+ "([^" +:+ dq +:+ "]+)" +:+ dq ];
          command := "echo " +:+ dq +:+ "{0}" +:+ dq |} ]) ].

(** the truth value of a returned [str] or [None] *)
Definition truthy (o : option string) : bool :=
  match o with
  | Some s => negb (String.eqb s "")
  | None => false
  end.

(** [a, b = match.groups()] *)
Definition unpack2 (g : list string) : result (string * string) :=
  match g with
  | [a; b] => inl (a, b)
  | _ => inr (ValueError "wrong number of values to unpack")
  end.

(** [match.groups()[0]] *)
Definition item0 (g : list string) : result string :=
  match g with
  | a :: _ => inl a
  | [] => inr (OtherException "tuple index out of range")
  end.

Definition create_and_move_re : string :=
  "create.*?(?:folder|directory).*?(?:called|named)\s+(\S+).*?and.*?move.*?(\S+).*?(?:into|to).*?it".
Definition copy_by_extension_re : string :=
  "copy.*?all.*?(\.\w+).*?files?.*?to.*?(\S+)".
Definition delete_all_in_dir_re : string :=
  "delete.*?all.*?files?.*?in.*?(\S+)".
Definition find_and_delete_re : string :=
  "find.*?and.*?delete.*?files?.*?(?:called|named).*?(\S+)".

Definition _handle_complex_commands (nl_input : string)
    : result (option string) :=
  match Re.search create_and_move_re nl_input with
  | Some g =>
      match unpack2 g with
      | inl (folder_name, file_name) =>
          inl (Some ("mkdir " +:+ folder_name +:+ " && mv " +:+ file_name
                     +:+ " " +:+ folder_name +:+ "/"))
      | inr e => inr e
      end
  | None =>
  match Re.search copy_by_extension_re nl_input with
  | Some g =>
      match unpack2 g with
      | inl (extension, destination) =>
          inl (Some ("cp *" +:+ extension +:+ " " +:+ destination +:+ "/"))
      | inr e => inr e
      end
  | None =>
  match Re.search delete_all_in_dir_re nl_input with
  | Some g =>
      match item0 g with
      | inl directory => inl (Some ("rm " +:+ directory +:+ "/*"))
      | inr e => inr e
      end
  | None =>
  match Re.search find_and_delete_re nl_input with
  | Some g =>
      match item0 g with
      | inl filename =>
          inl (Some ("find . -name " +:+ dq +:+ filename +:+ dq
                     +:+ " -delete"))
      | inr e => inr e
      end
  | None => inl None
  end end end end.

(** [any(word in keywords for word in words)] *)
Definition any_in (words keywords : list string) : bool :=
  existsb (fun word => Py.mem word keywords) words.

(** the loop [for i, word in enumerate(keywords): if word in nouns and
    i + 1 < len(keywords): return keywords[i + 1]] *)
Fixpoint word_after (nouns : list string) (keywords : list string)
    : option string :=
  match keywords with
  | word :: ((next :: _) as rest) =>
      if Py.mem word nouns then Some next else word_after nouns rest
  | _ => None
  end.

Definition _interpret_by_keywords (nl_input : string) : option string :=
  let keywords := Py.split nl_input in
  if any_in ["create"; "make"; "new"] keywords && any_in ["file"] keywords
  then
    match word_after ["file"] keywords with
    | Some name => Some ("touch " +:+ name)
    | None => Some "touch newfile.txt"
    end
  else
  if any_in ["create"; "make"; "new"] keywords
     && any_in ["folder"; "directory"; "dir"] keywords
  then
    match word_after ["folder"; "directory"; "dir"] keywords with
    | Some name => Some ("mkdir " +:+ name)
    | None => Some "mkdir newfolder"
    end
  else
  match
    (if any_in ["go"; "navigate"; "change"] keywords
        && any_in ["directory"; "folder"; "to"] keywords
     then word_after ["to"] keywords else None)
  with
  | Some name => Some ("cd " +:+ name)
  | None =>
  if any_in ["list"; "show"] keywords && any_in ["files"; "contents"] keywords
  then Some "ls"
  else
  if any_in ["delete"; "remove"; "rm"] keywords then
    match
      List.find
        (fun word =>
           negb (Py.mem word ["delete"; "remove"; "rm"; "file"; "the"]))
        keywords
    with
    | Some word => Some ("rm " +:+ word)
    | None => None
    end
  else None
  end.

(** the three nested loops over the pattern table, innermost first *)
Fixpoint try_patterns (nl_input : string) (command : string)
    (patterns : list string) : option (result string) :=
  match patterns with
  | [] => None
  | pattern :: patterns' =>
      match Re.search pattern nl_input with
      | Some params => Some (format command params)
      | None => try_patterns nl_input command patterns'
      end
  end.

Fixpoint try_pattern_dicts (nl_input : string)
    (patterns_list : list pattern_dict) : option (result string) :=
  match patterns_list with
  | [] => None
  | pattern_dict :: rest =>
      match try_patterns nl_input (command pattern_dict)
              (patterns pattern_dict) with
      | Some r => Some r
      | None => try_pattern_dicts nl_input rest
      end
  end.

Fixpoint try_categories (nl_input : string)
    (table : Py.dict (list pattern_dict)) : option (result string) :=
  match table with
  | [] => None
  | (category, patterns_list) :: rest =>
      match try_pattern_dicts nl_input patterns_list with
      | Some r => Some r
      | None => try_categories nl_input rest
      end
  end.

Definition multi_step_note : string := "AI interpreted multi-step command".
Definition keyword_note : string := "AI interpreted using keywords".
Definition passthrough_note : string :=
  "No AI interpretation found, executing as-is".

Definition interpret_command (natural_language : string)
    : result (string * string) :=
  let nl_input := Py.lower (Py.strip natural_language) in
  match _handle_complex_commands nl_input with
  | inr e => inr e
  | inl complex_command =>
      if truthy complex_command then
        inl (default "" complex_command, multi_step_note)
      else
        match try_categories nl_input command_patterns with
        | Some (inr e) => inr e
        | Some (inl command) =>
            inl (command,
                 "AI interpreted '" +:+ natural_language +:+ "' as '"
                 +:+ command +:+ "'")
        | None =>
            let keyword_command := _interpret_by_keywords nl_input in
            if truthy keyword_command then
              inl (default "" keyword_command, keyword_note)
            else
              inl (natural_language, passthrough_note)
        end
  end.

End AI.

(** ** Suggestions and execution

    [get_suggestions] and [execute_natural_language] of
    [AITerminalInterface]. *)

Module AIInterface.

Import AI.

(** [sub in s] for two strings *)
Fixpoint contains (sub s : string) : bool :=
  String.prefix sub s
  || match s with
     | String _ s' => contains sub s'
     | EmptyString => false
     end.

Definition starters : list string :=
  [ "create a file named";
    "create a folder named";
    "list all files";
    "show me the files";
    "delete the file";
    "copy the file";
    "move the file";
    "go to the directory";
    "show me system info";
    "find files named";
    "where am I";
    "clear the screen";
    "help me" ].

Definition get_suggestions (partial_input : string) : list string :=
  let partial_lower := Py.lower partial_input in
  let suggestions :=
    List.filter
      (fun starter =>
         Py.startswith starter partial_lower || contains partial_lower starter)
      starters in
  take 5 suggestions.

Section Execute.

Context {World : Type} `{OS World}.

(** [execute_natural_language]: output, return code and interpretation *)
Definition execute_natural_language (natural_language : string)
    : M World (string * Z * string) :=
  match interpret_command natural_language with
  | inr e => raise e
  | inl (command, interpretation) =>
      bind (execute_command command)
           (fun r => ret (fst r, snd r, interpretation))
  end.

End Execute.

End AIInterface.


(** * More builtins of [PythonTerminal]

    The builtins below need more of the operating system than the class
    [OS] offers; the class [FileOS] adds it.  [os.rmdir] tells apart the
    outcomes that [cmd_rmdir] tells apart in its [except] clauses. *)

(** how [os.rmdir] ends: done, [FileNotFoundError], another [OSError], or
    an exception that is no [OSError] *)
Inductive rmdir_result : Type :=
| RmdirDone
| RmdirMissing
| RmdirOSError (detail : string)
| RmdirFault (e : exn).

(** the fields of [os.stat_result] that [format_file_info] reads;
    [st_mtime_text] is the modification time as
    [datetime.fromtimestamp(...).strftime('%Y-%m-%d %H:%M')] prints it *)
Record stat_result := mkStat {
  st_size : N;
  st_mode : N;
  st_mtime_text : string
}.

Class FileOS (World : Type) := {
  os_makedirs : string -> World -> (unit + exn) * World;
  os_rmdir : string -> World -> rmdir_result * World;
  path_touch : string -> World -> (unit + exn) * World;
  os_isfile : World -> string -> bool;
  os_islink : World -> string -> bool;
  os_stat : World -> string -> stat_result + exn;
  shutil_copy2 : string -> string -> World -> (unit + exn) * World;
  shutil_copytree : string -> string -> World -> (unit + exn) * World;
  shutil_move : string -> string -> World -> (unit + exn) * World
}.

Module Fmt.

(** [str(n)] for a natural number *)
Definition dec (n : N) : string :=
  NilEmpty.string_of_uint (N.to_uint n).

Definition oct_digit (d : N) : ascii := ascii_of_N (48 + d).

(** the octal digits of [n], most significant first, before [acc] *)
Fixpoint oct_go (fuel : nat) (n : N) (acc : string) : string :=
  let acc' := String (oct_digit (n mod 8)) acc in
  match fuel with
  | 0 => acc'
  | S fuel' => if (n / 8 =? 0)%N then acc' else oct_go fuel' (n / 8) acc'
  end.

(** [oct(n)] *)
Definition oct (n : N) : string := "0o" +:+ oct_go (N.to_nat (N.size n)) n "".

(** [s[-3:]] *)
Definition last3 (s : string) : string := Py.str (Py.last_n 3 (Py.chars s)).

(** [f"{s:>8}"] for a text [s] *)
Definition right8 (s : string) : string :=
  Py.str (repeat " "%char (8 - String.length s)) +:+ s.

End Fmt.

Section MoreBuiltins.

Context {World : Type} `{OS World} `{FileOS World}.

Local Notation "x <- m ;; k" := (bind m (fun x => k))
  (at level 100, m at next level, right associativity).
Local Notation "m ;;; k" := (bind m (fun _ => k))
  (at level 100, right associativity).

(** the arguments that do not start with a dash *)
Definition operands (args : list string) : list string :=
  List.filter (fun arg => negb (Py.startswith arg "-")) args.

(** *** [mkdir], [rmdir], [touch] *)

Definition mkdir_one (dir_name : string) (results : list string)
    : M World (list string) :=
  try_except
    (self <- get_self ;;
     let dir_path := resolve self dir_name in
     os_call (os_makedirs dir_path) ;;;
     ret (results ++ ["Created directory: " +:+ dir_name]))
    (fun e =>
       ret (results ++ ["Error creating " +:+ dir_name +:+ ": "
                        +:+ exn_str e])).

Fixpoint mkdir_loop (args : list string) (results : list string)
    : M World (list string) :=
  match args with
  | [] => ret results
  | dir_name :: args' =>
      results' <- mkdir_one dir_name results ;;
      mkdir_loop args' results'
  end.

Definition cmd_mkdir (args : list string) : M World string :=
  match args with
  | [] => ret "Usage: mkdir <directory_name>"
  | _ =>
      results <- mkdir_loop args [] ;;
      ret (Py.join (String "010" "") results)
  end.

Definition rmdir_one (dir_name : string) (results : list string)
    : M World (list string) :=
  fun st =>
    let dir_path := resolve (fst st) dir_name in
    match os_rmdir dir_path (snd st) with
    | (RmdirDone, w') =>
        (inl (results ++ ["Removed directory: " +:+ dir_name]), (fst st, w'))
    | (RmdirMissing, w') =>
        (inl (results ++ ["Directory not found: " +:+ dir_name]),
         (fst st, w'))
    | (RmdirOSError detail, w') =>
        (inl (results ++ ["Error removing " +:+ dir_name +:+ ": "
                          +:+ detail]), (fst st, w'))
    | (RmdirFault e, w') => (inr e, (fst st, w'))
    end.

Fixpoint rmdir_loop (args : list string) (results : list string)
    : M World (list string) :=
  match args with
  | [] => ret results
  | dir_name :: args' =>
      results' <- rmdir_one dir_name results ;;
      rmdir_loop args' results'
  end.

Definition cmd_rmdir (args : list string) : M World string :=
  match args with
  | [] => ret "Usage: rmdir <directory_name>"
  | _ =>
      results <- rmdir_loop args [] ;;
      ret (Py.join (String "010" "") results)
  end.

Definition touch_one (filename : string) (results : list string)
    : M World (list string) :=
  try_except
    (self <- get_self ;;
     let file_path := resolve self filename in
     os_call (path_touch file_path) ;;;
     ret (results ++ ["Touched: " +:+ filename]))
    (fun e =>
       ret (results ++ ["Error touching " +:+ filename +:+ ": "
                        +:+ exn_str e])).

Fixpoint touch_loop (args : list string) (results : list string)
    : M World (list string) :=
  match args with
  | [] => ret results
  | filename :: args' =>
      results' <- touch_one filename results ;;
      touch_loop args' results'
  end.

Definition cmd_touch (args : list string) : M World string :=
  match args with
  | [] => ret "Usage: touch <filename>"
  | _ =>
      results <- touch_loop args [] ;;
      ret (Py.join (String "010" "") results)
  end.

(** *** [cp] and [mv] *)

Definition cmd_cp (args : list string) : M World string :=
  if (length args <? 2)%nat then ret "Usage: cp [-r] <source> <destination>"
  else
    let recursive := Py.mem "-r" args || Py.mem "--recursive" args in
    let files := operands args in
    match files with
    | source0 :: dest0 :: _ =>
        try_except
          (self <- get_self ;;
           let source := resolve self source0 in
           let dest := resolve self dest0 in
           w <- get_world ;;
           if os_isdir w source then
             if recursive then
               os_call (shutil_copytree source dest) ;;;
               ret ("Copied directory tree: " +:+ source0 +:+ " -> "
                    +:+ dest0)
             else
               ret ("Cannot copy directory " +:+ source0 +:+ ": use -r flag")
           else
             os_call (shutil_copy2 source dest) ;;;
             ret ("Copied file: " +:+ source0 +:+ " -> " +:+ dest0))
          (fun e =>
             match e with
             | FileNotFoundError _ => ret ("Source not found: " +:+ source0)
             | _ => ret ("Error copying: " +:+ exn_str e)
             end)
    | _ => ret "Source and destination required"
    end.

Definition cmd_mv (args : list string) : M World string :=
  match args with
  | [source0; dest0] =>
      try_except
        (self <- get_self ;;
         let source := resolve self source0 in
         let dest := resolve self dest0 in
         os_call (shutil_move source dest) ;;;
         ret ("Moved: " +:+ source0 +:+ " -> " +:+ dest0))
        (fun e =>
           match e with
           | FileNotFoundError _ => ret ("Source not found: " +:+ source0)
           | _ => ret ("Error moving: " +:+ exn_str e)
           end)
  | _ => ret "Usage: mv <source> <destination>"
  end.

(** *** [ls] *)

Definition format_file_info (w : World) (path : string) (long_format : bool)
    : string :=
  if negb long_format then os_basename path
  else
    match os_stat w path with
    | inl stat =>
        let size := st_size stat in
        let mtime := st_mtime_text stat in
        let file_type :=
          if os_isdir w path then "d"
          else if os_islink w path then "l"
          else "-" in
        let perms := Fmt.last3 (Fmt.oct (st_mode stat)) in
        file_type +:+ perms +:+ " " +:+ Fmt.right8 (Fmt.dec size) +:+ " "
        +:+ mtime +:+ " " +:+ os_basename path
    | inr _ => os_basename path
    end.

(** the loop [for item in os.listdir(path)] of [cmd_ls] *)
Fixpoint ls_items (w : World) (path : string) (show_hidden long_format : bool)
    (listing : list string) (items : list string) : list string :=
  match listing with
  | [] => items
  | item :: listing' =>
      if negb show_hidden && Py.startswith item "."
      then ls_items w path show_hidden long_format listing' items
      else
        let full_path := os_join path item in
        ls_items w path show_hidden long_format listing'
          (items ++ [if long_format then format_file_info w full_path true
                     else item])
  end.

Definition cmd_ls (args : list string) : M World string :=
  self <- get_self ;;
  w <- get_world ;;
  let path := match args with a :: _ => a | [] => current_directory self end in
  let show_hidden := Py.mem "-a" args || Py.mem "--all" args in
  let long_format := Py.mem "-l" args || Py.mem "--long" args in
  try_except
    (if negb (os_exists w path) then ret ("Path not found: " +:+ path)
     else if os_isfile w path then ret (format_file_info w path long_format)
     else
       listing <- of_result (os_listdir w path) ;;
       let items := ls_items w path show_hidden long_format listing [] in
       match items with
       | [] => ret "Directory is empty"
       | _ => ret (Py.join (String "010" "") (Py.sorted items))
       end)
    (fun e =>
       match e with
       | PermissionError _ => ret ("Permission denied: " +:+ path)
       | _ => ret ("Error listing directory: " +:+ exn_str e)
       end).

(** *** [env] *)

(** the order of the tuples [(key, value)] *)
Definition pair_leb (a b : string * string) : bool :=
  if String.eqb (fst a) (fst b) then String.leb (snd a) (snd b)
  else String.leb (fst a) (fst b).

Fixpoint insert_pair (x : string * string) (l : list (string * string))
    : list (string * string) :=
  match l with
  | [] => [x]
  | y :: l' => if pair_leb x y then x :: l else y :: insert_pair x l'
  end.

(** [sorted(d.items())] *)
Definition sorted_items (d : Py.dict string) : list (string * string) :=
  foldr insert_pair [] d.

Definition cmd_env (args : list string) : M World string :=
  self <- get_self ;;
  let results :=
    map (fun kv => fst kv +:+ "=" +:+ snd kv)
        (sorted_items (environment_vars self)) in
  ret (Py.join (String "010" "") results).

End MoreBuiltins.

(** ** A small concrete world

    Paths are POSIX, absolute and already normal; the file system is a
    list of nodes, each an absolute path with a flag telling a directory
    from a file. *)

Module Toy.

Record World := mkWorld {
  cwd : string;
  nodes : list (string * bool);
  locked : list string;          (* directories that may not be listed *)
  environ : Py.dict string
}.

Definition isabs (p : string) : bool := Py.startswith p "/".

Definition endswith_slash (p : string) : bool :=
  match rev (Py.chars p) with
  | "/"%char :: _ => true
  | _ => false
  end.

(** [posixpath.join] of two components *)
Definition join (a b : string) : string :=
  if isabs b then b
  else if String.eqb a "" || endswith_slash a then a +:+ b
  else a +:+ "/" +:+ b.

Fixpoint basename_go (cur : string) (p : string) : string :=
  match p with
  | EmptyString => cur
  | String "/" p' => basename_go "" p'
  | String c p' => basename_go (cur +:+ String c "") p'
  end.

Definition basename (p : string) : string := basename_go "" p.

Definition exists_ (w : World) (p : string) : bool :=
  existsb (fun n => String.eqb (fst n) p) (nodes w).

Definition isdir (w : World) (p : string) : bool :=
  existsb (fun n => String.eqb (fst n) p && snd n) (nodes w).

Definition isfile (w : World) (p : string) : bool :=
  existsb (fun n => String.eqb (fst n) p && negb (snd n)) (nodes w).

(** [strip_prefix p q]: [q] without its prefix [p] *)
Fixpoint strip_prefix (p q : string) : option string :=
  match p, q with
  | EmptyString, _ => Some q
  | String a p', String b q' =>
      if Ascii.eqb a b then strip_prefix p' q' else None
  | _, EmptyString => None
  end.

Definition has_slash (s : string) : bool :=
  existsb (Ascii.eqb "/"%char) (Py.chars s).

(** the name under which node [q] is an entry of directory [p] *)
Definition entry_of (p q : string) : option string :=
  match strip_prefix (if endswith_slash p then p else p +:+ "/") q with
  | Some name =>
      if String.eqb name "" || has_slash name then None else Some name
  | None => None
  end.

Definition listdir (w : World) (p : string) : list string + exn :=
  if Py.mem p (locked w) then
    inr (PermissionError ("[Errno 13] Permission denied: '" +:+ p +:+ "'"))
  else if isdir w p then
    inl (omap (fun n => entry_of p (fst n)) (nodes w))
  else if exists_ w p then
    inr (OtherException ("[Errno 20] Not a directory: '" +:+ p +:+ "'"))
  else
    inr (FileNotFoundError
           ("[Errno 2] No such file or directory: '" +:+ p +:+ "'")).

Definition chdir (p : string) (w : World) : (unit + exn) * World :=
  if isdir w p then
    (inl tt, {| cwd := p; nodes := nodes w; locked := locked w;
                environ := environ w |})
  else
    (inr (FileNotFoundError
            ("[Errno 2] No such file or directory: '" +:+ p +:+ "'")), w).

Definition remove (p : string) (w : World) : (unit + exn) * World :=
  if isfile w p then
    (inl tt,
     {| cwd := cwd w;
        nodes := List.filter
                   (fun n => negb (String.eqb (fst n) p && negb (snd n)))
                   (nodes w);
        locked := locked w; environ := environ w |})
  else if isdir w p then
    (inr (OtherException ("[Errno 21] Is a directory: '" +:+ p +:+ "'")), w)
  else
    (inr (FileNotFoundError
            ("[Errno 2] No such file or directory: '" +:+ p +:+ "'")), w).

Definition under (p q : string) : bool :=
  String.eqb p q
  || match strip_prefix (if endswith_slash p then p else p +:+ "/") q with
     | Some _ => true
     | None => false
     end.

Definition rmtree (p : string) (w : World) : (unit + exn) * World :=
  (inl tt,
   {| cwd := cwd w;
      nodes := List.filter (fun n => negb (under p (fst n))) (nodes w);
      locked := locked w; environ := environ w |}).

Definition putenv (var value : string) (w : World) : (unit + exn) * World :=
  if String.eqb var "" then
    (inr (OtherException "[Errno 22] Invalid argument"), w)
  else
    (inl tt,
     {| cwd := cwd w; nodes := nodes w; locked := locked w;
        environ := Py.dict_set (environ w) var value |}).

(** three programs are installed: [printf] writes its argument to
    standard output, [warn] writes to both streams and fails with
    status 2, and [sleep] outlives the timeout *)
Definition run (argv : list string) (dir : string) (w : World)
    : (CompletedProcess + exn) * World :=
  match argv with
  | "printf" :: text :: _ =>
      (inl {| stdout := text; stderr := ""; returncode := 0 |}, w)
  | "warn" :: text :: _ =>
      (inl {| stdout := "out:" +:+ text; stderr := "err:" +:+ text;
              returncode := 2 |}, w)
  | "sleep" :: _ =>
      (inr (TimeoutExpired "Command timed out after 30 seconds"), w)
  | name :: _ =>
      (inr (FileNotFoundError
              ("[Errno 2] No such file or directory: '" +:+ name +:+ "'")),
       w)
  | [] => (inr (OtherException "list index out of range"), w)
  end.

Definition has_nul (s : string) : bool :=
  existsb (Ascii.eqb "000"%char) (Py.chars s).

(** of the builtins left to the collaborator, [rmdir] raises on a name
    with a NUL character (an error [cmd_rmdir] does not catch), [whoami]
    answers, and the rest return nothing *)
Definition other (h : handler) (args : list string) (self : Session)
    (w : World) : (string + exn) * World :=
  match h with
  | cmd_rmdir_h =>
      if existsb has_nul args
      then (inr (ValueError "embedded null byte"), w)
      else (inl "", w)
  | cmd_whoami_h => (inl "user", w)
  | _ => (inl "", w)
  end.

#[export] Instance toy_os : OS World := {|
  os_getcwd := cwd;
  os_environ := environ;
  os_expanduser := fun w p => if String.eqb p "~" then "/home/user" else p;
  os_isabs := isabs;
  os_join := join;
  os_abspath := fun w p => if isabs p then p else join (cwd w) p;
  os_basename := basename;
  os_exists := exists_;
  os_isdir := isdir;
  os_listdir := listdir;
  os_chdir := chdir;
  os_remove := remove;
  os_rmtree := rmtree;
  os_putenv := putenv;
  subprocess_run := run;
  os_other := other
|}.

(** a world with a home directory, a project and a locked directory *)
Definition w0 : World :=
  {| cwd := "/";
     nodes :=
       [ ("/", true); ("/home", true); ("/home/user", true);
         ("/tmp", true); ("/tmp/notes.txt", false);
     ("/tmp/~old", true);
         ("/p", true); ("/p/-a", false); ("/p/.b", false);
         ("/q", true); ("/q/src", true); ("/q/src/main.py", false);
         ("/q/src/deep", true); ("/q/src/deep/er", true);
         ("/q/src/deep/er/bottom.txt", false);
         ("/q/.git", true); ("/q/.git/config", false);
         ("/q/vault", true); ("/q/vault/key", false);
         ("/q/zz.txt", false) ];
     locked := ["/q/vault"];
     environ := [("HOME", "/home/user"); ("USER", "user")] |}.

Definition s0 : Session := new_terminal w0.

End Toy.


(** ** A stricter world and the small world's files *)

Module Strict.

(** the small world, where a locked directory may not be entered either
    and a data file may not be run *)
Definition chdir (p : string) (w : Toy.World) : (unit + exn) * Toy.World :=
  if Py.mem p (Toy.locked w) then
    (inr (PermissionError ("[Errno 13] Permission denied: '" +:+ p +:+ "'")),
     w)
  else Toy.chdir p w.

Definition run (argv : list string) (dir : string) (w : Toy.World)
    : (CompletedProcess + exn) * Toy.World :=
  match argv with
  | name :: _ =>
      if Toy.isfile w name then
        (inr (PermissionError
                ("[Errno 13] Permission denied: '" +:+ name +:+ "'")), w)
      else Toy.run argv dir w
  | [] => Toy.run argv dir w
  end.

Definition os : OS Toy.World := {|
  os_getcwd := Toy.cwd;
  os_environ := Toy.environ;
  os_expanduser := fun w p => if String.eqb p "~" then "/home/user" else p;
  os_isabs := Toy.isabs;
  os_join := Toy.join;
  os_abspath := fun w p => if Toy.isabs p then p else Toy.join (Toy.cwd w) p;
  os_basename := Toy.basename;
  os_exists := Toy.exists_;
  os_isdir := Toy.isdir;
  os_listdir := Toy.listdir;
  os_chdir := chdir;
  os_remove := Toy.remove;
  os_rmtree := Toy.rmtree;
  os_putenv := Toy.putenv;
  subprocess_run := run;
  os_other := Toy.other
|}.

End Strict.

Module ToyFiles.

Definition with_nodes (n : list (string * bool)) (w : Toy.World) : Toy.World :=
  {| Toy.cwd := Toy.cwd w; Toy.nodes := n; Toy.locked := Toy.locked w;
     Toy.environ := Toy.environ w |}.

Definition nul_error : exn := ValueError "embedded null byte".

Definition missing (p : string) : exn :=
  FileNotFoundError ("[Errno 2] No such file or directory: '" +:+ p +:+ "'").

Definition makedirs (p : string) (w : Toy.World) : (unit + exn) * Toy.World :=
  if Toy.has_nul p then (inr nul_error, w)
  else if Toy.isfile w p then
    (inr (OtherException ("[Errno 17] File exists: '" +:+ p +:+ "'")), w)
  else if Toy.isdir w p then (inl tt, w)
  else (inl tt, with_nodes (Toy.nodes w ++ [(p, true)]) w).

Definition has_entries (w : Toy.World) (p : string) : bool :=
  existsb (fun n => match Toy.entry_of p (fst n) with
                    | Some _ => true
                    | None => false
                    end) (Toy.nodes w).

Definition rmdir (p : string) (w : Toy.World) : rmdir_result * Toy.World :=
  if Toy.has_nul p then (RmdirFault nul_error, w)
  else if negb (Toy.exists_ w p) then (RmdirMissing, w)
  else if Toy.isfile w p then
    (RmdirOSError ("[Errno 20] Not a directory: '" +:+ p +:+ "'"), w)
  else if has_entries w p then
    (RmdirOSError ("[Errno 39] Directory not empty: '" +:+ p +:+ "'"), w)
  else
    (RmdirDone,
     with_nodes (List.filter (fun n => negb (String.eqb (fst n) p))
                             (Toy.nodes w)) w).

Definition touch (p : string) (w : Toy.World) : (unit + exn) * Toy.World :=
  if Toy.has_nul p then (inr nul_error, w)
  else if Toy.exists_ w p then (inl tt, w)
  else (inl tt, with_nodes (Toy.nodes w ++ [(p, false)]) w).

Definition stat (w : Toy.World) (p : string) : stat_result + exn :=
  if Toy.isdir w p then
    inl {| st_size := 4096; st_mode := 16877;
           st_mtime_text := "2024-01-01 00:00" |}
  else if Toy.isfile w p then
    inl {| st_size := 12; st_mode := 33188;
           st_mtime_text := "2024-01-01 00:00" |}
  else inr (missing p).

(** the nodes at or under [src], renamed to sit at or under [dst] *)
Definition moved_nodes (src dst : string) (w : Toy.World)
    : list (string * bool) :=
  omap (fun n =>
          if String.eqb (fst n) src then Some (dst, snd n)
          else match Toy.strip_prefix (src +:+ "/") (fst n) with
               | Some tail => Some (dst +:+ "/" +:+ tail, snd n)
               | None => None
               end)
       (Toy.nodes w).

Definition copy2 (src dst : string) (w : Toy.World)
    : (unit + exn) * Toy.World :=
  if Toy.isfile w src then
    let target :=
      if Toy.isdir w dst then Toy.join dst (Toy.basename src) else dst in
    if Toy.exists_ w target then (inl tt, w)
    else (inl tt, with_nodes (Toy.nodes w ++ [(target, false)]) w)
  else (inr (missing src), w).

Definition copytree (src dst : string) (w : Toy.World)
    : (unit + exn) * Toy.World :=
  if Toy.isdir w src then
    if Toy.exists_ w dst then
      (inr (OtherException ("[Errno 17] File exists: '" +:+ dst +:+ "'")), w)
    else (inl tt, with_nodes (Toy.nodes w ++ moved_nodes src dst w) w)
  else (inr (missing src), w).

Definition move (src dst : string) (w : Toy.World)
    : (unit + exn) * Toy.World :=
  if Toy.exists_ w src then
    let target :=
      if Toy.isdir w dst then Toy.join dst (Toy.basename src) else dst in
    (inl tt,
     with_nodes
       (List.filter (fun n => negb (Toy.under src (fst n))) (Toy.nodes w)
        ++ moved_nodes src target w) w)
  else (inr (missing src), w).

Definition files : FileOS Toy.World := {|
  os_makedirs := makedirs;
  os_rmdir := rmdir;
  path_touch := touch;
  os_isfile := Toy.isfile;
  os_islink := fun _ _ => false;
  os_stat := stat;
  shutil_copy2 := copy2;
  shutil_copytree := copytree;
  shutil_move := move
|}.

End ToyFiles.

(** * Properties of the command engine *)

Section EngineFacts.

Context {World : Type} `{OS World}.

Local Notation "x <- m ;; k" := (bind m (fun x => k))
  (at level 100, m at next level, right associativity).

(** a method that leaves [self.command_history] as it found it *)
Definition keeps_history {A} (m : M World A) : Prop :=
  forall st, command_history (fst (snd (m st))) = command_history (fst st).

Lemma keeps_ret {A} (a : A) : keeps_history (ret a).
Proof. intros st. reflexivity. Qed.

Lemma keeps_raise {A} (e : exn) : keeps_history (@raise World A e).
Proof. intros st. reflexivity. Qed.

Lemma keeps_bind {A B} (m : M World A) (k : A -> M World B) :
  keeps_history m -> (forall a, keeps_history (k a)) ->
  keeps_history (bind m k).
Proof.
  intros Hm Hk st. unfold bind. specialize (Hm st).
  destruct (m st) as [[a | e] st']; simpl in *.
  - rewrite Hk. exact Hm.
  - exact Hm.
Qed.

Lemma keeps_try {A} (body : M World A) (handler : exn -> M World A) :
  keeps_history body -> (forall e, keeps_history (handler e)) ->
  keeps_history (try_except body handler).
Proof.
  intros Hb Hh st. unfold try_except. specialize (Hb st).
  destruct (body st) as [[a | e] st']; simpl in *.
  - exact Hb.
  - rewrite Hh. exact Hb.
Qed.

Lemma keeps_get_self : keeps_history get_self.
Proof. intros st. reflexivity. Qed.

Lemma keeps_get_world : keeps_history get_world.
Proof. intros st. reflexivity. Qed.

Lemma keeps_os_call {A} (f : World -> (A + exn) * World) :
  keeps_history (os_call f).
Proof. intros [s w]. unfold os_call. simpl. destruct (f w). reflexivity. Qed.

Lemma keeps_of_result {A} (r : A + exn) : keeps_history (@of_result World A r).
Proof. intros st. reflexivity. Qed.

Lemma keeps_set_self (f : Session -> Session) :
  (forall s, command_history (f s) = command_history s) ->
  keeps_history (set_self f).
Proof. intros Hf st. simpl. apply Hf. Qed.

Create HintDb keeps.
Hint Resolve keeps_ret keeps_raise keeps_get_self keeps_get_world
  keeps_os_call keeps_of_result : keeps.

Ltac keeps :=
  repeat first
    [ progress intros
    | apply keeps_bind
    | apply keeps_try
    | apply keeps_set_self; intros; reflexivity
    | solve [auto with keeps]
    | match goal with
      | |- keeps_history (if ?b then _ else _) => destruct b
      | |- keeps_history (match ?x with _ => _ end) => destruct x
      end ].

Lemma keeps_rm_loop recursive force files :
  forall results, keeps_history (rm_loop recursive force files results).
Proof.
  induction files as [| f files IH]; intros results; simpl.
  - keeps.
  - apply keeps_bind; [unfold rm_one; keeps | intros; apply IH].
Qed.

Lemma keeps_run_handler h args : keeps_history (run_handler h args).
Proof.
  destruct h; simpl;
    unfold cmd_cd, cmd_pwd, cmd_echo, cmd_history, cmd_clear, cmd_exit,
      cmd_alias, cmd_set, cmd_tree, cmd_rm;
    keeps; try apply keeps_rm_loop.
Qed.

Lemma keeps_external command args :
  keeps_history (execute_external_command command args).
Proof. unfold execute_external_command. keeps. Qed.

(** *** History *)

Lemma execute_command_blank line st :
  is_blank line = true -> execute_command line st = (inl ("", 0%Z), st).
Proof. intros Hb. unfold execute_command. rewrite Hb. reflexivity. Qed.

Lemma execute_command_history line st :
  is_blank line = false ->
  command_history (fst (snd (execute_command line st)))
  = command_history (append_history line (fst st)).
Proof.
  intros Hb. unfold execute_command. rewrite Hb.
  unfold bind at 1, set_self. cbn [fst snd].
  match goal with
  | |- command_history (fst (snd (?m ?st1))) = _ =>
      assert (Hk : keeps_history m)
  end.
  { apply keeps_try; [| intros; apply keeps_ret].
    apply keeps_bind; [apply keeps_of_result |].
    intros [| command args]; [apply keeps_ret |].
    apply keeps_bind; [apply keeps_get_self |]. intros self.
    destruct (Py.dict_get builtin_commands (resolve_alias self command)).
    - apply keeps_try; [| intros; apply keeps_ret].
      apply keeps_bind; [apply keeps_run_handler | intros; apply keeps_ret].
    - apply keeps_external. }
  rewrite Hk. reflexivity.
Qed.

Lemma append_history_spec line (self : Session) :
  (length (command_history self) <= 1000)%nat ->
  command_history (append_history line self)
  = (if (length (command_history self) <? 1000)%nat
     then command_history self
     else drop 1 (command_history self)) ++ [line].
Proof.
  intros Hlen. unfold append_history, Py.last_n. simpl.
  rewrite length_app. simpl.
  destruct (Nat.ltb_spec 1000 (length (command_history self) + 1)) as [Hgt | Hle];
    destruct (Nat.ltb_spec (length (command_history self)) 1000) as [Hlt | Hge];
    try lia.
  - replace (length (command_history self) + 1 - 1000) with 1 by lia.
    destruct (command_history self) as [| x h]; [simpl in *; lia |].
    reflexivity.
  - reflexivity.
Qed.

Lemma append_history_length line (self : Session) :
  (length (command_history (append_history line self)) <= 1000)%nat.
Proof.
  unfold append_history, Py.last_n. simpl.
  destruct (Nat.ltb_spec 1000 (length (command_history self ++ [line])))
    as [Hgt | Hle].
  - rewrite length_drop. lia.
  - exact Hle.
Qed.

Lemma append_history_last line (self : Session) :
  last (command_history (append_history line self)) = Some line.
Proof.
  unfold append_history, Py.last_n. simpl.
  destruct (Nat.ltb_spec 1000 (length (command_history self ++ [line])))
    as [Hgt | Hle].
  - rewrite drop_app_le by (rewrite length_app in *; simpl in *; lia).
    apply last_snoc.
  - apply last_snoc.
Qed.

Lemma execute_command_bound line st :
  (length (command_history (fst st)) <= 1000)%nat ->
  (length (command_history (fst (snd (execute_command line st)))) <= 1000)%nat.
Proof.
  intros Hlen. destruct (is_blank line) eqn:Hb.
  - rewrite execute_command_blank by exact Hb. exact Hlen.
  - rewrite execute_command_history by exact Hb. apply append_history_length.
Qed.

Lemma execute_all_bound lines :
  forall st,
    (length (command_history (fst st)) <= 1000)%nat ->
    (length (command_history (fst (execute_all lines st))) <= 1000)%nat.
Proof.
  induction lines as [| line lines IH]; intros st Hlen; simpl.
  - exact Hlen.
  - apply IH. apply execute_command_bound. exact Hlen.
Qed.

(** C1.  Whatever commands a terminal has run, its history holds at most
    1000 lines; running one more line that is not blank (not empty once
    stripped, the lines [execute_command] does not ignore) puts exactly
    that line at the end of the history, after dropping the oldest entry
    when the history was full.  This holds whatever the line does: the
    tokenizer may reject it, a builtin may raise, the child process may
    fail. *)
Theorem C1_history_bounded_latest_last :
  forall (lines : list string) (st : Session * World),
    (length (command_history (fst st)) <= 1000)%nat ->
    let st1 := execute_all lines st in
    (length (command_history (fst st1)) <= 1000)%nat /\
    forall line,
      is_blank line = false ->
      let h1 := command_history (fst st1) in
      let h2 := command_history (fst (snd (execute_command line st1))) in
      h2 = (if (length h1 <? 1000)%nat then h1 else drop 1 h1) ++ [line]
      /\ last h2 = Some line
      /\ (length h2 <= 1000)%nat.
Proof.
  intros lines st Hlen st1.
  assert (Hb1 : (length (command_history (fst st1)) <= 1000)%nat)
    by (apply execute_all_bound; exact Hlen).
  split; [exact Hb1 |].
  intros line Hb h1 h2. subst h1 h2.
  rewrite execute_command_history by exact Hb.
  split; [apply append_history_spec; exact Hb1 |].
  split; [apply append_history_last | apply append_history_length].
Qed.

(** *** Dispatch *)

Lemma append_empty (s : string) : s +:+ "" = s.
Proof.
  induction s as [| c s IH]; [reflexivity |].
  change (String c (s +:+ "") = String c s). now rewrite IH.
Qed.

(** what [execute_command] does with a line that is not blank and
    tokenizes: the line is recorded, the first token goes through the
    alias table once, and the registry decides between a builtin and the
    external executor *)
Lemma execute_command_dispatch line st first args :
  is_blank line = false ->
  Shlex.split line = inl (first :: args) ->
  let self1 := append_history line (fst st) in
  let name := resolve_alias self1 first in
  execute_command line st =
    match Py.dict_get builtin_commands name with
    | Some h =>
        match run_handler h args (self1, snd st) with
        | (inl out, st2) => (inl (out, 0%Z), st2)
        | (inr e, st2) =>
            (inl ("Error executing " +:+ name +:+ ": " +:+ exn_str e, 1%Z),
             st2)
        end
    | None =>
        match execute_external_command name args (self1, snd st) with
        | (inl r, st2) => (inl r, st2)
        | (inr e, st2) =>
            (inl ("Command parsing error: " +:+ exn_str e, 1%Z), st2)
        end
    end.
Proof.
  intros Hb Hs self1 name. unfold execute_command. rewrite Hb, Hs.
  unfold bind at 1, set_self. cbn [fst snd].
  unfold try_except at 1, bind at 1, of_result. cbn [fst snd].
  unfold bind at 1, get_self. cbn [fst snd].
  fold self1. fold name.
  destruct (Py.dict_get builtin_commands name) as [h |].
  - unfold try_except, bind, ret.
    destruct (run_handler h args (self1, st.2)) as [[out | e] st2];
      reflexivity.
  - reflexivity.
Qed.

Lemma external_command_result command args (st : Session * World) r w' :
  subprocess_run (command :: args) (current_directory (fst st)) (snd st)
  = (r, w') ->
  execute_external_command command args st =
    (inl match r with
         | inl p => (stdout p +:+ stderr p, returncode p)
         | inr (FileNotFoundError _) =>
             ("Command not found: " +:+ command, 127%Z)
         | inr (TimeoutExpired _) =>
             ("Command timed out after 30 seconds", 1%Z)
         | inr e =>
             ("Error executing external command: " +:+ exn_str e, 1%Z)
         end,
     (fst st, w')).
Proof.
  destruct st as [self w]. intros Hrun. simpl in Hrun.
  unfold execute_external_command, try_except, bind, get_self, os_call, ret.
  cbn [fst snd]. rewrite Hrun.
  destruct r as [p | e].
  - destruct (String.eqb_spec (stderr p) "") as [He | Hne]; simpl.
    + rewrite He, append_empty. reflexivity.
    + reflexivity.
  - destruct e; reflexivity.
Qed.

Lemma external_never_raises command args (st : Session * World) :
  exists r, fst (execute_external_command command args st) = inl r.
Proof.
  destruct (subprocess_run (command :: args) (current_directory (fst st))
              (snd st)) as [r w'] eqn:Hrun.
  rewrite (external_command_result command args st r w' Hrun).
  eexists. reflexivity.
Qed.

(** C4.  The external executor turns the outcome of the child process
    into a result: a missing executable gives [Command not found: name]
    with code 127, an expired timeout its message with code 1, and a
    process that ran gives standard output followed by standard error
    with the child's exit code. *)
Theorem C4_external_command_results :
  forall (command : string) (args : list string) (st : Session * World)
         (r : CompletedProcess + exn) (w' : World),
    subprocess_run (command :: args) (current_directory (fst st)) (snd st)
    = (r, w') ->
    (forall d, r = inr (FileNotFoundError d) ->
       fst (execute_external_command command args st)
       = inl ("Command not found: " +:+ command, 127%Z))
    /\ (forall d, r = inr (TimeoutExpired d) ->
       fst (execute_external_command command args st)
       = inl ("Command timed out after 30 seconds", 1%Z))
    /\ (forall p, r = inl p ->
       fst (execute_external_command command args st)
       = inl (stdout p +:+ stderr p, returncode p)).
Proof.
  intros command args st r w' Hrun.
  rewrite (external_command_result command args st r w' Hrun).
  repeat split; intros ? ->; reflexivity.
Qed.
(** C3.  When the first token, after the alias table, names a builtin,
    [execute_command] returns what the handler returned with exit code 0,
    whatever that text says, and turns whatever the handler raised into
    [Error executing name: detail] with exit code 1; in both cases it
    returns, and nothing is raised to the caller. *)
Theorem C3_builtin_fault_boundary :
  forall (line : string) (st : Session * World) (first : string)
         (args : list string) (h : handler)
         (r : string + exn) (st2 : Session * World),
    is_blank line = false ->
    Shlex.split line = inl (first :: args) ->
    Py.dict_get builtin_commands (resolve_alias (fst st) first) = Some h ->
    run_handler h args (append_history line (fst st), snd st) = (r, st2) ->
    execute_command line st =
      (inl match r with
           | inl out => (out, 0%Z)
           | inr e =>
               ("Error executing " +:+ resolve_alias (fst st) first +:+ ": "
                +:+ exn_str e, 1%Z)
           end,
       st2).
Proof.
  intros line st first args h r st2 Hb Hs Hh Hrun.
  rewrite (execute_command_dispatch line st first args Hb Hs).
  change (resolve_alias (append_history line (fst st)) first)
    with (resolve_alias (fst st) first).
  rewrite Hh, Hrun. destruct r; reflexivity.
Qed.

Lemma execute_command_never_raises line (st : Session * World) :
  exists out code, fst (execute_command line st) = inl (out, code).
Proof.
  unfold execute_command. destruct (is_blank line); [eauto |].
  unfold bind at 1, set_self. cbn [fst snd].
  unfold try_except at 1.
  match goal with
  | |- context [match ?b with pair _ _ => _ end] =>
      destruct b as [[[out code] | e] st']
  end; eauto.
Qed.

(** *** Aliases *)

Lemma dict_get_Some_in {V} (d : Py.dict V) k v :
  Py.dict_get d k = Some v -> In k (map fst d).
Proof.
  induction d as [| [k' v'] d IH]; simpl; [discriminate |].
  destruct (String.eqb_spec k k') as [-> | Hne]; [auto |].
  intros Hd. right. apply IH. exact Hd.
Qed.

Definition has_whitespace (s : string) : bool :=
  existsb Py.isspace (Py.chars s).

Lemma builtin_names_have_no_whitespace v :
  has_whitespace v = true -> Py.dict_get builtin_commands v = None.
Proof.
  intros Hws.
  destruct (Py.dict_get builtin_commands v) as [h |] eqn:Hd; [| reflexivity].
  apply dict_get_Some_in in Hd.
  assert (Hall : forallb (fun n => negb (has_whitespace n))
                   (map fst builtin_commands) = true) by reflexivity.
  rewrite forallb_forall in Hall. apply Hall in Hd.
  rewrite Hws in Hd. discriminate.
Qed.

(** C9.  The alias check replaces the first token by the alias's value
    as it stands.  When the value holds a whitespace character it names
    no builtin, and the line runs as the external command whose
    executable name is the whole value, followed by the line's own
    arguments: the value is not tokenized again. *)
Theorem C9_alias_value_is_one_command_name :
  forall (line : string) (st : Session * World) (first : string)
         (args : list string) (value : string),
    is_blank line = false ->
    Shlex.split line = inl (first :: args) ->
    Py.dict_get (aliases (fst st)) first = Some value ->
    has_whitespace value = true ->
    Py.dict_get builtin_commands value = None
    /\ execute_command line st
       = execute_external_command value args
           (append_history line (fst st), snd st)
    /\ forall r w',
         subprocess_run (value :: args) (current_directory (fst st)) (snd st)
         = (r, w') ->
         snd (snd (execute_command line st)) = w'.
Proof.
  intros line st first args value Hb Hs Ha Hws.
  assert (Hn : Py.dict_get builtin_commands value = None)
    by (apply builtin_names_have_no_whitespace; exact Hws).
  assert (He : execute_command line st
               = execute_external_command value args
                   (append_history line (fst st), snd st)).
  { rewrite (execute_command_dispatch line st first args Hb Hs).
    change (resolve_alias (append_history line (fst st)) first)
      with (resolve_alias (fst st) first).
    unfold resolve_alias. rewrite Ha, Hn.
    destruct (external_never_raises value args
                (append_history line (fst st), snd st)) as [r Hr].
    destruct (execute_external_command value args
                (append_history line st.1, st.2)) as [[r' | e] st2];
      [reflexivity | simpl in Hr; discriminate]. }
  split; [exact Hn |]. split; [exact He |].
  intros r w' Hrun. rewrite He.
  rewrite (external_command_result value args
             (append_history line (fst st), snd st) r w' Hrun).
  reflexivity.
Qed.

(** *** [cd] *)


Lemma cd_messages_differ (t d : string) :
  "Changed directory to: " +:+ t <> "Directory not found: " +:+ d
  /\ "Changed directory to: " +:+ t <> "Permission denied: " +:+ d
  /\ "Changed directory to: " +:+ t <> "Error changing directory: " +:+ d.
Proof. repeat split; intros Heq; inversion Heq. Qed.

(** what [cmd_cd] does, by cases on the target and on [os.chdir] *)
Lemma cmd_cd_cases args (self : Session) (w : World) :
  let target := os_abspath w (cd_target self w args) in
  cmd_cd args (self, w) =
    if os_isdir w target then
      match os_chdir target w with
      | (inl _, w') =>
          (inl ("Changed directory to: " +:+ target),
           (with_current_directory target self, w'))
      | (inr (PermissionError d), w') =>
          (inl ("Permission denied: " +:+ target),
           (with_current_directory target self, w'))
      | (inr e, w') =>
          (inl ("Error changing directory: " +:+ exn_str e),
           (with_current_directory target self, w'))
      end
    else (inl ("Directory not found: " +:+ target), (self, w)).
Proof.
  intros target. unfold cmd_cd, bind, get_self, get_world, try_except,
    set_self, os_call, ret. cbn [fst snd]. fold target.
  destruct (os_isdir w target); [| reflexivity].
  cbn [fst snd].
  destruct (os_chdir target w) as [[[] | e] w']; [reflexivity |].
  destruct e; reflexivity.
Qed.

(** the terminals of the other sessions are not touched by a request *)
Lemma route_execute_frame (session_id other command : string)
    (terminals : gmap string Session) (w : World) :
  other <> session_id ->
  fst (snd (route_execute session_id command (terminals, w))) !! other
  = terminals !! other.
Proof.
  intros Hne. unfold route_execute, get_terminal.
  destruct (String.eqb (Py.strip command) ""); [reflexivity |].
  destruct (terminals !! session_id) as [t |] eqn:Ht.
  - destruct (execute_command (Py.strip command) (t, w))
      as [[[out code] | e] [t' w']].
    + destruct (String.eqb out "EXIT_TERMINAL"); cbn [fst snd].
      * rewrite lookup_delete_ne by congruence. reflexivity.
      * rewrite lookup_insert_ne by congruence. reflexivity.
    + cbn [fst snd]. rewrite lookup_insert_ne by congruence. reflexivity.
  - destruct (execute_command (Py.strip command) (new_terminal w, w))
      as [[[out code] | e] [t' w']].
    + destruct (String.eqb out "EXIT_TERMINAL"); cbn [fst snd].
      * rewrite lookup_delete_ne by congruence.
        rewrite lookup_insert_ne by congruence. reflexivity.
      * rewrite !lookup_insert_ne by congruence. reflexivity.
    + cbn [fst snd]. rewrite !lookup_insert_ne by congruence. reflexivity.
Qed.

(** C6, as the code has it.  A [cd] that answers [Changed directory to]
    has set the session's working directory to the resolved target and
    has called [os.chdir] on it, which moves the working directory of
    the hosting process; no other field of the session has changed, and
    the terminals the store holds for the other sessions are the same
    before and after any request. *)
Theorem C6_cd_sets_session_and_process_directory :
  forall (args : list string) (self self' : Session) (w w' : World),
    cmd_cd args (self, w)
    = (inl ("Changed directory to: "
            +:+ os_abspath w (cd_target self w args)),
       (self', w')) ->
    (self' = with_current_directory
               (os_abspath w (cd_target self w args)) self
     /\ os_chdir (os_abspath w (cd_target self w args)) w = (inl tt, w'))
    /\ forall (session_id other command : string)
              (terminals : gmap string Session) (w1 : World),
         other <> session_id ->
         fst (snd (route_execute session_id command (terminals, w1)))
           !! other
         = terminals !! other.
Proof.
  intros args self self' w w' Hcd.
  split; [| intros; apply route_execute_frame; assumption].
  rewrite cmd_cd_cases in Hcd.
  destruct (cd_messages_differ
              (os_abspath w (cd_target self w args))
              (os_abspath w (cd_target self w args))) as (Hd1 & Hd2 & _).
  destruct (os_isdir w (os_abspath w (cd_target self w args)));
    [| inversion Hcd; contradiction].
  destruct (os_chdir (os_abspath w (cd_target self w args)) w)
    as [[[] | e] w2].
  - inversion Hcd. subst. split; reflexivity.
  - exfalso. destruct e; inversion Hcd as [[Hmsg Hs Hw]];
      solve [ symmetry in Hmsg; contradiction
            | symmetry in Hmsg;
              apply (proj2 (proj2 (cd_messages_differ _ _))) in Hmsg;
              contradiction ].
Qed.

(** *** [rm] *)

Definition refusal (file_name : string) : string :=
  "Cannot remove directory " +:+ file_name +:+ ": use -r flag".

Section RmWithoutRecursion.

(** [os.remove] unlinks a file: called on a path that is not a
    directory, it takes no directory away, whether it succeeds or
    raises. *)
Hypothesis remove_keeps_directories :
  forall (w : World) (p q : string),
    os_isdir w p = false ->
    os_isdir w q = true ->
    os_isdir (snd (os_remove p w)) q = true.

Lemma rm_one_without_recursion force file_name results
    (self : Session) (w : World) :
  exists added w',
    rm_one false force file_name results (self, w)
    = (inl (results ++ added), (self, w'))
    /\ (forall q, os_isdir w q = true -> os_isdir w' q = true)
    /\ (os_isdir w (resolve self file_name) = true ->
        added = [refusal file_name]).
Proof.
  unfold rm_one, try_except, bind, get_self, get_world, os_call, ret.
  cbn [fst snd].
  destruct (os_isdir w (resolve self file_name)) eqn:Hdir.
  - exists [refusal file_name], w.
    split; [reflexivity |]. split; [auto | reflexivity].
  - pose proof (remove_keeps_directories w (resolve self file_name))
      as Hkeep.
    cbn [fst snd].
    destruct (os_remove (resolve self file_name) w) as [[[] | e] w'];
      cbn [snd] in Hkeep.
    + exists ["Removed file: " +:+ file_name], w'.
      split; [reflexivity |].
      split; [intros q Hq; apply (Hkeep q Hdir Hq) | discriminate].
    + assert (Hw : forall q, os_isdir w q = true -> os_isdir w' q = true)
        by (intros q Hq; apply (Hkeep q Hdir Hq)).
      destruct e;
        try (eexists _, w'; split; [reflexivity |];
             split; [exact Hw | discriminate]).
      destruct force; simpl.
      * exists [], w'. rewrite app_nil_r.
        split; [reflexivity |]. split; [exact Hw | discriminate].
      * eexists _, w'. split; [reflexivity |].
        split; [exact Hw | discriminate].
Qed.

Lemma rm_loop_without_recursion force files :
  forall results (self : Session) (w : World),
  exists results' w',
    rm_loop false force files results (self, w)
    = (inl results', (self, w'))
    /\ (forall q, os_isdir w q = true -> os_isdir w' q = true)
    /\ (forall line, In line results -> In line results')
    /\ (forall d, In d files -> os_isdir w (resolve self d) = true ->
        In (refusal d) results').
Proof.
  induction files as [| f files IH]; intros results self w.
  - exists results, w. simpl. unfold ret.
    split; [reflexivity |]. split; [auto |]. split; [auto |].
    intros d [].
  - destruct (rm_one_without_recursion force f results self w)
      as (added & w1 & Hone & Hkeep1 & Hadd).
    destruct (IH (results ++ added) self w1)
      as (results' & w' & Hloop & Hkeep2 & Hmono & Hrefused).
    exists results', w'. simpl. unfold bind at 1. rewrite Hone, Hloop.
    split; [reflexivity |]. split; [auto |].
    split; [intros line Hin; apply Hmono, in_or_app; auto |].
    intros d [-> | Hin] Hdir.
    + apply Hmono, in_or_app. right. rewrite (Hadd Hdir). left.
      reflexivity.
    + apply Hrefused; [exact Hin | apply Hkeep1; exact Hdir].
Qed.

(** C7.  When the arguments of [rm] hold none of [-r], [-rf] and
    [--recursive], every operand (an argument that does not start
    with a dash) that names an existing directory is refused with
    [Cannot remove directory name: use -r flag], wherever it stands
    among the arguments, and it is still a directory when [rm]
    returns. *)
Theorem C7_rm_refuses_directory_without_recursive_flag :
  forall (args : list string) (self : Session) (w : World)
         (operand : string),
    rm_recursive args = false ->
    In operand args ->
    Py.startswith operand "-" = false ->
    os_isdir w (resolve self operand) = true ->
    exists results w',
      cmd_rm args (self, w)
      = (inl (Py.join (String "010" "") results), (self, w'))
      /\ In (refusal operand) results
      /\ os_isdir w' (resolve self operand) = true.
Proof.
  intros args self w operand Hrec Hin Hdash Hdir.
  assert (Hop : In operand (rm_files args)).
  { unfold rm_files. apply filter_In. split; [exact Hin |].
    rewrite Hdash. reflexivity. }
  unfold cmd_rm. rewrite Hrec.
  destruct args as [| a args']; [destruct Hin |].
  destruct (rm_files (a :: args')) as [| f files] eqn:Hfiles;
    [destruct Hop |].
  destruct (rm_loop_without_recursion (rm_force (a :: args'))
              (f :: files) [] self w)
    as (results & w' & Hloop & Hkeep & _ & Hrefused).
  exists results, w'. unfold bind. rewrite Hloop.
  split; [reflexivity |]. split; [apply Hrefused | apply Hkeep]; auto.
Qed.

End RmWithoutRecursion.

(** *** [tree] *)

(** a directory whose sorted listing is one visible file followed by one
    hidden entry: the visible file, the only line drawn, gets the
    connector of an earlier sibling *)
Lemma build_tree_hidden_entry_last (w : World) remaining path prefix results
    names visible hidden :
  os_listdir w path = inl names ->
  Py.sorted names = [visible; hidden] ->
  Py.startswith visible "." = false ->
  Py.startswith hidden "." = true ->
  os_isdir w (os_join path visible) = false ->
  build_tree_from w (S remaining) path prefix results
  = (results ++ [prefix +:+ mid_connector +:+ visible], None).
Proof.
  intros Hlist Hsorted Hvis Hhid Hfile. simpl.
  rewrite Hlist, Hsorted. simpl. rewrite Hvis, Hhid, Hfile. reflexivity.
Qed.

(** with the visible entry last, the same file gets the corner *)
Lemma build_tree_visible_entry_last (w : World) remaining path prefix results
    names hidden visible :
  os_listdir w path = inl names ->
  Py.sorted names = [hidden; visible] ->
  Py.startswith hidden "." = true ->
  Py.startswith visible "." = false ->
  os_isdir w (os_join path visible) = false ->
  build_tree_from w (S remaining) path prefix results
  = (results ++ [prefix +:+ last_connector +:+ visible], None).
Proof.
  intros Hlist Hsorted Hhid Hvis Hfile. simpl.
  rewrite Hlist, Hsorted. simpl. rewrite Hvis, Hhid, Hfile. reflexivity.
Qed.

End EngineFacts.

(** * Properties of the regular-expression matcher *)

Module ReFacts.

Import Re.

(** [g] is a contiguous piece of [s] *)
Definition infix_of {A} (g s : list A) : Prop :=
  exists pre post, s = pre ++ g ++ post.

Lemma infix_of_suffix {A} (g s1 s : list A) :
  infix_of g s1 -> s1 `suffix_of` s -> infix_of g s.
Proof.
  intros (pre & post & ->) [k ->].
  exists (k ++ pre), post. now rewrite <- app_assoc.
Qed.

Lemma infix_of_cons {A} (g s : list A) a : infix_of g s -> infix_of g (a :: s).
Proof. intros (pre & post & ->). now exists (a :: pre), post. Qed.

Lemma take_suffix_infix {A} (s s' : list A) :
  s' `suffix_of` s -> infix_of (take (length s - length s') s) s.
Proof.
  intros [k ->]. exists [], s'. simpl.
  rewrite length_app.
  replace (length k + length s' - length s') with (length k) by lia.
  now rewrite take_app_length.
Qed.

(** the number of capturing groups of a pattern *)
Fixpoint ngroups (r : re) : nat :=
  match r with
  | Eps | Chr _ | Star _ _ => 0
  | Seq r1 r2 => ngroups r1 + ngroups r2
  | Alt r1 r2 => ngroups r1 + ngroups r2
  | Group r1 => S (ngroups r1)
  end.

(** the patterns on which the matcher's list of groups is [match.groups()]:
    no group inside an alternative or inside another group, so that every
    group takes part in every match and groups close in the order they
    open *)
Fixpoint flat (r : re) : bool :=
  match r with
  | Eps | Chr _ | Star _ _ => true
  | Seq r1 r2 => flat r1 && flat r2
  | Alt r1 r2 => (ngroups r1 =? 0)%nat && (ngroups r2 =? 0)%nat
                 && flat r1 && flat r2
  | Group r1 => (ngroups r1 =? 0)%nat && flat r1
  end.

Section StarFacts.
Variable k : cls.
Variable cont : list ascii -> option groups.

Lemma lazy_star_inv s res :
  lazy_star k cont s = Some res ->
  exists s', cont s' = Some res /\ s' `suffix_of` s.
Proof.
  induction s as [| a s IH]; simpl.
  - destruct (cont []) eqn:Hc; [| discriminate].
    intros [= <-]. now exists [].
  - destruct (cont (a :: s)) eqn:Hc.
    + intros [= <-]. now exists (a :: s).
    + destruct (cls_matches k a); [| discriminate].
      intros Hl. destruct (IH Hl) as (s' & Hs' & Hsuf).
      exists s'. split; [exact Hs' | now apply suffix_cons_r].
Qed.

Lemma greedy_star_inv s res :
  greedy_star k cont s = Some res ->
  exists s', cont s' = Some res /\ s' `suffix_of` s.
Proof.
  induction s as [| a s IH]; simpl.
  - intros Hc. now exists [].
  - destruct (cls_matches k a).
    + destruct (greedy_star k cont s) eqn:Hg.
      * intros [= <-]. destruct (IH eq_refl) as (s' & Hs' & Hsuf).
        exists s'. split; [exact Hs' | now apply suffix_cons_r].
      * intros Hc. now exists (a :: s).
    + intros Hc. now exists (a :: s).
Qed.
End StarFacts.

(** a successful match went on with a suffix of the text, having closed
    groups that are pieces of the text, as many as the pattern has *)
Lemma m_inv (r : re) :
  forall s caps cont res,
    m r s caps cont = Some res ->
    exists s' new,
      cont s' (caps ++ new) = Some res
      /\ s' `suffix_of` s
      /\ Forall (fun g => infix_of g s) new
      /\ (flat r = true -> length new = ngroups r).
Proof.
  induction r as [| k | r1 IH1 r2 IH2 | r1 IH1 r2 IH2 | greedy k | r1 IH1];
    intros s caps cont res Hm; simpl in Hm.
  - exists s, []. rewrite app_nil_r. auto.
  - destruct s as [| a s]; [discriminate |].
    destruct (cls_matches k a); [| discriminate].
    exists s, []. rewrite app_nil_r.
    split; [exact Hm |]. split; [now apply suffix_cons_r |]. auto.
  - destruct (IH1 _ _ _ _ Hm) as (s1 & new1 & Hc1 & Hsuf1 & Hin1 & Hlen1).
    destruct (IH2 _ _ _ _ Hc1) as (s2 & new2 & Hc2 & Hsuf2 & Hin2 & Hlen2).
    exists s2, (new1 ++ new2). rewrite app_assoc.
    split; [exact Hc2 |]. split; [now transitivity s1 |].
    split.
    + apply Forall_app. split; [exact Hin1 |].
      eapply Forall_impl; [exact Hin2 |].
      intros g Hg. now apply (infix_of_suffix g s1 s).
    + simpl. intros [Hf1 Hf2]%andb_prop.
      rewrite length_app, Hlen1, Hlen2; auto.
  - destruct (m r1 s caps cont) eqn:Hm1.
    + injection Hm as <-.
      destruct (IH1 _ _ _ _ Hm1) as (s1 & new1 & Hc1 & Hsuf1 & Hin1 & Hlen1).
      exists s1, new1. repeat (split; [assumption |]).
      simpl. intros Hf. apply andb_prop in Hf as [Hf Hf2].
      apply andb_prop in Hf as [Hf Hf1]. apply andb_prop in Hf as [Hn1 Hn2].
      apply Nat.eqb_eq in Hn1, Hn2. rewrite Hlen1 by exact Hf1. lia.
    + destruct (IH2 _ _ _ _ Hm) as (s2 & new2 & Hc2 & Hsuf2 & Hin2 & Hlen2).
      exists s2, new2. repeat (split; [assumption |]).
      simpl. intros Hf. apply andb_prop in Hf as [Hf Hf2].
      apply andb_prop in Hf as [Hf Hf1]. apply andb_prop in Hf as [Hn1 Hn2].
      apply Nat.eqb_eq in Hn1, Hn2. rewrite Hlen2 by exact Hf2. lia.
  - destruct greedy.
    + apply greedy_star_inv in Hm as (s' & Hc & Hsuf).
      exists s', []. rewrite app_nil_r. auto.
    + apply lazy_star_inv in Hm as (s' & Hc & Hsuf).
      exists s', []. rewrite app_nil_r. auto.
  - destruct (IH1 _ _ _ _ Hm) as (s1 & new1 & Hc1 & Hsuf1 & Hin1 & Hlen1).
    exists s1, (new1 ++ [take (length s - length s1) s]).
    rewrite app_assoc. split; [exact Hc1 |]. split; [exact Hsuf1 |].
    split.
    + apply Forall_app. split; [exact Hin1 |].
      constructor; [| constructor]. now apply take_suffix_infix.
    + simpl. intros [Hn Hf]%andb_prop. apply Nat.eqb_eq in Hn.
      rewrite length_app, Hlen1 by exact Hf. simpl. lia.
Qed.

Lemma search_from_inv (r : re) :
  forall s g,
    search_from r s = Some g ->
    Forall (fun x => infix_of x s) g
    /\ (flat r = true -> length g = ngroups r).
Proof.
  induction s as [| a s IH]; intros g Hs; simpl in Hs.
  - destruct (match_here r []) eqn:Hm; [| discriminate].
    injection Hs as <-. unfold match_here in Hm.
    apply m_inv in Hm as (s' & new & Hc & _ & Hin & Hlen).
    injection Hc as <-. auto.
  - destruct (match_here r (a :: s)) eqn:Hm.
    + injection Hs as <-. unfold match_here in Hm.
      apply m_inv in Hm as (s' & new & Hc & _ & Hin & Hlen).
      injection Hc as <-. auto.
    + destruct (IH _ Hs) as [Hin Hlen]. split; [| exact Hlen].
      eapply Forall_impl; [exact Hin |].
      intros x Hx. now apply infix_of_cons.
Qed.

(** [search] on two strings: every group is a piece of the text, and a
    flat pattern gives as many groups as it has *)
Lemma search_inv pattern text g :
  search pattern text = Some g ->
  exists r,
    compile pattern = Some r
    /\ Forall (fun x => infix_of (Py.chars x) (Py.chars text)) g
    /\ (flat r = true -> length g = ngroups r).
Proof.
  unfold search. destruct (compile pattern) as [r |]; [| discriminate].
  destruct (search_from r (Py.chars text)) as [g0 |] eqn:Hs; [| discriminate].
  intros [= <-]. exists r. split; [reflexivity |].
  apply search_from_inv in Hs as [Hin Hlen]. split.
  - apply Forall_map. eapply Forall_impl; [exact Hin |].
    intros x Hx. unfold Py.chars, Py.str.
    now rewrite list_ascii_of_string_of_list_ascii.
  - intros Hf. rewrite length_map. auto.
Qed.

End ReFacts.

(** * Properties of the translator *)

Module AIFacts.

Import ReFacts AI.

(** ** Lower case *)

Definition all_lower (l : list ascii) : Prop :=
  Forall (fun c => Py.lower_char c = c) l.

Definition is_lower (s : string) : bool :=
  forallb (fun c => Ascii.eqb (Py.lower_char c) c) (Py.chars s).

Lemma is_lower_all_lower s : is_lower s = true -> all_lower (Py.chars s).
Proof.
  unfold is_lower, all_lower. rewrite forallb_forall, Forall_forall.
  intros Hall c Hc. apply Ascii.eqb_eq, Hall. now apply list_elem_of_In.
Qed.

Lemma lower_char_idempotent c :
  Py.lower_char (Py.lower_char c) = Py.lower_char c.
Proof. destruct c as [[] [] [] [] [] [] [] []]; reflexivity. Qed.

Lemma chars_str l : Py.chars (Py.str l) = l.
Proof. apply list_ascii_of_string_of_list_ascii. Qed.

Lemma str_chars s : Py.str (Py.chars s) = s.
Proof. apply string_of_list_ascii_of_string. Qed.

Lemma chars_app s1 s2 : Py.chars (s1 +:+ s2) = Py.chars s1 ++ Py.chars s2.
Proof.
  induction s1 as [| c s1 IH]; [reflexivity |].
  change (c :: Py.chars (s1 +:+ s2) = c :: (Py.chars s1 ++ Py.chars s2)).
  now rewrite IH.
Qed.

Lemma lower_all_lower s : all_lower (Py.chars (Py.lower s)).
Proof.
  unfold Py.lower. rewrite chars_str. apply Forall_map, Forall_forall.
  intros c _. apply lower_char_idempotent.
Qed.

Lemma all_lower_fixed s : all_lower (Py.chars s) -> Py.lower s = s.
Proof.
  intros Hall. unfold Py.lower. rewrite <- (str_chars s) at 2. f_equal.
  induction Hall as [| c l Hc _ IH]; [reflexivity |].
  simpl. now rewrite Hc, IH.
Qed.

Lemma all_lower_infix g s : infix_of g s -> all_lower s -> all_lower g.
Proof.
  intros (pre & post & ->) Hall. unfold all_lower in *.
  apply Forall_app in Hall as [_ Hall]. now apply Forall_app in Hall as [Hall _].
Qed.

(** ** [format] *)

(** every replacement field of the template is an index below [n] *)
Fixpoint fields_below (n : nat) (template : string) : bool :=
  match template with
  | String "{" (String d (String "}" rest)) =>
      match digit d with
      | Some i => (i <? n)%nat && fields_below n rest
      | None => false
      end
  | String _ rest => fields_below n rest
  | EmptyString => true
  end.

Lemma format_total template params :
  fields_below (length params) template = true ->
  exists out, format template params = inl out.
Proof.
  revert template.
  fix IH 1. intros template.
  destruct template as [| c rest]; [intros _; now exists "" |].
  assert (Hplain : fields_below (length params) rest = true ->
                   exists out,
                     match format rest params with
                     | inl out => inl (String c out)
                     | inr e => inr e
                     end = (inl out : result string)).
  { intros Hrest. destruct (IH rest Hrest) as [out ->]. eauto. }
  destruct (Ascii.eqb_spec c "{"%char) as [-> | Hc].
  - destruct rest as [| d [| c2 rest2]]; try exact Hplain.
    destruct (Ascii.eqb_spec c2 "}"%char) as [-> | Hc2].
    + simpl. destruct (digit d) as [i |]; [| discriminate].
      intros [Hi Hrest]%andb_prop. apply Nat.ltb_lt in Hi.
      destruct (nth_error params i) as [p |] eqn:Hn.
      * destruct (IH rest2 Hrest) as [out ->]. eauto.
      * apply nth_error_None in Hn. lia.
    + destruct c2 as [[] [] [] [] [] [] [] []]; try exact Hplain.
      contradiction.
  - destruct c as [[] [] [] [] [] [] [] []]; try exact Hplain.
    contradiction.
Qed.

Lemma format_lower template params :
  all_lower (Py.chars template) ->
  Forall (fun p => all_lower (Py.chars p)) params ->
  forall out, format template params = inl out -> all_lower (Py.chars out).
Proof.
  intros Ht Hp. revert template Ht.
  fix IH 1. intros template Ht out.
  destruct template as [| c rest]; [intros [= <-]; constructor |].
  assert (Hrest : all_lower (Py.chars rest)) by now inversion Ht.
  assert (Hc0 : Py.lower_char c = c) by now inversion Ht.
  assert (Hplain : match format rest params with
                   | inl out => inl (String c out)
                   | inr e => inr e
                   end = (inl out : result string) ->
                   all_lower (Py.chars out)).
  { destruct (format rest params) as [out' |] eqn:Hf; [| discriminate].
    intros [= <-]. constructor; [exact Hc0 | exact (IH rest Hrest out' Hf)]. }
  destruct (Ascii.eqb_spec c "{"%char) as [-> | Hc].
  - destruct rest as [| d [| c2 rest2]]; try exact Hplain.
    destruct (Ascii.eqb_spec c2 "}"%char) as [-> | Hc2].
    + simpl. destruct (digit d) as [i |]; [| discriminate].
      assert (Hrest2 : all_lower (Py.chars rest2)).
      { inversion Hrest as [| ? ? _ Hr1]. now inversion Hr1. }
      destruct (nth_error params i) as [p |] eqn:Hn; [| discriminate].
      destruct (format rest2 params) as [out' |] eqn:Hf; [| discriminate].
      intros [= <-]. rewrite chars_app. apply Forall_app. split.
      * rewrite Forall_forall in Hp. apply Hp.
        apply list_elem_of_In. eapply nth_error_In. exact Hn.
      * exact (IH rest2 Hrest2 out' Hf).
    + destruct c2 as [[] [] [] [] [] [] [] []]; try exact Hplain.
      contradiction.
  - destruct c as [[] [] [] [] [] [] [] []]; try exact Hplain.
    contradiction.
Qed.

(** ** [split] *)

Lemma split_go_infix l :
  forall cur word,
    In word (Py.split_go cur l) -> infix_of word (rev cur ++ l).
Proof.
  induction l as [| c l IH]; intros cur word Hin; simpl in Hin.
  - destruct cur; [destruct Hin |].
    destruct Hin as [<- | []]. exists [], []. now rewrite !app_nil_r.
  - destruct (Py.isspace c).
    + destruct cur as [| c0 cur].
      * apply infix_of_cons. apply (IH [] word Hin).
      * destruct Hin as [<- | Hin].
        -- exists [], (c :: l). reflexivity.
        -- destruct (IH [] word Hin) as (pre & post & Heq). simpl in Heq.
           exists (rev (c0 :: cur) ++ c :: pre), post.
           rewrite Heq, <- !app_assoc. reflexivity.
    + specialize (IH (c :: cur) word Hin). simpl in IH.
      now rewrite <- app_assoc in IH.
Qed.

Lemma split_infix nl word :
  In word (Py.split nl) -> infix_of (Py.chars word) (Py.chars nl).
Proof.
  unfold Py.split. rewrite in_map_iff. intros (w & <- & Hin).
  rewrite chars_str. exact (split_go_infix _ [] w Hin).
Qed.

(** ** The pattern table *)

(** the (pattern, template) pairs of the table in declaration order *)
Definition rules (table : Py.dict (list pattern_dict))
    : list (string * string) :=
  flat_map
    (fun entry =>
       flat_map (fun d => map (fun p => (p, command d)) (patterns d))
                (snd entry))
    table.

Fixpoint first_rule (nl_input : string) (rs : list (string * string))
    : option (result string) :=
  match rs with
  | [] => None
  | (pattern, template) :: rs' =>
      match Re.search pattern nl_input with
      | Some params => Some (format template params)
      | None => first_rule nl_input rs'
      end
  end.

Lemma first_rule_app nl rs1 rs2 :
  first_rule nl (rs1 ++ rs2)
  = match first_rule nl rs1 with
    | Some r => Some r
    | None => first_rule nl rs2
    end.
Proof.
  induction rs1 as [| [p t] rs1 IH]; [reflexivity |]. simpl.
  destruct (Re.search p nl); [reflexivity | exact IH].
Qed.

Lemma try_patterns_rules nl template ps :
  try_patterns nl template ps
  = first_rule nl (map (fun p => (p, template)) ps).
Proof.
  induction ps as [| p ps IH]; [reflexivity |]. simpl.
  destruct (Re.search p nl); [reflexivity | exact IH].
Qed.

Lemma try_pattern_dicts_rules nl l :
  try_pattern_dicts nl l
  = first_rule nl
      (flat_map (fun d => map (fun p => (p, command d)) (patterns d)) l).
Proof.
  induction l as [| d l IH]; [reflexivity |]. simpl.
  rewrite first_rule_app, try_patterns_rules, IH. reflexivity.
Qed.

Lemma try_categories_rules nl table :
  try_categories nl table = first_rule nl (rules table).
Proof.
  induction table as [| [category l] table IH]; [reflexivity |].
  simpl. unfold rules in *. simpl.
  rewrite first_rule_app, try_pattern_dicts_rules, IH. reflexivity.
Qed.

(** the rule that fires is the first one, in list order, whose pattern is
    found in the phrase *)
Lemma first_rule_Some nl rs res :
  first_rule nl rs = Some res ->
  exists before pattern template after params,
    rs = before ++ (pattern, template) :: after
    /\ Forall (fun rule => Re.search (fst rule) nl = None) before
    /\ Re.search pattern nl = Some params
    /\ res = format template params.
Proof.
  induction rs as [| [p t] rs IH]; [discriminate |]. simpl.
  destruct (Re.search p nl) as [params |] eqn:Hs.
  - intros [= <-]. exists [], p, t, rs, params. auto.
  - intros Hf.
    destruct (IH Hf) as (before & p' & t' & after & params & -> & Hb & Hp & ->).
    exists ((p, t) :: before), p', t', after, params.
    split; [reflexivity |]. split; [constructor; assumption | auto].
Qed.

Lemma first_rule_None nl rs :
  first_rule nl rs = None ->
  Forall (fun rule => Re.search (fst rule) nl = None) rs.
Proof.
  induction rs as [| [p t] rs IH]; [constructor |]. simpl.
  destruct (Re.search p nl) eqn:Hs; [discriminate |].
  intros Hf. constructor; auto.
Qed.

(** a rule is sound when its pattern is in the fragment and flat, its
    template asks for no group the pattern lacks, and the template is in
    lower case *)
Definition rule_ok (rule : string * string) : bool :=
  match Re.compile (fst rule) with
  | Some r => flat r && fields_below (ngroups r) (snd rule)
              && is_lower (snd rule)
  | None => false
  end.

Lemma table_rules_ok : forallb rule_ok (rules command_patterns) = true.
Proof. vm_compute. reflexivity. Qed.

(** a rule that fires fills a lower-case template with pieces of the
    phrase *)
Lemma rule_fires nl pattern template params :
  rule_ok (pattern, template) = true ->
  Re.search pattern nl = Some params ->
  exists cmd,
    format template params = inl cmd
    /\ is_lower template = true
    /\ Forall (fun p => infix_of (Py.chars p) (Py.chars nl)) params.
Proof.
  unfold rule_ok. simpl. intros Hok Hs.
  apply search_inv in Hs as (r & Hc & Hin & Hlen). rewrite Hc in Hok.
  apply andb_prop in Hok as [Hok Hlow]. apply andb_prop in Hok as [Hflat Hf].
  rewrite <- (Hlen Hflat) in Hf.
  destruct (format_total template params Hf) as [cmd Hcmd].
  exists cmd. auto.
Qed.

(** the [command] entries of the pattern table, in declaration order *)
Definition table_templates : list string :=
  map snd (rules command_patterns).

Lemma table_fires nl res :
  first_rule nl (rules command_patterns) = Some res ->
  exists template params cmd,
    res = inl cmd
    /\ In template table_templates
    /\ format template params = inl cmd
    /\ Forall (fun p => infix_of (Py.chars p) (Py.chars nl)) params.
Proof.
  intros Hf.
  apply first_rule_Some in Hf
    as (before & p & t & after & params & Heq & _ & Hs & ->).
  pose proof table_rules_ok as Hok. rewrite forallb_forall in Hok.
  assert (Hin : In (p, t) (rules command_patterns)).
  { rewrite Heq. apply in_or_app. right. left. reflexivity. }
  destruct (rule_fires nl p t params (Hok _ Hin) Hs)
    as (cmd & Hcmd & _ & Hpieces).
  exists t, params, cmd. split; [exact Hcmd |]. split; [| auto].
  unfold table_templates. apply in_map_iff. exists (p, t). auto.
Qed.

(** ** The multi-step synthesizer and the keyword fallback *)

Definition multi_step_patterns : list string :=
  [ create_and_move_re; copy_by_extension_re; delete_all_in_dir_re;
    find_and_delete_re ].

(** the four f-strings of [_handle_complex_commands], each captured
    group written as the replacement field of its index *)
Definition multi_step_templates : list string :=
  [ "mkdir {0} && mv {1} {0}/";
    "cp *{0} {1}/";
    "rm {0}/*";
    "find . -name " +:+ dq +:+ "{0}" +:+ dq +:+ " -delete" ].

(** the f-strings and the constants of [_interpret_by_keywords], the
    word taken from the phrase written as the field [{0}] *)
Definition keyword_templates : list string :=
  [ "touch {0}"; "touch newfile.txt"; "mkdir {0}"; "mkdir newfolder";
    "cd {0}"; "ls"; "rm {0}" ].

(** every command line the stages write is in lower case *)
Lemma templates_lower :
  forallb is_lower
    (multi_step_templates ++ table_templates ++ keyword_templates) = true.
Proof. vm_compute. reflexivity. Qed.

(** a command line that is one of [templates], its fields filled with
    operands that are contiguous pieces of the text [nl] the stage
    matched *)
Definition built_from (templates : list string) (nl : string)
    (cmd : string) : Prop :=
  exists template operands,
    In template templates
    /\ format template operands = inl cmd
    /\ Forall (fun p => infix_of (Py.chars p) (Py.chars nl)) operands.

Lemma built_from_lower templates nl cmd :
  forallb is_lower templates = true ->
  built_from templates (Py.lower nl) cmd -> Py.lower cmd = cmd.
Proof.
  intros Hall (template & operands & Ht & Hf & Hin).
  rewrite forallb_forall in Hall.
  apply all_lower_fixed.
  apply (format_lower template operands);
    [apply is_lower_all_lower, Hall, Ht | | exact Hf].
  eapply Forall_impl; [exact Hin |].
  intros p Hp. eapply all_lower_infix; [exact Hp | apply lower_all_lower].
Qed.

Definition has_arity (n : nat) (pattern : string) : bool :=
  match Re.compile pattern with
  | Some r => flat r && (ngroups r =? n)%nat
  | None => false
  end.

Lemma search_arity n pattern nl g :
  has_arity n pattern = true ->
  Re.search pattern nl = Some g ->
  length g = n /\ Forall (fun p => infix_of (Py.chars p) (Py.chars nl)) g.
Proof.
  unfold has_arity. intros Ha Hs.
  apply search_inv in Hs as (r & Hc & Hin & Hlen). rewrite Hc in Ha.
  apply andb_prop in Ha as [Hflat Hn]. apply Nat.eqb_eq in Hn.
  split; [rewrite Hlen; auto | exact Hin].
Qed.

Lemma search_two pattern nl g :
  has_arity 2 pattern = true ->
  Re.search pattern nl = Some g ->
  exists a b, g = [a; b]
    /\ Forall (fun p => infix_of (Py.chars p) (Py.chars nl)) [a; b].
Proof.
  intros Ha Hs. destruct (search_arity 2 pattern nl g Ha Hs) as [Hlen Hin].
  destruct g as [| a [| b [| c g]]]; try discriminate. eauto.
Qed.

Lemma search_one pattern nl g :
  has_arity 1 pattern = true ->
  Re.search pattern nl = Some g ->
  exists a, g = [a]
    /\ Forall (fun p => infix_of (Py.chars p) (Py.chars nl)) [a].
Proof.
  intros Ha Hs. destruct (search_arity 1 pattern nl g Ha Hs) as [Hlen Hin].
  destruct g as [| a [| b g]]; try discriminate. eauto.
Qed.

(** membership in a list that is written out *)
Local Ltac listed := repeat first [left; reflexivity | right].

(** the synthesizer either answers with a command that is not empty, or
    none of its four patterns is found *)
Lemma handle_complex_cases nl :
  (exists c,
     _handle_complex_commands nl = inl (Some c)
     /\ truthy (Some c) = true
     /\ built_from multi_step_templates nl c)
  \/ (_handle_complex_commands nl = inl None
      /\ Forall (fun p => Re.search p nl = None) multi_step_patterns).
Proof.
  unfold _handle_complex_commands.
  destruct (Re.search create_and_move_re nl) as [g |] eqn:H1.
  { left. apply search_two in H1 as (a & b & -> & Hin); [| reflexivity].
    eexists. split; [reflexivity |]. split; [reflexivity |].
    exists "mkdir {0} && mv {1} {0}/", [a; b].
    split; [listed | split; [reflexivity | exact Hin]]. }
  destruct (Re.search copy_by_extension_re nl) as [g |] eqn:H2.
  { left. apply search_two in H2 as (a & b & -> & Hin); [| reflexivity].
    eexists. split; [reflexivity |]. split; [reflexivity |].
    exists "cp *{0} {1}/", [a; b].
    split; [listed | split; [reflexivity | exact Hin]]. }
  destruct (Re.search delete_all_in_dir_re nl) as [g |] eqn:H3.
  { left. apply search_one in H3 as (a & -> & Hin); [| reflexivity].
    eexists. split; [reflexivity |]. split; [reflexivity |].
    exists "rm {0}/*", [a].
    split; [listed | split; [reflexivity | exact Hin]]. }
  destruct (Re.search find_and_delete_re nl) as [g |] eqn:H4.
  { left. apply search_one in H4 as (a & -> & Hin); [| reflexivity].
    eexists. split; [reflexivity |]. split; [reflexivity |].
    exists ("find . -name " +:+ dq +:+ "{0}" +:+ dq +:+ " -delete"), [a].
    split; [listed | split; [reflexivity | exact Hin]]. }
  right. split; [reflexivity |]. repeat constructor; assumption.
Qed.

Lemma word_after_in nouns keywords name :
  word_after nouns keywords = Some name -> In name keywords.
Proof.
  induction keywords as [| word [| next rest] IH]; try discriminate.
  simpl. destruct (Py.mem word nouns).
  - intros [= <-]. right. left. reflexivity.
  - intros Hw. right. apply IH. exact Hw.
Qed.

Lemma built_from_word templates nl (prefix : string) word :
  In (prefix +:+ "{0}") templates ->
  format (prefix +:+ "{0}") [word] = inl (prefix +:+ word +:+ "") ->
  In word (Py.split nl) ->
  built_from templates nl (prefix +:+ word).
Proof.
  intros Ht Hf Hin. exists (prefix +:+ "{0}"), [word].
  rewrite append_empty in Hf.
  split; [exact Ht |]. split; [exact Hf |].
  constructor; [now apply split_infix | constructor].
Qed.

Lemma built_from_constant templates nl cmd :
  In cmd templates -> format cmd [] = inl cmd -> built_from templates nl cmd.
Proof. intros Ht Hf. exists cmd, []. auto. Qed.

(** the fallback, when it answers, answers with a command that is not
    empty *)
Lemma keywords_cases nl k :
  _interpret_by_keywords nl = Some k ->
  truthy (Some k) = true /\ built_from keyword_templates nl k.
Proof.
  unfold _interpret_by_keywords.
  destruct (any_in ["create"; "make"; "new"] (Py.split nl)
            && any_in ["file"] (Py.split nl)).
  { destruct (word_after ["file"] (Py.split nl)) as [name |] eqn:Hw;
      intros [= <-]; (split; [reflexivity |]).
    - apply word_after_in in Hw.
      apply (built_from_word keyword_templates nl "touch ");
        [listed | reflexivity | assumption].
    - apply built_from_constant; [listed | reflexivity]. }
  destruct (any_in ["create"; "make"; "new"] (Py.split nl)
            && any_in ["folder"; "directory"; "dir"] (Py.split nl)).
  { destruct (word_after ["folder"; "directory"; "dir"] (Py.split nl))
      as [name |] eqn:Hw; intros [= <-]; (split; [reflexivity |]).
    - apply word_after_in in Hw.
      apply (built_from_word keyword_templates nl "mkdir ");
        [listed | reflexivity | assumption].
    - apply built_from_constant; [listed | reflexivity]. }
  destruct (if any_in ["go"; "navigate"; "change"] (Py.split nl)
               && any_in ["directory"; "folder"; "to"] (Py.split nl)
            then word_after ["to"] (Py.split nl) else None)
    as [name |] eqn:Hnav.
  { intros [= <-]. split; [reflexivity |].
    destruct (any_in ["go"; "navigate"; "change"] (Py.split nl)
              && any_in ["directory"; "folder"; "to"] (Py.split nl));
      [| discriminate].
    apply word_after_in in Hnav.
    apply (built_from_word keyword_templates nl "cd ");
      [listed | reflexivity | assumption]. }
  destruct (any_in ["list"; "show"] (Py.split nl)
            && any_in ["files"; "contents"] (Py.split nl)).
  { intros [= <-]. split; [reflexivity |].
    apply built_from_constant; [listed | reflexivity]. }
  destruct (any_in ["delete"; "remove"; "rm"] (Py.split nl));
    [| discriminate].
  destruct (find _ (Py.split nl)) as [word |] eqn:Hfind; [| discriminate].
  intros [= <-]. split; [reflexivity |].
  apply find_some in Hfind as [Hin _].
  apply (built_from_word keyword_templates nl "rm ");
    [listed | reflexivity | assumption].
Qed.

(** ** [interpret_command] *)

Definition table_note (phrase cmd : string) : string :=
  "AI interpreted '" +:+ phrase +:+ "' as '" +:+ cmd +:+ "'".

Lemma table_note_not_passthrough phrase cmd :
  table_note phrase cmd <> passthrough_note.
Proof. intros Heq. inversion Heq. Qed.

(** the four outcomes of [interpret_command], in the order it tries the
    stages *)
Inductive outcome (phrase : string) : string -> string -> Prop :=
| by_multi_step c :
    _handle_complex_commands (Py.lower (Py.strip phrase)) = inl (Some c) ->
    outcome phrase c multi_step_note
| by_table before pattern template after params cmd :
    Forall (fun p => Re.search p (Py.lower (Py.strip phrase)) = None)
           multi_step_patterns ->
    rules command_patterns = before ++ (pattern, template) :: after ->
    Forall (fun rule =>
              Re.search (fst rule) (Py.lower (Py.strip phrase)) = None)
           before ->
    Re.search pattern (Py.lower (Py.strip phrase)) = Some params ->
    format template params = inl cmd ->
    outcome phrase cmd (table_note phrase cmd)
| by_keywords k :
    Forall (fun p => Re.search p (Py.lower (Py.strip phrase)) = None)
           multi_step_patterns ->
    Forall (fun rule =>
              Re.search (fst rule) (Py.lower (Py.strip phrase)) = None)
           (rules command_patterns) ->
    _interpret_by_keywords (Py.lower (Py.strip phrase)) = Some k ->
    outcome phrase k keyword_note
| by_passthrough :
    Forall (fun p => Re.search p (Py.lower (Py.strip phrase)) = None)
           multi_step_patterns ->
    Forall (fun rule =>
              Re.search (fst rule) (Py.lower (Py.strip phrase)) = None)
           (rules command_patterns) ->
    _interpret_by_keywords (Py.lower (Py.strip phrase)) = None ->
    outcome phrase phrase passthrough_note.

(** what the stage that answered wrote: its note, and a command line
    built from its own templates; the passthrough returns the phrase *)
Definition written_by_stage (phrase cmd note : string) : Prop :=
  (note = multi_step_note
   /\ built_from multi_step_templates (Py.lower (Py.strip phrase)) cmd)
  \/ (note = table_note phrase cmd
      /\ built_from table_templates (Py.lower (Py.strip phrase)) cmd)
  \/ (note = keyword_note
      /\ built_from keyword_templates (Py.lower (Py.strip phrase)) cmd)
  \/ (note = passthrough_note /\ cmd = phrase).

Lemma interpret_command_outcome phrase :
  exists cmd note,
    interpret_command phrase = inl (cmd, note)
    /\ outcome phrase cmd note
    /\ written_by_stage phrase cmd note.
Proof.
  unfold interpret_command, written_by_stage.
  destruct (handle_complex_cases (Py.lower (Py.strip phrase)))
    as [(c & Hc & Ht & Hb) | [Hc Hnone]]; rewrite Hc.
  { rewrite Ht. exists c, multi_step_note.
    split; [reflexivity |]. split; [now constructor | now left]. }
  cbn [truthy]. rewrite try_categories_rules.
  destruct (first_rule (Py.lower (Py.strip phrase)) (rules command_patterns))
    as [res |] eqn:Hrule.
  { destruct (table_fires _ _ Hrule) as (t & ps & cmd & -> & Ht & Hf & Hin).
    apply first_rule_Some in Hrule
      as (before & p' & t' & after & params & Heq & Hb & Hs & Hres).
    exists cmd, (table_note phrase cmd).
    split; [reflexivity |]. split.
    - eapply by_table; eauto.
    - right. left. split; [reflexivity |]. exists t, ps. auto. }
  apply first_rule_None in Hrule.
  destruct (_interpret_by_keywords (Py.lower (Py.strip phrase)))
    as [k |] eqn:Hk.
  { destruct (keywords_cases _ _ Hk) as [Ht Hb]. rewrite Ht.
    exists k, keyword_note.
    split; [reflexivity |]. split; [now constructor |].
    right. right. left. auto. }
  cbn [truthy]. exists phrase, passthrough_note.
  split; [reflexivity |]. split; [now constructor |].
  right. right. right. auto.
Qed.

(** a command line that a stage answered is in lower case *)
Lemma written_by_stage_lower phrase cmd note :
  written_by_stage phrase cmd note ->
  note = passthrough_note \/ Py.lower cmd = cmd.
Proof.
  pose proof templates_lower as Hall.
  rewrite !forallb_app in Hall.
  apply andb_prop in Hall as [Hm Hall]. apply andb_prop in Hall as [Ht Hk].
  intros [[_ Hb] | [[_ Hb] | [[_ Hb] | [Hn _]]]]; [right | right | right | now left].
  - exact (built_from_lower _ (Py.strip phrase) cmd Hm Hb).
  - exact (built_from_lower _ (Py.strip phrase) cmd Ht Hb).
  - exact (built_from_lower _ (Py.strip phrase) cmd Hk Hb).
Qed.

(** C2.  [interpret_command] always answers, and its answer is decided by
    the first stage that succeeds, in the order multi-step synthesizer,
    pattern table (the first rule of the table, in declaration order,
    whose pattern is found), keyword fallback, passthrough.  A phrase in
    which a multi-step pattern is found gets the synthesizer's command,
    whatever the pattern table would have matched. *)
Theorem C2_interpret_stage_order :
  forall phrase : string,
    (exists cmd note,
       interpret_command phrase = inl (cmd, note) /\ outcome phrase cmd note)
    /\ forall pattern,
         In pattern multi_step_patterns ->
         Re.search pattern (Py.lower (Py.strip phrase)) <> None ->
         exists c,
           _handle_complex_commands (Py.lower (Py.strip phrase))
           = inl (Some c)
           /\ interpret_command phrase = inl (c, multi_step_note).
Proof.
  intros phrase.
  destruct (interpret_command_outcome phrase) as (cmd & note & Hi & Ho & _).
  split; [eauto |].
  intros pattern Hin Hfound.
  assert (Hblocked :
    Forall (fun p => Re.search p (Py.lower (Py.strip phrase)) = None)
           multi_step_patterns -> False).
  { intros Hall. rewrite Forall_forall in Hall. apply Hfound, Hall.
    now apply list_elem_of_In. }
  destruct Ho as [c Hc | ? ? ? ? ? ? Hall | ? Hall | Hall];
    try (exfalso; exact (Hblocked Hall)).
  exists c. auto.
Qed.

(** ** Operands *)

Lemma infix_of_trans {A} (g s1 s : list A) :
  infix_of g s1 -> infix_of s1 s -> infix_of g s.
Proof.
  intros (pre & post & ->) (pre' & post' & ->).
  exists (pre' ++ pre), (post ++ post'). now rewrite <- !app_assoc.
Qed.

Lemma infix_of_map_inv {A B} (f : A -> B) (g : list B) (l : list A) :
  infix_of g (map f l) ->
  exists g', g = map f g' /\ infix_of g' l.
Proof.
  intros (pre & post & Heq).
  apply map_eq_app in Heq as (l1 & l2 & -> & _ & Heq).
  apply map_eq_app in Heq as (l3 & l4 & -> & Hg & _).
  exists l3. split; [now symmetry | now exists l1, l4].
Qed.

Lemma lstrip_chars_suffix l : Py.lstrip_chars l `suffix_of` l.
Proof.
  induction l as [| c l IH]; [now exists [] |]. simpl.
  destruct (Py.isspace c); [| now exists []].
  destruct IH as [k Hk]. exists (c :: k). simpl. now rewrite <- Hk.
Qed.

(** [s.strip()] is a contiguous piece of [s] *)
Lemma strip_infix s : infix_of (Py.chars (Py.strip s)) (Py.chars s).
Proof.
  unfold Py.strip, Py.strip_chars. rewrite chars_str.
  destruct (lstrip_chars_suffix (Py.chars s)) as [k1 H1].
  destruct (lstrip_chars_suffix (rev (Py.lstrip_chars (Py.chars s))))
    as [k2 H2].
  exists k1, (rev k2).
  rewrite <- rev_app_distr, <- H2, rev_involutive. exact H1.
Qed.

(** [p] is the lower-case form of a contiguous piece of the phrase as
    the user typed it, a piece that lies inside the stripped phrase *)
Definition lowered_piece (phrase p : string) : Prop :=
  exists piece,
    infix_of (Py.chars piece) (Py.chars phrase)
    /\ infix_of (Py.chars piece) (Py.chars (Py.strip phrase))
    /\ p = Py.lower piece.

Lemma lowered_piece_intro phrase p :
  infix_of (Py.chars p) (Py.chars (Py.lower (Py.strip phrase))) ->
  lowered_piece phrase p.
Proof.
  unfold Py.lower at 1. rewrite chars_str.
  intros (g & Hg & Hin)%infix_of_map_inv.
  exists (Py.str g). rewrite chars_str.
  split; [exact (infix_of_trans _ _ _ Hin (strip_infix phrase)) |].
  split; [exact Hin |].
  unfold Py.lower. rewrite chars_str, <- Hg. symmetry. apply str_chars.
Qed.

(** a command line that is one of [templates], every operand of which
    is the lower-case form of a piece of the phrase *)
Definition filled_from (templates : list string) (phrase cmd : string)
    : Prop :=
  exists template operands,
    In template templates
    /\ format template operands = inl cmd
    /\ Forall (lowered_piece phrase) operands.

Lemma built_from_filled templates phrase cmd :
  built_from templates (Py.lower (Py.strip phrase)) cmd ->
  filled_from templates phrase cmd.
Proof.
  intros (template & operands & Ht & Hf & Hin).
  exists template, operands. split; [exact Ht |]. split; [exact Hf |].
  eapply Forall_impl; [exact Hin |].
  intros p Hp. now apply lowered_piece_intro.
Qed.

(** the capital letters A to Z *)
Definition is_capital (c : ascii) : bool :=
  let n := Py.code c in ((65 <=? n) && (n <=? 90))%N.

Lemma lower_char_not_capital c : is_capital (Py.lower_char c) = false.
Proof. destruct c as [[] [] [] [] [] [] [] []]; reflexivity. Qed.

Lemma lower_fixed_no_capital s :
  Py.lower s = s -> Forall (fun c => is_capital c = false) (Py.chars s).
Proof.
  intros <-. unfold Py.lower. rewrite chars_str.
  apply Forall_map, Forall_forall. intros c _. apply lower_char_not_capital.
Qed.

(** C10.  The stages work on the phrase stripped and put in lower case.
    When the synthesizer, the pattern table or the keyword fallback
    answers, the command line is one of that stage's own templates, and
    every operand that fills it is the lower-case form of a contiguous
    piece of the phrase the user typed, taken inside the stripped
    phrase; the command line is in lower case and holds no capital
    letter.  When no stage answers, the phrase is returned as it was
    typed.  A phrase naming [Test.TXT] between blanks yields
    [touch test.txt]; the synthesizer and the keyword fallback lower
    their operands as well; a phrase without interpretation keeps its
    capitals and its blanks. *)
Theorem C10_operands_are_lower_case :
  (forall phrase : string,
     exists cmd note,
       interpret_command phrase = inl (cmd, note)
       /\ ((note = passthrough_note /\ cmd = phrase)
           \/ (note <> passthrough_note
               /\ ((note = multi_step_note
                    /\ filled_from multi_step_templates phrase cmd)
                   \/ (note = table_note phrase cmd
                       /\ filled_from table_templates phrase cmd)
                   \/ (note = keyword_note
                       /\ filled_from keyword_templates phrase cmd))
               /\ Py.lower cmd = cmd
               /\ Forall (fun c => is_capital c = false) (Py.chars cmd))))
  /\ interpret_command "  Create a file named Test.TXT "
     = inl ("touch test.txt",
            table_note "  Create a file named Test.TXT " "touch test.txt")
  /\ interpret_command "Delete ALL files in Temp"
     = inl ("rm temp/*", multi_step_note)
  /\ interpret_command "change to Music now"
     = inl ("cd music", keyword_note)
  /\ interpret_command "  Hello World "
     = inl ("  Hello World ", passthrough_note).
Proof.
  split; [| vm_compute; repeat split; reflexivity].
  intros phrase.
  destruct (interpret_command_outcome phrase) as (cmd & note & Hi & _ & Hw).
  exists cmd, note. split; [exact Hi |].
  destruct (written_by_stage_lower phrase cmd note Hw) as [Hn | Hlow].
  - left. split; [exact Hn |].
    destruct Hw as [[-> _] | [[-> _] | [[-> _] | [_ Hc]]]];
      [discriminate
      | exfalso; exact (table_note_not_passthrough _ _ Hn)
      | discriminate
      | exact Hc].
  - destruct Hw as [[Hn Hb] | [[Hn Hb] | [[Hn Hb] | [Hn Hc]]]].
    + right. split; [rewrite Hn; discriminate |].
      split; [left; split; [exact Hn | now apply built_from_filled] |].
      split; [exact Hlow | now apply lower_fixed_no_capital].
    + right. split; [rewrite Hn; apply table_note_not_passthrough |].
      split; [right; left; split; [exact Hn | now apply built_from_filled] |].
      split; [exact Hlow | now apply lower_fixed_no_capital].
    + right. split; [rewrite Hn; discriminate |].
      split; [right; right; split; [exact Hn | now apply built_from_filled] |].
      split; [exact Hlow | now apply lower_fixed_no_capital].
    + left. auto.
Qed.

(** a file name typed with capitals comes out in lower case *)
Example interpret_mixed_case_file_name :
  interpret_command "create a file named Test.TXT"
  = inl ("touch test.txt",
         "AI interpreted 'create a file named Test.TXT' as 'touch test.txt'").
Proof. vm_compute. reflexivity. Qed.

(** a phrase without interpretation keeps its capitals and its blanks *)
Example interpret_passthrough_keeps_case :
  interpret_command "  Hello World "
  = inl ("  Hello World ", passthrough_note).
Proof. vm_compute. reflexivity. Qed.

(** a phrase that both the synthesizer and the pattern table match *)
Example interpret_prefers_multi_step :
  interpret_command "copy all .py files to backup"
  = inl ("cp *.py backup/", multi_step_note)
  /\ first_rule "copy all .py files to backup" (rules command_patterns)
     = Some (inl "cp all backup").
Proof. vm_compute. split; reflexivity. Qed.

End AIFacts.

(** * The properties on the small world *)

#[local] Existing Instance Toy.toy_os.

Definition newline : string := String "010" "".

(** ** The world's [os.remove] keeps directories *)

Lemma existsb_filter_keeps {A} (f g : A -> bool) (l : list A) :
  (forall x, f x = true -> g x = true) ->
  existsb f l = true -> existsb f (List.filter g l) = true.
Proof.
  intros Hfg. induction l as [| x l IH]; simpl; [auto |].
  destruct (f x) eqn:Hf; simpl.
  - intros _. rewrite (Hfg x Hf). simpl. rewrite Hf. reflexivity.
  - intros Hl. destruct (g x); simpl; [rewrite Hf |]; auto.
Qed.

Lemma toy_remove_keeps_directories (w : Toy.World) (p q : string) :
  os_isdir w p = false ->
  os_isdir w q = true ->
  os_isdir (snd (os_remove p w)) q = true.
Proof.
  simpl. unfold Toy.remove. intros Hp Hq. rewrite Hp.
  destruct (Toy.isfile w p); [| destruct (Toy.exists_ w p); exact Hq].
  simpl. unfold Toy.isdir in *. simpl.
  apply existsb_filter_keeps; [| exact Hq].
  intros [name d] Hn. simpl in *.
  apply andb_prop in Hn as [_ ->]. now rewrite andb_false_r.
Qed.

(** ** History (C1) *)

Definition three_lines : list string :=
  ["alias ll='ls -l'"; "bad 'quote"; "rmdir a" +:+ String "000" "b"].

Lemma C1_witness :
  (length (command_history
             (fst (execute_all three_lines (Toy.s0, Toy.w0)))) <= 1000)%nat
  /\ last (command_history
             (fst (snd (execute_command "ll"
                          (execute_all three_lines (Toy.s0, Toy.w0))))))
     = Some "ll".
Proof.
  destruct (C1_history_bounded_latest_last three_lines (Toy.s0, Toy.w0))
    as [Hbound Hlast]; [simpl; lia |].
  split; [exact Hbound |].
  exact (proj1 (proj2 (Hlast "ll" eq_refl))).
Defined.

(** a line the tokenizer rejects and a line whose builtin raises are in
    the history all the same *)
Example history_keeps_failed_lines :
  command_history (fst (execute_all three_lines (Toy.s0, Toy.w0)))
  = three_lines
  /\ fst (execute_command "bad 'quote" (Toy.s0, Toy.w0))
     = inl ("Command parsing error: No closing quotation", 1%Z)
  /\ fst (execute_command ("rmdir a" +:+ String "000" "b") (Toy.s0, Toy.w0))
     = inl ("Error executing rmdir: embedded null byte", 1%Z)
  /\ execute_command "   " (Toy.s0, Toy.w0) = (inl ("", 0%Z), (Toy.s0, Toy.w0)).
Proof. vm_compute. repeat split; reflexivity. Qed.

(** ** Builtins at the engine boundary (C3) *)

Lemma C3_witness :
  execute_command "cd /nope" (Toy.s0, Toy.w0)
  = (inl ("Directory not found: /nope", 0%Z),
     (append_history "cd /nope" Toy.s0, Toy.w0))
  /\ fst (execute_command "set =x" (Toy.s0, Toy.w0))
     = inl ("Error executing set: [Errno 22] Invalid argument", 1%Z).
Proof.
  split.
  - apply (C3_builtin_fault_boundary "cd /nope" (Toy.s0, Toy.w0) "cd"
             ["/nope"] cmd_cd_h (inl "Directory not found: /nope"));
      reflexivity.
  - rewrite (C3_builtin_fault_boundary "set =x" (Toy.s0, Toy.w0) "set"
               ["=x"] cmd_set_h
               (inr (OtherException "[Errno 22] Invalid argument"))
               (snd (run_handler cmd_set_h ["=x"]
                       (append_history "set =x" Toy.s0, Toy.w0))));
      reflexivity.
Defined.

(** ** The external executor (C4) *)

Lemma C4_witness :
  fst (execute_external_command "frobnicate" ["x"] (Toy.s0, Toy.w0))
  = inl ("Command not found: frobnicate", 127%Z)
  /\ fst (execute_external_command "sleep" ["100"] (Toy.s0, Toy.w0))
     = inl ("Command timed out after 30 seconds", 1%Z)
  /\ fst (execute_external_command "warn" ["x"] (Toy.s0, Toy.w0))
     = inl ("out:xerr:x", 2%Z).
Proof.
  split; [| split].
  - refine (proj1 (C4_external_command_results "frobnicate" ["x"]
                     (Toy.s0, Toy.w0)
                     (inr (FileNotFoundError
                             "[Errno 2] No such file or directory: 'frobnicate'"))
                     Toy.w0 _) _ eq_refl).
    vm_compute. reflexivity.
  - refine (proj1 (proj2 (C4_external_command_results "sleep" ["100"]
                            (Toy.s0, Toy.w0)
                            (inr (TimeoutExpired
                                    "Command timed out after 30 seconds"))
                            Toy.w0 _)) _ eq_refl).
    vm_compute. reflexivity.
  - refine (proj2 (proj2 (C4_external_command_results "warn" ["x"]
                            (Toy.s0, Toy.w0)
                            (inl {| stdout := "out:x"; stderr := "err:x";
                                    returncode := 2 |})
                            Toy.w0 _)) _ eq_refl).
    vm_compute. reflexivity.
Defined.

(** ** [cd] (C5, C6) *)


Definition w0_in_tmp : Toy.World :=
  {| Toy.cwd := "/tmp"; Toy.nodes := Toy.nodes Toy.w0;
     Toy.locked := Toy.locked Toy.w0; Toy.environ := Toy.environ Toy.w0 |}.

Lemma C6_witness :
  cmd_cd ["/tmp"] (Toy.s0, Toy.w0)
  = (inl "Changed directory to: /tmp",
     (with_current_directory "/tmp" Toy.s0, w0_in_tmp))
  /\ os_chdir "/tmp" Toy.w0 = (inl tt, w0_in_tmp).
Proof.
  pose proof (fun Hcd =>
                proj2 (proj1 (C6_cd_sets_session_and_process_directory
                                ["/tmp"] Toy.s0
                                (with_current_directory "/tmp" Toy.s0)
                                Toy.w0 w0_in_tmp Hcd))) as Hw.
  vm_compute in Hw. vm_compute. split; [reflexivity |].
  apply Hw. reflexivity.
Defined.

(** two sessions of the web front end, both created, both in [/] *)
Definition two_sessions : gmap string Session * Toy.World :=
  snd (route_execute "b" "pwd" (snd (route_execute "a" "pwd" (∅, Toy.w0)))).

Definition after_cd_of_a : gmap string Session * Toy.World :=
  snd (route_execute "a" "cd /tmp" two_sessions).

(** C6, as the specification words it, fails.  Session [a] changes
    directory with success.  The process has moved with it, so session
    [b], which ran nothing in between, gets another answer to the same
    request ([~old] names no user, so it is resolved against the process's
    directory), and a session created afterwards starts in [a]'s
    directory. *)
Lemma C6_counterexample :
  fst (route_execute "a" "cd /tmp" two_sessions)
  = ("Changed directory to: /tmp", 0%Z)
  /\ os_getcwd (snd two_sessions) = "/"
  /\ os_getcwd (snd after_cd_of_a) = "/tmp"
  /\ fst (route_execute "b" "cd ~old" two_sessions)
     = ("Directory not found: /~old", 0%Z)
  /\ fst (route_execute "b" "cd ~old" after_cd_of_a)
     = ("Changed directory to: /tmp/~old", 0%Z)
  /\ fst (route_execute "c" "pwd" two_sessions) = ("/", 0%Z)
  /\ fst (route_execute "c" "pwd" after_cd_of_a) = ("/tmp", 0%Z).
Proof. vm_compute. repeat split; reflexivity. Qed.

(** ** [rm] (C7) *)

Lemma C7_witness :
  exists results w',
    cmd_rm ["-f"; "/tmp/notes.txt"; "/tmp"] (Toy.s0, Toy.w0)
    = (inl (Py.join newline results), (Toy.s0, w'))
    /\ In (refusal "/tmp") results
    /\ os_isdir w' (resolve Toy.s0 "/tmp") = true.
Proof.
  apply (C7_rm_refuses_directory_without_recursive_flag
           toy_remove_keeps_directories
           ["-f"; "/tmp/notes.txt"; "/tmp"] Toy.s0 Toy.w0 "/tmp").
  - reflexivity.
  - right. right. left. reflexivity.
  - reflexivity.
  - reflexivity.
Defined.

Example rm_flag_after_operand :
  fst (cmd_rm ["/tmp"; "/tmp/notes.txt"; "-f"] (Toy.s0, Toy.w0))
  = inl ("Cannot remove directory /tmp: use -r flag" +:+ newline
         +:+ "Removed file: /tmp/notes.txt").
Proof. vm_compute. reflexivity. Qed.

(** ** Aliases (C9) *)

Definition with_ll : Session * Toy.World :=
  execute_all ["alias ll='ls -l'"] (Toy.s0, Toy.w0).

Lemma C9_witness :
  Py.dict_get builtin_commands "ls -l" = None
  /\ execute_command "ll -a" with_ll
     = execute_external_command "ls -l" ["-a"]
         (append_history "ll -a" (fst with_ll), snd with_ll).
Proof.
  destruct (C9_alias_value_is_one_command_name "ll -a" with_ll "ll" ["-a"]
              "ls -l" eq_refl eq_refl eq_refl eq_refl) as (Hn & He & _).
  split; [exact Hn | exact He].
Defined.

Example alias_with_blank_is_not_found :
  fst (execute_command "ll -a" with_ll)
  = inl ("Command not found: ls -l", 127%Z).
Proof. vm_compute. reflexivity. Qed.

(** ** [tree] (C8) *)

(** in [/q], whose last entry is visible, the hidden [.git] is left out,
    the listing stops three levels down ([bottom.txt] is not shown), the
    locked directory is marked and the walk goes on, and the last sibling
    of each directory has the corner connector *)
Example tree_of_q :
  fst (cmd_tree ["/q"] (Toy.s0, Toy.w0))
  = inl (Py.join newline
           [ "q";
             "├── src";
             "│   ├── deep";
             "│   │   └── er";
             "│   └── main.py";
             "├── vault";
             "│   └── [Permission Denied]";
             "└── zz.txt" ]).
Proof. vm_compute. reflexivity. Qed.

(** C8, where the code departs from it.  The directory [/p] holds [-a]
    and [.b]; sorted, the hidden entry comes last.  [-a] is the only entry
    drawn, hence the last, and it is drawn with the connector of an
    earlier sibling: [is_last] compares the index with the length of the
    listing before the hidden entries are left out. *)
Theorem C8_tree_last_visible_entry_before_hidden :
  os_listdir Toy.w0 "/p" = inl ["-a"; ".b"]
  /\ Py.sorted ["-a"; ".b"] = ["-a"; ".b"]
  /\ fst (cmd_tree ["/p"] (Toy.s0, Toy.w0))
     = inl (Py.join newline ["p"; mid_connector +:+ "-a"])
  /\ fst (cmd_tree ["/p"] (Toy.s0, Toy.w0))
     <> inl (Py.join newline ["p"; last_connector +:+ "-a"]).
Proof. vm_compute. repeat split; try reflexivity. discriminate. Qed.

(** ** The translator (C2) *)

Lemma C2_witness :
  exists c,
    AI._handle_complex_commands
      (Py.lower (Py.strip "Copy all .py files to Backup"))
    = inl (Some c)
    /\ AI.interpret_command "Copy all .py files to Backup"
       = inl (c, AI.multi_step_note).
Proof.
  apply (proj2 (AIFacts.C2_interpret_stage_order
                  "Copy all .py files to Backup")
           AI.copy_by_extension_re).
  - right. left. reflexivity.
  - vm_compute. discriminate.
Defined.

(** * Further properties of the command engine *)

(** ** Blank lines and text helpers *)

Lemma lstrip_all_space (l : list ascii) :
  Forall (fun c => Py.isspace c = true) l -> Py.lstrip_chars l = [].
Proof.
  induction 1 as [| c l Hc _ IH]; [reflexivity |]. simpl. now rewrite Hc.
Qed.

Lemma lstrip_nil_all_space (l : list ascii) :
  Py.lstrip_chars l = [] -> Forall (fun c => Py.isspace c = true) l.
Proof.
  induction l as [| c l IH]; [constructor |]. simpl.
  destruct (Py.isspace c) eqn:Hc; [| discriminate].
  intros Hl. constructor; auto.
Qed.

Lemma str_nil_inv (l : list ascii) : Py.str l = "" -> l = [].
Proof. destruct l; [reflexivity | discriminate]. Qed.

(** a line is blank exactly when all its characters are white space *)
Lemma is_blank_iff (line : string) :
  is_blank line = true
  <-> Forall (fun c => Py.isspace c = true) (Py.chars line).
Proof.
  unfold is_blank, Py.strip, Py.strip_chars. rewrite String.eqb_eq. split.
  - intros Hs. apply str_nil_inv in Hs.
    assert (Hr : Py.lstrip_chars (rev (Py.lstrip_chars (Py.chars line))) = [])
      by (destruct (Py.lstrip_chars (rev _)); [reflexivity | ];
          simpl in Hs; now apply app_eq_nil in Hs as [_ ?]).
    apply lstrip_nil_all_space in Hr.
    remember (Py.chars line) as l eqn:Hl. clear Hl Hs.
    induction l as [| c l IH]; [constructor |].
    simpl in Hr. destruct (Py.isspace c) eqn:Hc.
    + constructor; auto.
    + exfalso. rewrite Forall_forall in Hr.
      assert (Hin : c ∈ rev (c :: l))
        by (apply list_elem_of_In, in_rev; rewrite rev_involutive; now left).
      apply Hr in Hin. congruence.
  - intros Hall. rewrite (lstrip_all_space _ Hall). reflexivity.
Qed.

Lemma is_blank_starts_visible (c : ascii) (s : string) :
  Py.isspace c = false -> is_blank (String c s) = false.
Proof.
  intros Hc. destruct (is_blank (String c s)) eqn:Hb; [| reflexivity].
  apply is_blank_iff in Hb. inversion Hb; subst. congruence.
Qed.

Section EngineMore.

Context {World : Type} `{OS World}.

(** X1.  No exception leaves [execute_command]: whatever the line, the
    session and the world, it returns an output text and an exit code. *)
Theorem X1_execute_command_catches_everything :
  forall (line : string) (st : Session * World),
    exists out code, fst (execute_command line st) = inl (out, code).
Proof. intros line st. apply execute_command_never_raises. Qed.

(** X2.  A line made of white space only is ignored: the answer is the
    empty text with code 0, nothing is recorded in the history and
    neither the session nor the world changes. *)
Theorem X2_whitespace_line_is_ignored :
  forall (line : string) (st : Session * World),
    Forall (fun c => Py.isspace c = true) (Py.chars line) ->
    execute_command line st = (inl ("", 0%Z), st).
Proof.
  intros line st Hall. apply execute_command_blank.
  now apply is_blank_iff.
Qed.

(** the tokenizer fails in two ways only *)
Lemma tokens_errors (l : list ascii) :
  forall state quoted tok e,
    Shlex.tokens state quoted tok l = inr e ->
    e = ValueError "No closing quotation"
    \/ e = ValueError "No escaped character".
Proof.
  induction l as [| c l IH]; intros state quoted tok e; simpl.
  - destruct state; intros [= <-]; auto.
  - destruct state as [| | q | es].
    + repeat match goal with
             | |- context [if ?b then _ else _] => destruct b
             end; apply IH.
    + destruct (Shlex.is_whitespace c).
      * destruct (Shlex.tokens Shlex.InWhitespace false [] l) eqn:Ht;
          [discriminate |].
        intros [= <-]. eapply IH. exact Ht.
      * repeat match goal with
               | |- context [if ?b then _ else _] => destruct b
               end; apply IH.
    + repeat match goal with
             | |- context [if ?b then _ else _] => destruct b
             end; apply IH.
    + apply IH.
Qed.

(** X3.  When the tokenizer rejects a line, the command is not run: the
    answer is [Command parsing error:] with one of the tokenizer's two
    messages (a quotation left open, a backslash at the end) and code 1;
    the line is in the history and nothing else has changed. *)
Theorem X3_parse_error_is_reported_and_recorded :
  forall (line : string) (st : Session * World) (e : exn),
    is_blank line = false ->
    Shlex.split line = inr e ->
    execute_command line st
    = (inl ("Command parsing error: " +:+ exn_str e, 1%Z),
       (append_history line (fst st), snd st))
    /\ (exn_str e = "No closing quotation"
        \/ exn_str e = "No escaped character").
Proof.
  intros line st e Hb Hs. split.
  - unfold execute_command. rewrite Hb, Hs. reflexivity.
  - apply tokens_errors in Hs as [-> | ->]; auto.
Qed.

End EngineMore.

(** *** Plain words through the tokenizer *)

(** a character the tokenizer copies as it is: no white space, no quote,
    no backslash *)
Definition plain_char (c : ascii) : bool :=
  negb (Py.isspace c) && negb (Shlex.is_quote c) && negb (Shlex.is_escape c).

Definition plain_word (w : string) : bool :=
  negb (String.eqb w "") && forallb plain_char (Py.chars w).

Lemma plain_char_inv c :
  plain_char c = true ->
  Py.isspace c = false /\ Shlex.is_whitespace c = false
  /\ Shlex.is_quote c = false /\ Shlex.is_escape c = false.
Proof.
  destruct c as [[] [] [] [] [] [] [] []]; vm_compute; intros Hp;
    try discriminate; repeat split; reflexivity.
Qed.

Lemma tokens_word (w : list ascii) :
  forall quoted tok l,
    forallb plain_char w = true ->
    Shlex.tokens Shlex.InWord quoted tok (w ++ l)
    = Shlex.tokens Shlex.InWord quoted (rev w ++ tok) l.
Proof.
  induction w as [| c w IH]; intros quoted tok l Hw; [reflexivity |].
  simpl in Hw. apply andb_prop in Hw as [Hc Hw].
  destruct (plain_char_inv c Hc) as (_ & Hws & Hq & He).
  simpl. rewrite Hws, Hq, He. rewrite IH by exact Hw.
  now rewrite <- app_assoc.
Qed.

Lemma emit_word quoted (w : list ascii) :
  w <> [] -> Shlex.emit quoted (rev w) = [Py.str w].
Proof.
  intros Hw. unfold Shlex.emit. rewrite rev_involutive.
  destruct (rev w) eqn:Hr; [| reflexivity].
  apply (f_equal (@rev ascii)) in Hr. rewrite rev_involutive in Hr.
  contradiction.
Qed.

Lemma plain_word_inv w :
  plain_word w = true ->
  exists c w', Py.chars w = c :: w' /\ plain_char c = true
               /\ forallb plain_char w' = true.
Proof.
  unfold plain_word. intros [Hne Hall]%andb_prop.
  destruct w as [| c w]; [discriminate |].
  simpl in Hall. apply andb_prop in Hall as [Hc Hw]. eauto.
Qed.

(** plain words joined by single blanks come back from the tokenizer *)
Lemma split_plain_words (words : list string) :
  forallb plain_word words = true ->
  Shlex.split (Py.join " " words) = inl words.
Proof.
  unfold Shlex.split.
  induction words as [| w words IH]; intros Hall; [reflexivity |].
  simpl in Hall. apply andb_prop in Hall as [Hw Hall].
  destruct (plain_word_inv w Hw) as (c & w' & Hchars & Hc & Hw').
  destruct (plain_char_inv c Hc) as (_ & Hws & Hq & He).
  assert (Hstr : Py.str (c :: w') = w)
    by (rewrite <- Hchars; apply AIFacts.str_chars).
  destruct words as [| w2 words].
  - simpl. rewrite Hchars. simpl. rewrite Hws, Hq, He.
    rewrite <- (app_nil_r w'), tokens_word by exact Hw'. simpl.
    change (rev w' ++ [c]) with (rev (c :: w')).
    rewrite (emit_word false (c :: w')) by discriminate.
    now rewrite Hstr.
  - change (Py.join " " (w :: w2 :: words))
      with (w +:+ " " +:+ Py.join " " (w2 :: words)).
    rewrite !AIFacts.chars_app, Hchars. simpl.
    rewrite Hws, Hq, He. rewrite tokens_word by exact Hw'. simpl.
    specialize (IH Hall). simpl in IH. rewrite IH.
    change (rev w' ++ [c]) with (rev (c :: w')).
    rewrite (emit_word false (c :: w')) by discriminate.
    now rewrite Hstr.
Qed.

Section EchoRoundTrip.

Context {World : Type} `{OS World}.

(** X4.  [echo] gives its arguments back: for plain words (no white
    space, quote or backslash), the line [echo w1 ... wn] answers
    [w1 ... wn] with code 0, records the line, and changes nothing else,
    as long as [echo] has not been aliased. *)
Theorem X4_echo_returns_its_words :
  forall (words : list string) (st : Session * World),
    forallb plain_word words = true ->
    Py.dict_get (aliases (fst st)) "echo" = None ->
    execute_command (Py.join " " ("echo" :: words)) st
    = (inl (Py.join " " words, 0%Z),
       (append_history (Py.join " " ("echo" :: words)) (fst st), snd st)).
Proof.
  intros words st Hwords Halias.
  assert (Hb : is_blank (Py.join " " ("echo" :: words)) = false).
  { destruct words; apply is_blank_starts_visible; reflexivity. }
  assert (Hs : Shlex.split (Py.join " " ("echo" :: words))
               = inl ("echo" :: words)).
  { apply split_plain_words. simpl. now rewrite Hwords. }
  rewrite (execute_command_dispatch _ st "echo" words Hb Hs).
  change (resolve_alias (append_history (Py.join " " ("echo" :: words))
                           (fst st)) "echo")
    with (resolve_alias (fst st) "echo").
  unfold resolve_alias. rewrite Halias. reflexivity.
Qed.

End EchoRoundTrip.

Section BuiltinsMore.

Context {World : Type} `{OS World}.

(** ** [cd] *)


(** X6.  The session's working directory is assigned before [os.chdir]
    is called.  When the target is a directory the process may not
    enter, [cd] answers [Permission denied] and the session has moved to
    the target all the same. *)
Theorem X6_cd_denied_still_moves_the_session :
  forall (args : list string) (self : Session) (w w' : World)
         (detail : string),
    os_isdir w (os_abspath w (cd_target self w args)) = true ->
    os_chdir (os_abspath w (cd_target self w args)) w
    = (inr (PermissionError detail), w') ->
    cmd_cd args (self, w)
    = (inl ("Permission denied: " +:+ os_abspath w (cd_target self w args)),
       (with_current_directory (os_abspath w (cd_target self w args)) self,
        w')).
Proof.
  intros args self w w' detail Hdir Hch.
  rewrite cmd_cd_cases, Hdir, Hch. reflexivity.
Qed.

(** ** [alias] and [set] *)

Lemma dict_get_set_eq {V} (d : Py.dict V) k v :
  Py.dict_get (Py.dict_set d k v) k = Some v.
Proof.
  induction d as [| [k' v'] d IH]; simpl.
  - now rewrite String.eqb_refl.
  - destruct (String.eqb k k') eqn:Hk; simpl; rewrite Hk; [reflexivity | exact IH].
Qed.

Lemma dict_get_set_ne {V} (d : Py.dict V) k k2 v :
  k2 <> k -> Py.dict_get (Py.dict_set d k v) k2 = Py.dict_get d k2.
Proof.
  intros Hne. induction d as [| [k' v'] d IH]; simpl.
  - destruct (String.eqb_spec k2 k); [contradiction | reflexivity].
  - destruct (String.eqb_spec k k') as [<- | Hk]; simpl.
    + destruct (String.eqb_spec k2 k); [contradiction | reflexivity].
    + destruct (String.eqb k2 k'); [reflexivity | exact IH].
Qed.

Definition has_equals (s : string) : bool :=
  existsb (Ascii.eqb "="%char) (Py.chars s).

Lemma has_equals_cons c s :
  has_equals (String c s) = Ascii.eqb "="%char c || has_equals s.
Proof. reflexivity. Qed.

Lemma split_once_first name value :
  has_equals name = false ->
  Py.split_once "="%char (name +:+ "=" +:+ value) = Some (name, value).
Proof.
  induction name as [| c name IH]; intros Hn.
  - reflexivity.
  - rewrite has_equals_cons in Hn. apply orb_false_elim in Hn as [Hc Hn].
    change (String c name +:+ "=" +:+ value)
      with (String c (name +:+ "=" +:+ value)).
    cbn [Py.split_once]. rewrite Ascii.eqb_sym, Hc, (IH Hn). reflexivity.
Qed.

Lemma split_once_none arg :
  has_equals arg = false -> Py.split_once "="%char arg = None.
Proof.
  induction arg as [| c arg IH]; intros Hn; [reflexivity |].
  rewrite has_equals_cons in Hn. apply orb_false_elim in Hn as [Hc Hn].
  cbn [Py.split_once]. rewrite Ascii.eqb_sym, Hc, (IH Hn). reflexivity.
Qed.

(** X7.  [alias name=value] splits at the first equals sign and stores
    the stripped value under the stripped name: the alias check then
    resolves that name to that value, every other name resolves as
    before, and nothing but the alias table changes.  An argument without
    an equals sign changes nothing. *)
Theorem X7_alias_defines_then_resolves :
  forall (name value : string) (rest : list string) (self : Session)
         (w : World),
    has_equals name = false ->
    (exists self',
       cmd_alias ((name +:+ "=" +:+ value) :: rest) (self, w)
       = (inl ("Alias created: " +:+ Py.strip name +:+ " = "
               +:+ Py.strip value), (self', w))
       /\ resolve_alias self' (Py.strip name) = Py.strip value
       /\ (forall other, other <> Py.strip name ->
             resolve_alias self' other = resolve_alias self other)
       /\ current_directory self' = current_directory self
       /\ command_history self' = command_history self
       /\ environment_vars self' = environment_vars self)
    /\ cmd_alias (name :: rest) (self, w)
       = (inl "Usage: alias name=command", (self, w)).
Proof.
  intros name value rest self w Hn. split.
  - eexists. unfold cmd_alias, bind, get_self, set_self, ret. cbn [fst snd].
    rewrite (split_once_first name value Hn).
    split; [reflexivity |]. unfold resolve_alias. cbn [aliases with_aliases].
    split; [now rewrite dict_get_set_eq |].
    split; [intros other Hne; now rewrite dict_get_set_ne |].
    repeat split.
  - unfold cmd_alias, bind, get_self, ret. cbn [fst snd].
    now rewrite (split_once_none name Hn).
Qed.

(** X8.  [set VAR=value] writes the session's environment first and the
    process's second.  The session's table holds the new value whether or
    not the process accepts it: when [os.environ] raises, [set] raises
    with the session already changed. *)
Theorem X8_set_writes_session_before_process :
  forall (var value : string) (rest : list string) (self : Session)
         (w w' : World) (r : unit + exn),
    has_equals var = false ->
    os_putenv var value w = (r, w') ->
    exists self',
      cmd_set ((var +:+ "=" +:+ value) :: rest) (self, w)
      = (match r with
         | inl _ => inl ("Set " +:+ var +:+ "=" +:+ value)
         | inr e => inr e
         end, (self', w'))
      /\ Py.dict_get (environment_vars self') var = Some value
      /\ (forall other, other <> var ->
            Py.dict_get (environment_vars self') other
            = Py.dict_get (environment_vars self) other)
      /\ current_directory self' = current_directory self
      /\ command_history self' = command_history self
      /\ aliases self' = aliases self.
Proof.
  intros var value rest self w w' r Hn Hput.
  eexists. unfold cmd_set, bind, get_self, set_self, os_call, ret.
  rewrite (split_once_first var value Hn). cbn [fst snd]. rewrite Hput.
  split; [destruct r as [[] | e]; reflexivity |].
  cbn [environment_vars with_environment_vars].
  split; [apply dict_get_set_eq |].
  split; [intros other Hne; now apply dict_get_set_ne |].
  repeat split.
Qed.

End BuiltinsMore.

Section ListingMore.

Context {World : Type} `{OS World}.

(** ** [history] *)

Lemma last_n_length {A} (n : nat) (l : list A) :
  length (Py.last_n n l) = Nat.min n (length l).
Proof. unfold Py.last_n. rewrite length_drop. lia. Qed.

Lemma last_n_snoc {A} (n : nat) (l : list A) (x : A) :
  (0 < n)%nat ->
  exists l', Py.last_n n (l ++ [x]) = l' ++ [x].
Proof.
  intros Hn. unfold Py.last_n. rewrite length_app. simpl.
  exists (drop (length l + 1 - n) l).
  rewrite drop_app_le by lia. reflexivity.
Qed.

(** X10.  Run through the engine, [history] never answers [No command
    history]: the line is recorded before it is dispatched, so the
    listing always ends with the command itself.  The listing has one
    line for each of the last 50 entries at most, and its last line
    carries the number of lines listed. *)
Theorem X10_history_lists_itself_last :
  forall (line : string) (st : Session * World) (args : list string),
    is_blank line = false ->
    Shlex.split line = inl ("history" :: args) ->
    Py.dict_get (aliases (fst st)) "history" = None ->
    exists lines,
      execute_command line st
      = (inl (Py.join (String "010" "") lines, 0%Z),
         (append_history line (fst st), snd st))
      /\ length lines
         = Nat.min 50 (length (command_history
                                 (append_history line (fst st))))
      /\ last lines = Some (format_3d (length lines) +:+ "  " +:+ line).
Proof.
  intros line st args Hb Hs Halias.
  rewrite (execute_command_dispatch line st "history" args Hb Hs).
  change (resolve_alias (append_history line (fst st)) "history")
    with (resolve_alias (fst st) "history").
  unfold resolve_alias. rewrite Halias.
  change (Py.dict_get builtin_commands "history") with (Some cmd_history_h).
  unfold run_handler, cmd_history, bind, get_self, ret. cbn [fst snd].
  pose proof (append_history_last line (fst st)) as Hlast.
  destruct (command_history (append_history line (fst st))) as [| x h] eqn:Hh;
    [discriminate |].
  rewrite <- Hh in *. clear Hh x h.
  apply last_Some in Hlast as [h' Hh'].
  destruct (last_n_snoc 50 h' line) as [l' Hl']; [lia |].
  eexists. split; [reflexivity |].
  rewrite length_imap, last_n_length. split; [reflexivity |].
  assert (Hlen : Nat.min 50 (length (h' ++ [line])) = length l' + 1)
    by (rewrite <- (last_n_length 50), Hl', length_app; reflexivity).
  rewrite Hh', Hl', Hlen. rewrite imap_app. simpl.
  rewrite last_snoc. repeat f_equal; lia.
Qed.

(** ** The external executor *)

(** X11.  The external executor never raises and never touches the
    session; the world after it is the one the child process left.  A
    launch fault that is neither a timeout nor a missing executable is
    answered with [Error executing external command:] and code 1. *)
Theorem X11_external_faults_are_answered :
  forall (command : string) (args : list string) (st : Session * World)
         (e : exn) (w' : World),
    subprocess_run (command :: args) (current_directory (fst st)) (snd st)
    = (inr e, w') ->
    (forall d, e <> TimeoutExpired d) ->
    (forall d, e <> FileNotFoundError d) ->
    execute_external_command command args st
    = (inl ("Error executing external command: " +:+ exn_str e, 1%Z),
       (fst st, w')).
Proof.
  intros command args st e w' Hrun Ht Hf.
  rewrite (external_command_result command args st _ w' Hrun).
  destruct e as [d | d | d | d | d]; try reflexivity.
  - destruct (Ht d eq_refl).
  - destruct (Hf d eq_refl).
Qed.

(** ** [rm] *)

Lemma rm_one_lines recursive force file_name results
    (self : Session) (w : World) :
  exists added w',
    rm_one recursive force file_name results (self, w)
    = (inl (results ++ added), (self, w'))
    /\ (length added <= 1)%nat
    /\ (force = false -> length added = 1%nat).
Proof.
  unfold rm_one, try_except, bind, get_self, get_world, os_call, ret.
  cbn [fst snd].
  assert (Hnil : results = results ++ []) by now rewrite app_nil_r.
  destruct (os_isdir w (resolve self file_name)).
  - destruct recursive; cbn [fst snd].
    + destruct (os_rmtree (resolve self file_name) w) as [[[] | e] w'].
      * eexists [_], w'. simpl. auto.
      * destruct e; try (eexists [_], w'; simpl; auto; fail).
        destruct force; simpl.
        -- exists [], w'. rewrite <- Hnil. simpl. split; [reflexivity |].
           split; [lia | discriminate].
        -- eexists [_], w'. simpl. auto.
    + eexists [_], w. simpl. auto.
  - cbn [fst snd].
    destruct (os_remove (resolve self file_name) w) as [[[] | e] w'].
    + eexists [_], w'. simpl. auto.
    + destruct e; try (eexists [_], w'; simpl; auto; fail).
      destruct force; simpl.
      * exists [], w'. rewrite <- Hnil. simpl. split; [reflexivity |].
        split; [lia | discriminate].
      * eexists [_], w'. simpl. auto.
Qed.

Lemma rm_loop_lines recursive force files :
  forall results (self : Session) (w : World),
  exists results' w',
    rm_loop recursive force files results (self, w)
    = (inl results', (self, w'))
    /\ (length results' <= length results + length files)%nat
    /\ (force = false ->
        length results' = (length results + length files)%nat).
Proof.
  induction files as [| f files IH]; intros results self w.
  - exists results, w. simpl. unfold ret.
    split; [reflexivity |]. split; [lia | intros; lia].
  - destruct (rm_one_lines recursive force f results self w)
      as (added & w1 & Hone & Hle & Heq).
    destruct (IH (results ++ added) self w1)
      as (results' & w' & Hloop & Hle' & Heq').
    exists results', w'. simpl. unfold bind at 1. rewrite Hone, Hloop.
    rewrite length_app in Hle', Heq'.
    split; [reflexivity |]. split; [lia |].
    intros Hf. specialize (Heq Hf). specialize (Heq' Hf). lia.
Qed.

(** X12.  [rm] never raises and never changes the session.  With no
    operand left after the flags it answers [No files specified] and
    touches nothing; otherwise it answers at most one line for each
    operand, and exactly one when none of [-f], [-rf], [--force] is
    given: a failure on one operand does not stop the others. *)
Theorem X12_rm_answers_each_operand :
  forall (args : list string) (self : Session) (w : World),
    args <> [] ->
    (rm_files args = [] ->
     cmd_rm args (self, w) = (inl "No files specified", (self, w)))
    /\ (rm_files args <> [] ->
        exists results w',
          cmd_rm args (self, w)
          = (inl (Py.join (String "010" "") results), (self, w'))
          /\ (length results <= length (rm_files args))%nat
          /\ (rm_force args = false ->
              length results = length (rm_files args))).
Proof.
  intros args self w Hargs. unfold cmd_rm.
  destruct args as [| a args]; [contradiction |].
  split.
  - intros ->. reflexivity.
  - intros Hfiles.
    destruct (rm_files (a :: args)) as [| f files] eqn:Hf; [contradiction |].
    destruct (rm_loop_lines (rm_recursive (a :: args)) (rm_force (a :: args))
                (f :: files) [] self w)
      as (results & w' & Hloop & Hle & Heq).
    exists results, w'. unfold bind. rewrite Hloop.
    split; [reflexivity |]. split; [exact Hle | exact Heq].
Qed.

(** ** [tree] *)

(** what [_build_tree] keeps: it only appends to [results], and the
    exception that leaves it, if any, is not a [PermissionError] *)
Definition appends_and_absorbs_denials
    (f : string -> string -> list string -> tree_result) : Prop :=
  forall path prefix results,
    (exists added, fst (f path prefix results) = results ++ added)
    /\ (forall d, snd (f path prefix results) <> Some (PermissionError d)).

Lemma tree_loop_appends (w : World) recurse path prefix n :
  appends_and_absorbs_denials recurse ->
  forall items i results,
    (exists added,
       fst (tree_loop w recurse path prefix n i items results)
       = results ++ added)
    /\ (forall d,
          snd (tree_loop w recurse path prefix n i items results)
          <> Some (PermissionError d)).
Proof.
  intros Hrec. induction items as [| item items IH]; intros i results.
  - simpl. split; [exists []; now rewrite app_nil_r | discriminate].
  - simpl. destruct (Py.startswith item "."); [apply IH |].
    set (line := prefix +:+ _ +:+ item).
    destruct (os_isdir w (os_join path item)).
    + destruct (Hrec (os_join path item)
                  (prefix +:+ (if Nat.eqb i (n - 1)
                               then last_indent else mid_indent))
                  (results ++ [line])) as [[added Ha] Hno].
      destruct (recurse _ _ _) as [res [e |]]; simpl in *.
      * split; [exists ([line] ++ added); now rewrite app_assoc | exact Hno].
      * destruct (IH (S i) res) as [[added' Ha'] Hno'].
        split; [| exact Hno'].
        exists ([line] ++ added ++ added').
        rewrite Ha', Ha, <- !app_assoc. reflexivity.
    + destruct (IH (S i) (results ++ [line])) as [[added' Ha'] Hno'].
      split; [| exact Hno'].
      exists ([line] ++ added'). rewrite Ha', <- app_assoc. reflexivity.
Qed.

Lemma build_tree_from_appends (w : World) remaining :
  appends_and_absorbs_denials (build_tree_from w remaining).
Proof.
  induction remaining as [| remaining IH]; intros path prefix results.
  - simpl. split; [exists []; now rewrite app_nil_r | discriminate].
  - simpl. destruct (os_listdir w path) as [names | e].
    + destruct (tree_loop_appends w (build_tree_from w remaining) path prefix
                  (length (Py.sorted names)) IH (Py.sorted names) 0 results)
        as [[added Ha] Hno].
      destruct (tree_loop _ _ _ _ _ _ _ _) as [res [e |]]; simpl in *.
      * destruct e; try (split; [eauto | discriminate]).
        exfalso. eapply Hno. reflexivity.
      * split; [eauto | discriminate].
    + destruct e; simpl;
        try (split; [exists []; now rewrite app_nil_r | discriminate]).
      split; [eauto | discriminate].
Qed.

(** X13.  A directory that may not be listed never stops [tree]: the
    walk only ever appends lines, an exception that leaves it is never a
    [PermissionError], and the denied directory gets the marker line in
    its place.  [tree] of an existing path never raises and changes
    nothing: it answers the drawing, whose first line is the name of the
    root, or [Error building tree:] with an exception that is no
    [PermissionError]; when the root itself may not be listed, the
    drawing is the root's name and the marker line. *)
Theorem X13_tree_absorbs_permission_errors :
  forall (w : World) (path prefix : string) (results : list string)
         (depth max_depth : nat),
    (exists added,
       fst (_build_tree w path prefix results depth max_depth)
       = results ++ added)
    /\ (forall d,
          snd (_build_tree w path prefix results depth max_depth)
          <> Some (PermissionError d))
    /\ (forall d,
          (depth < max_depth)%nat ->
          os_listdir w path = inr (PermissionError d) ->
          _build_tree w path prefix results depth max_depth
          = (results ++ [prefix +:+ denied_marker], None))
    /\ (forall (self : Session),
          os_isabs path = true ->
          os_exists w path = true ->
          let root := if String.eqb (os_basename path) "" then path
                      else os_basename path in
          ((exists lines,
              cmd_tree [path] (self, w)
              = (inl (Py.join (String "010" "") (root :: lines)), (self, w)))
           \/ (exists e,
                 (forall d, e <> PermissionError d)
                 /\ cmd_tree [path] (self, w)
                    = (inl ("Error building tree: " +:+ exn_str e),
                       (self, w))))
          /\ (forall d,
                os_listdir w path = inr (PermissionError d) ->
                cmd_tree [path] (self, w)
                = (inl (Py.join (String "010" "") [root; denied_marker]),
                   (self, w)))).
Proof.
  intros w path prefix results depth max_depth. unfold _build_tree.
  destruct (build_tree_from_appends w (max_depth - depth) path prefix results)
    as [Happ Hno].
  split; [exact Happ |]. split; [exact Hno |]. split.
  - intros d Hlt Hl.
    destruct (max_depth - depth) as [| r] eqn:Hr; [lia |].
    simpl. rewrite Hl. reflexivity.
  - intros self Habs Hex.
    unfold cmd_tree, bind, get_self, get_world, ret. cbn [fst snd].
    rewrite Habs. cbn [negb]. rewrite Hex. cbn [negb]. unfold _build_tree.
    set (root := if String.eqb (os_basename path) "" then path
                 else os_basename path).
    split.
    + destruct (build_tree_from_appends w (3 - 0) path "" [root])
        as [[added Ha] Hfault].
      destruct (build_tree_from w (3 - 0) path "" [root]) as [res [e |]].
      * right. exists e. split; [| reflexivity].
        intros d ->. exact (Hfault d eq_refl).
      * left. simpl in Ha. subst res. exists added. reflexivity.
    + intros d Hl. change (3 - 0)%nat with 3%nat.
      cbn [build_tree_from]. rewrite Hl. reflexivity.
Qed.

End ListingMore.

(** * Further properties of the session store *)

Section StoreMore.

Context {World : Type} `{OS World}.

(** what [route_execute] does with a command that is not blank *)
Lemma route_execute_runs (session_id command : string)
    (terminals : gmap string Session) (w : World) :
  Py.strip command <> "" ->
  route_execute session_id command (terminals, w)
  = let '(t, terminals1) := get_terminal session_id terminals w in
    match execute_command (Py.strip command) (t, w) with
    | (inl (output, return_code), (t', w')) =>
        if String.eqb output "EXIT_TERMINAL"
        then (("Terminal session ended.", 0%Z),
              (delete session_id terminals1, w'))
        else ((output, return_code),
              (<[session_id := t']> terminals1, w'))
    | (inr e, (t', w')) =>
        ((exn_str e, 1%Z), (<[session_id := t']> terminals1, w'))
    end.
Proof.
  intros Hne. unfold route_execute.
  destruct (String.eqb_spec (Py.strip command) ""); [contradiction |].
  reflexivity.
Qed.


(** X15.  A request whose command is not blank and does not print the
    exit text leaves the session's terminal in the store as the command
    left it, so the next request of the session goes on from there; a
    blank command is answered at once and creates no terminal. *)
Theorem X15_store_keeps_the_terminal_between_requests :
  forall (session_id command : string) (terminals : gmap string Session)
         (w w' : World) (output : string) (code : Z) (t' : Session),
    (Py.strip command = "" ->
     route_execute session_id command (terminals, w)
     = (("", 0%Z), (terminals, w)))
    /\ (Py.strip command <> "" ->
        output <> "EXIT_TERMINAL" ->
        execute_command (Py.strip command)
          (fst (get_terminal session_id terminals w), w)
        = (inl (output, code), (t', w')) ->
        fst (route_execute session_id command (terminals, w))
        = (output, code)
        /\ get_terminal session_id
             (fst (snd (route_execute session_id command (terminals, w))))
             w'
           = (t', fst (snd (route_execute session_id command
                              (terminals, w))))).
Proof.
  intros session_id command terminals w w' output code t'. split.
  - intros Hb. unfold route_execute. rewrite Hb. reflexivity.
  - intros Hne Hout Hex.
    assert (Hroute :
      route_execute session_id command (terminals, w)
      = ((output, code),
         (<[session_id := t']> (snd (get_terminal session_id terminals w)),
          w'))).
    { rewrite route_execute_runs by exact Hne.
      destruct (get_terminal session_id terminals w) as [t terminals1].
      simpl in Hex. rewrite Hex.
      destruct (String.eqb_spec output "EXIT_TERMINAL"); [contradiction |].
      reflexivity. }
    rewrite Hroute. split; [reflexivity |].
    cbn [fst snd]. unfold get_terminal at 1.
    rewrite lookup_insert_eq. reflexivity.
Qed.

End StoreMore.

(** * More of the translator: suggestions and execution *)

Module AIMore.

Import ReFacts AI AIFacts AIInterface.

(** ** Suggestions *)

Lemma startswith_contains s p :
  Py.startswith s p = true -> contains p s = true.
Proof.
  unfold Py.startswith. intros Hp. destruct s; cbn [contains]; now rewrite Hp.
Qed.

Lemma filter_sublist {A} (f : A -> bool) (l : list A) :
  List.filter f l `sublist_of` l.
Proof.
  induction l as [| x l IH]; simpl; [constructor |].
  destruct (f x); now constructor.
Qed.

Lemma lower_idempotent s : Py.lower (Py.lower s) = Py.lower s.
Proof. apply all_lower_fixed, lower_all_lower. Qed.

(** X16.  The suggestions for a partial phrase are at most five of the
    fixed starters, in the order of the list; each
    contains the partial phrase in lower case (the [startswith] test adds
    nothing to the containment test); when fewer than five come back,
    every starter that contains it is among them; and the capitals of the
    partial phrase make no difference. *)
Theorem X16_suggestions_are_the_first_five_matches :
  forall partial_input : string,
    (length (get_suggestions partial_input) <= 5)%nat
    /\ get_suggestions partial_input `sublist_of` starters
    /\ (forall s, In s (get_suggestions partial_input) ->
          contains (Py.lower partial_input) s = true)
    /\ ((length (get_suggestions partial_input) < 5)%nat ->
        forall s, In s starters ->
          contains (Py.lower partial_input) s = true ->
          In s (get_suggestions partial_input))
    /\ get_suggestions (Py.lower partial_input)
       = get_suggestions partial_input.
Proof.
  intros partial_input. unfold get_suggestions.
  set (keep := fun starter =>
                 Py.startswith starter (Py.lower partial_input)
                 || contains (Py.lower partial_input) starter).
  assert (Hkeep : forall s, keep s = contains (Py.lower partial_input) s).
  { intros s. unfold keep.
    destruct (Py.startswith s (Py.lower partial_input)) eqn:Hp;
      [now rewrite (startswith_contains _ _ Hp) | reflexivity]. }
  split; [rewrite length_take; lia |].
  split; [etransitivity; [apply sublist_take | apply filter_sublist] |].
  split.
  { intros s Hin. apply list_elem_of_In in Hin.
    apply elem_of_take in Hin as (i & Hi & _).
    apply list_elem_of_lookup_2, list_elem_of_In in Hi. rename Hi into Hin.
    apply filter_In in Hin as [_ Hk]. now rewrite <- Hkeep. }
  split.
  { intros Hlen s Hin Hc. rewrite length_take in Hlen.
    rewrite take_ge by lia. apply filter_In. now rewrite Hkeep. }
  rewrite lower_idempotent. reflexivity.
Qed.

(** ** What the engine records for a translated phrase *)

(** the text starts with a character that is not white space *)
Definition visible_head (s : string) : bool :=
  match s with
  | String c _ => negb (Py.isspace c)
  | EmptyString => false
  end.

Lemma visible_head_not_blank s : visible_head s = true -> is_blank s = false.
Proof.
  destruct s as [| c s]; [discriminate |]. simpl. intros Hc.
  apply is_blank_starts_visible. now apply negb_true_iff.
Qed.

Lemma format_head c rest params out :
  c <> "{"%char ->
  format (String c rest) params = inl out ->
  exists rest', out = String c rest'.
Proof.
  intros Hc.
  assert (Hplain : match format rest params with
                   | inl out => inl (String c out)
                   | inr e => inr e
                   end = (inl out : result string) ->
                   exists rest', out = String c rest').
  { destruct (format rest params); [| discriminate]. intros [= <-]. eauto. }
  destruct c as [[] [] [] [] [] [] [] []]; try exact Hplain.
  contradiction.
Qed.

Definition template_head_ok (template : string) : bool :=
  match template with
  | String c _ => negb (Py.isspace c) && negb (Ascii.eqb c "{"%char)
  | EmptyString => false
  end.

Lemma table_template_heads :
  forallb (fun rule => template_head_ok (snd rule)) (rules command_patterns)
  = true.
Proof. vm_compute. reflexivity. Qed.

Lemma handle_complex_visible nl c :
  _handle_complex_commands nl = inl (Some c) -> visible_head c = true.
Proof.
  unfold _handle_complex_commands, unpack2, item0.
  repeat match goal with
         | |- context [Re.search ?p nl] => destruct (Re.search p nl) as [g |]
         | |- context [match ?g with [] => _ | _ :: _ => _ end] =>
             destruct g
         end;
    intros [= <-]; reflexivity.
Qed.

Lemma keywords_visible nl k :
  _interpret_by_keywords nl = Some k -> visible_head k = true.
Proof.
  unfold _interpret_by_keywords.
  repeat match goal with
         | |- context [if ?b then _ else _] => destruct b
         | |- context [match ?o with Some _ => _ | None => _ end] =>
             destruct o
         end;
    intros [= <-]; reflexivity.
Qed.

(** a command that a stage produced starts with a visible character *)
Lemma interpret_resolved_visible phrase cmd note :
  interpret_command phrase = inl (cmd, note) ->
  note <> passthrough_note ->
  visible_head cmd = true.
Proof.
  unfold interpret_command.
  destruct (handle_complex_cases (Py.lower (Py.strip phrase)))
    as [(c & Hc & Ht & _) | [Hc _]]; rewrite Hc.
  { rewrite Ht. intros [= <- <-] _. now apply handle_complex_visible in Hc. }
  cbn [truthy]. rewrite try_categories_rules.
  destruct (first_rule (Py.lower (Py.strip phrase)) (rules command_patterns))
    as [res |] eqn:Hrule.
  { apply first_rule_Some in Hrule
      as (before & p & t & after & params & Heq & _ & _ & ->).
    destruct (format t params) as [out |] eqn:Hf; [| discriminate].
    intros [= <- <-] _.
    pose proof table_template_heads as Hok. rewrite forallb_forall in Hok.
    assert (Hin : In (p, t) (rules command_patterns))
      by (rewrite Heq; apply in_or_app; right; now left).
    apply Hok in Hin. simpl in Hin.
    destruct t as [| ch rest]; [discriminate |]. simpl in Hin.
    apply andb_prop in Hin as [Hsp Hbr].
    destruct (format_head ch rest params out) as [rest' ->];
      [intros ->; discriminate | exact Hf | exact Hsp]. }
  destruct (_interpret_by_keywords (Py.lower (Py.strip phrase)))
    as [k |] eqn:Hk.
  { destruct (keywords_cases _ _ Hk) as [Ht _]. rewrite Ht.
    intros [= <- <-] _. now apply keywords_visible in Hk. }
  cbn [truthy]. intros [= <- <-] Hn. contradiction.
Qed.

Lemma interpret_cases phrase :
  exists cmd note,
    interpret_command phrase = inl (cmd, note)
    /\ (note = passthrough_note \/ Py.lower cmd = cmd).
Proof.
  destruct (interpret_command_outcome phrase) as (cmd & note & Hi & _ & Hb).
  exists cmd, note. split; [exact Hi |].
  exact (written_by_stage_lower phrase cmd note Hb).
Qed.

Lemma strip_blank phrase : is_blank phrase = true -> Py.strip phrase = "".
Proof. unfold is_blank. now rewrite String.eqb_eq. Qed.

Section ExecuteFacts.

Context {World : Type} `{OS World}.

(** X17.  [execute_natural_language] never raises.  For a phrase that a
    stage resolves, the engine records the translated command line in
    the history, not the phrase the user typed; a phrase that is blank is
    passed through, ignored by the engine, and leaves the session and
    the world as they were. *)
Theorem X17_history_records_the_translation :
  forall (phrase : string) (st : Session * World),
    exists cmd note out code st',
      interpret_command phrase = inl (cmd, note)
      /\ execute_natural_language phrase st = (inl (out, code, note), st')
      /\ (note <> passthrough_note ->
          last (command_history (fst st')) = Some cmd
          /\ Py.lower cmd = cmd)
      /\ (is_blank phrase = true ->
          note = passthrough_note /\ out = "" /\ code = 0%Z /\ st' = st).
Proof.
  intros phrase st.
  destruct (interpret_cases phrase) as (cmd & note & Hi & Hcases).
  destruct (execute_command_never_raises cmd st) as (out & code & Hex).
  destruct (execute_command cmd st) as [r st'] eqn:Hrun. simpl in Hex.
  subst r.
  exists cmd, note, out, code, st'. split; [exact Hi |].
  split.
  { unfold execute_natural_language, bind, ret. rewrite Hi, Hrun.
    reflexivity. }
  split.
  - intros Hn. destruct Hcases as [Hp | Hlow]; [contradiction |].
    split; [| exact Hlow].
    pose proof (interpret_resolved_visible phrase cmd note Hi Hn) as Hv.
    apply visible_head_not_blank in Hv.
    replace st' with (snd (execute_command cmd st)) by now rewrite Hrun.
    rewrite execute_command_history by exact Hv.
    apply append_history_last.
  - intros Hb. pose proof (strip_blank phrase Hb) as Hs.
    unfold interpret_command in Hi. rewrite Hs in Hi.
    vm_compute in Hi. injection Hi as <- <-.
    rewrite execute_command_blank in Hrun by exact Hb.
    injection Hrun as <- <- <-. auto.
Qed.

End ExecuteFacts.

(** ** Patterns that are a bare word *)

(** the patterns of the table that are one word and nothing else *)
Definition bare_words : list string :=
  ["ls"; "dir"; "top"; "ps"; "pwd"; "df"; "free"; "cls"; "clear"; "help"].

(** the expression a word of letters compiles to *)
Fixpoint word_re (l : list ascii) : Re.re :=
  match l with
  | [] => Re.Eps
  | [c] => Re.Chr (Re.Lit c)
  | c :: l' => Re.Seq (Re.Chr (Re.Lit c)) (word_re l')
  end.

Lemma lit_matches_itself c : Re.cls_matches (Re.Lit c) c = true.
Proof. simpl. apply Ascii.eqb_refl. Qed.

Lemma m_word_re (l : list ascii) :
  forall s caps cont, Re.m (word_re l) (l ++ s) caps cont = cont s caps.
Proof.
  induction l as [| c l IH]; intros s caps cont; [reflexivity |].
  destruct l as [| c2 l].
  - simpl. now rewrite Ascii.eqb_refl.
  - change (word_re (c :: c2 :: l))
      with (Re.Seq (Re.Chr (Re.Lit c)) (word_re (c2 :: l))).
    change ((c :: c2 :: l) ++ s) with (c :: ((c2 :: l) ++ s)).
    cbn [Re.m]. rewrite lit_matches_itself. apply IH.
Qed.

Lemma search_from_word (l pre post : list ascii) :
  Re.search_from (word_re l) (pre ++ l ++ post) <> None.
Proof.
  induction pre as [| a pre IH].
  - simpl. destruct (l ++ post) eqn:Hs;
      (cbn [Re.search_from]; unfold Re.match_here; rewrite <- Hs, m_word_re;
       discriminate).
  - cbn [app Re.search_from].
    destruct (Re.match_here (word_re l) (a :: pre ++ l ++ post));
      [discriminate | exact IH].
Qed.

Lemma bare_word_compiles word :
  In word bare_words ->
  Re.compile word = Some (word_re (Py.chars word))
  /\ exists template, In (word, template) (rules command_patterns).
Proof.
  intros Hin.
  assert (Hrule : existsb (fun rule => String.eqb (fst rule) word)
                    (rules command_patterns) = true)
    by (simpl in Hin;
        repeat (destruct Hin as [<- | Hin]; [vm_compute; reflexivity |]);
        destruct Hin).
  split.
  - simpl in Hin.
    repeat (destruct Hin as [<- | Hin]; [vm_compute; reflexivity |]).
    destruct Hin.
  - apply existsb_exists in Hrule as [[p t] [Hr Hp]].
    apply String.eqb_eq in Hp. simpl in Hp. subst p. eauto.
Qed.

Lemma bare_word_found word text :
  In word bare_words ->
  infix_of (Py.chars word) (Py.chars text) ->
  Re.search word text <> None.
Proof.
  intros Hin (pre & post & Htext).
  destruct (bare_word_compiles word Hin) as [Hc _].
  unfold Re.search. rewrite Hc, Htext.
  pose proof (search_from_word (Py.chars word) pre post) as Hs.
  destruct (Re.search_from _ _); [discriminate | contradiction].
Qed.

(** X18.  Ten patterns of the table are a bare command word, searched
    anywhere in the phrase.  A phrase in which one of these words occurs,
    were it inside a longer word, is therefore always translated by the
    synthesizer or by the pattern table: it reaches neither the keyword
    fallback nor the passthrough. *)
Theorem X18_bare_word_anywhere_is_translated :
  forall (phrase word : string),
    In word bare_words ->
    infix_of (Py.chars word) (Py.chars (Py.lower (Py.strip phrase))) ->
    exists cmd note,
      interpret_command phrase = inl (cmd, note)
      /\ note <> passthrough_note
      /\ note <> keyword_note.
Proof.
  intros phrase word Hin Hinfix.
  destruct (interpret_command_outcome phrase) as (cmd & note & Hi & Ho & _).
  exists cmd, note. split; [exact Hi |].
  pose proof (bare_word_found word _ Hin Hinfix) as Hfound.
  destruct (bare_word_compiles word Hin) as [_ [template Hrule]].
  assert (Hblocked :
    Forall (fun rule =>
              Re.search (fst rule) (Py.lower (Py.strip phrase)) = None)
           (rules command_patterns) -> False).
  { intros Hall. rewrite Forall_forall in Hall.
    apply Hfound. apply (Hall (word, template)).
    now apply list_elem_of_In. }
  destruct Ho as [c Hc | ? ? ? ? ? c ? ? ? ? ? | k ? Hall ? | ? Hall ?];
    try (exfalso; exact (Hblocked Hall)).
  - split; discriminate.
  - split; [apply table_note_not_passthrough |].
    intros Heq. inversion Heq.
Qed.

End AIMore.

(** ** Sorting *)

Definition str_le (a b : string) : Prop := String.leb a b = true.

Lemma insert_sorted_perm x l : Py.insert_sorted x l ≡ₚ x :: l.
Proof.
  induction l as [| y l IH]; simpl; [reflexivity |].
  destruct (String.leb x y); [reflexivity |].
  rewrite IH. apply Permutation_swap.
Qed.

Lemma sorted_perm l : Py.sorted l ≡ₚ l.
Proof.
  induction l as [| x l IH]; simpl; [reflexivity |].
  unfold Py.sorted in *. simpl. rewrite insert_sorted_perm. now rewrite IH.
Qed.

Lemma insert_sorted_sorted x l :
  Sorted str_le l -> Sorted str_le (Py.insert_sorted x l).
Proof.
  induction l as [| y l IH]; intros Hs; simpl.
  - repeat constructor.
  - destruct (String.leb x y) eqn:Hxy.
    + constructor; [exact Hs | constructor; exact Hxy].
    + assert (Hyx : str_le y x)
        by (destruct (String.leb_total x y) as [Ht | Ht];
            [congruence | exact Ht]).
      inversion Hs as [| ? ? Hs' Hhd]; subst.
      constructor; [now apply IH |].
      destruct l as [| z l]; simpl.
      * constructor. exact Hyx.
      * destruct (String.leb x z); constructor; [exact Hyx |].
        now inversion Hhd.
Qed.

Lemma sorted_sorted l : Sorted str_le (Py.sorted l).
Proof.
  induction l as [| x l IH]; [constructor |].
  unfold Py.sorted in *. simpl. now apply insert_sorted_sorted.
Qed.

Lemma insert_pair_perm x l : insert_pair x l ≡ₚ x :: l.
Proof.
  induction l as [| y l IH]; simpl; [reflexivity |].
  destruct (pair_leb x y); [reflexivity |].
  rewrite IH. apply Permutation_swap.
Qed.

Lemma sorted_items_perm d : sorted_items d ≡ₚ d.
Proof.
  induction d as [| x d IH]; [reflexivity |].
  unfold sorted_items in *. simpl. rewrite insert_pair_perm. now rewrite IH.
Qed.

Lemma dict_set_in {V} (d : Py.dict V) k v : In (k, v) (Py.dict_set d k v).
Proof.
  induction d as [| [k' v'] d IH]; simpl; [now left |].
  destruct (String.eqb_spec k k') as [<- | Hne]; [now left | now right].
Qed.

Section MoreBuiltinsFacts.

Context {World : Type} `{OS World} `{FileOS World}.

(** ** [ls] *)

Lemma ls_items_short (w : World) path show_hidden listing :
  forall items,
    ls_items w path show_hidden false listing items
    = items ++ List.filter
                 (fun item => show_hidden || negb (Py.startswith item "."))
                 listing.
Proof.
  induction listing as [| item listing IH]; intros items; simpl.
  - now rewrite app_nil_r.
  - destruct show_hidden; simpl.
    + rewrite IH, <- app_assoc. reflexivity.
    + destruct (Py.startswith item "."); simpl.
      * apply IH.
      * rewrite IH, <- app_assoc. reflexivity.
Qed.

(** what [cmd_ls] does, by cases *)
Lemma cmd_ls_cases (args : list string) (self : Session) (w : World) :
  let path := match args with a :: _ => a | [] => current_directory self end in
  let show_hidden := Py.mem "-a" args || Py.mem "--all" args in
  let long_format := Py.mem "-l" args || Py.mem "--long" args in
  cmd_ls args (self, w) =
    (inl (if negb (os_exists w path) then "Path not found: " +:+ path
          else if os_isfile w path then format_file_info w path long_format
          else match os_listdir w path with
               | inl listing =>
                   match ls_items w path show_hidden long_format listing []
                   with
                   | [] => "Directory is empty"
                   | items => Py.join (String "010" "") (Py.sorted items)
                   end
               | inr (PermissionError _) => "Permission denied: " +:+ path
               | inr e => "Error listing directory: " +:+ exn_str e
               end),
     (self, w)).
Proof.
  intros path show_hidden long_format.
  unfold cmd_ls, bind, get_self, get_world, try_except, of_result, ret.
  cbn [fst snd]. fold path show_hidden long_format.
  destruct (os_exists w path); cbn [negb]; [| reflexivity].
  destruct (os_isfile w path); [reflexivity |].
  destruct (os_listdir w path) as [listing | e].
  - destruct (ls_items w path show_hidden long_format listing []);
      reflexivity.
  - destruct e; reflexivity.
Qed.

(** X19.  [ls] never raises and changes nothing.  Its path is its first
    argument as it is written: the answer does not depend on the session
    (a relative path is not joined to the session's working directory),
    and an option written first is itself taken for the path. *)
Theorem X19_ls_takes_its_first_argument_as_the_path :
  forall (first : string) (rest : list string) (self other : Session)
         (w : World),
    exists out,
      cmd_ls (first :: rest) (self, w) = (inl out, (self, w))
      /\ cmd_ls (first :: rest) (other, w) = (inl out, (other, w))
      /\ (os_exists w first = false -> out = "Path not found: " +:+ first).
Proof.
  intros first rest self other w. rewrite !cmd_ls_cases.
  eexists. split; [reflexivity |]. split; [reflexivity |].
  intros ->. reflexivity.
Qed.

(** X20.  The short listing of a directory is made of the names
    [os.listdir] gave, in ascending order, each once, with the names that
    start with a dot left out unless [-a] or [--all] is among the
    arguments; when nothing is left to show, were it because every entry
    is hidden, the answer is [Directory is empty]. *)
Theorem X20_ls_short_listing :
  forall (args : list string) (self : Session) (w : World)
         (listing : list string),
    let path := match args with a :: _ => a | [] => current_directory self end in
    let shown :=
      List.filter
        (fun item => (Py.mem "-a" args || Py.mem "--all" args)
                     || negb (Py.startswith item "."))
        listing in
    os_exists w path = true ->
    os_isfile w path = false ->
    os_listdir w path = inl listing ->
    Py.mem "-l" args || Py.mem "--long" args = false ->
    (shown = [] ->
     cmd_ls args (self, w) = (inl "Directory is empty", (self, w)))
    /\ (shown <> [] ->
        exists lines,
          cmd_ls args (self, w)
          = (inl (Py.join (String "010" "") lines), (self, w))
          /\ lines ≡ₚ shown
          /\ Sorted str_le lines).
Proof.
  intros args self w listing path shown Hex Hfile Hlist Hlong.
  rewrite cmd_ls_cases. fold path. rewrite Hex, Hfile, Hlist, Hlong.
  cbn [negb]. rewrite ls_items_short. cbn [app]. fold shown.
  split.
  - intros ->. reflexivity.
  - intros Hne. exists (Py.sorted shown).
    split; [destruct shown; [contradiction | reflexivity] |].
    split; [apply sorted_perm | apply sorted_sorted].
Qed.

(** ** [cp] and [mv] *)

(** X21.  [cp] copies a directory only when [-r] or [--recursive] is
    among its arguments; [-rf], which [rm] accepts, does not count.
    Without them a source that is a directory is refused and nothing is
    copied: session and world are unchanged. *)
Theorem X21_cp_refuses_directory_without_recursive_flag :
  forall (args : list string) (self : Session) (w : World)
         (source dest : string) (more : list string),
    operands args = source :: dest :: more ->
    Py.mem "-r" args || Py.mem "--recursive" args = false ->
    os_isdir w (resolve self source) = true ->
    cmd_cp args (self, w)
    = (inl ("Cannot copy directory " +:+ source +:+ ": use -r flag"),
       (self, w)).
Proof.
  intros args self w source dest more Hops Hrec Hdir.
  assert (Hlen : (length args <? 2)%nat = false).
  { apply Nat.ltb_ge.
    assert (Hl : (length (operands args) <= length args)%nat)
      by apply filter_length_le.
    rewrite Hops in Hl. simpl in Hl. lia. }
  unfold cmd_cp. rewrite Hlen, Hops, Hrec.
  unfold try_except, bind, get_self, get_world, ret. cbn [fst snd].
  rewrite Hdir. reflexivity.
Qed.

(** X22.  [mv] takes exactly two arguments and knows no option: with any
    other number of arguments it answers its usage line and does
    nothing.  With two, it never raises and leaves the session alone; a
    missing source is answered [Source not found], any other failure
    [Error moving:]. *)
Theorem X22_mv_wants_exactly_two_arguments :
  forall (args : list string) (self : Session) (w : World),
    (length args <> 2%nat ->
     cmd_mv args (self, w)
     = (inl "Usage: mv <source> <destination>", (self, w)))
    /\ (forall source dest r w',
          args = [source; dest] ->
          shutil_move (resolve self source) (resolve self dest) w = (r, w') ->
          cmd_mv args (self, w)
          = (inl match r with
                 | inl _ => "Moved: " +:+ source +:+ " -> " +:+ dest
                 | inr (FileNotFoundError _) =>
                     "Source not found: " +:+ source
                 | inr e => "Error moving: " +:+ exn_str e
                 end,
             (self, w'))).
Proof.
  intros args self w. split.
  - intros Hlen. destruct args as [| a [| b [| c args]]];
      try reflexivity. simpl in Hlen. contradiction.
  - intros source dest r w' -> Hmv.
    unfold cmd_mv, try_except, bind, get_self, os_call, ret. cbn [fst snd].
    rewrite Hmv. destruct r as [[] | e]; [reflexivity |].
    destruct e; reflexivity.
Qed.

(** ** [mkdir] and [touch] *)

Lemma mkdir_one_line dir_name results (self : Session) (w : World) :
  exists line w',
    mkdir_one dir_name results (self, w)
    = (inl (results ++ [line]), (self, w'))
    /\ (line = "Created directory: " +:+ dir_name
        \/ exists detail,
             line = "Error creating " +:+ dir_name +:+ ": " +:+ detail).
Proof.
  unfold mkdir_one, try_except, bind, get_self, os_call, ret. cbn [fst snd].
  destruct (os_makedirs (resolve self dir_name) w) as [[[] | e] w'];
    eexists _, w'; (split; [reflexivity | eauto]).
Qed.

Lemma mkdir_loop_lines args :
  forall results (self : Session) (w : World),
  exists lines w',
    mkdir_loop args results (self, w) = (inl (results ++ lines), (self, w'))
    /\ Forall2
         (fun dir_name line =>
            line = "Created directory: " +:+ dir_name
            \/ exists detail,
                 line = "Error creating " +:+ dir_name +:+ ": " +:+ detail)
         args lines.
Proof.
  induction args as [| a args IH]; intros results self w.
  - exists [], w. simpl. unfold ret. rewrite app_nil_r. split; constructor.
  - destruct (mkdir_one_line a results self w) as (line & w1 & Hone & Hline).
    destruct (IH (results ++ [line]) self w1) as (lines & w' & Hloop & Hall).
    exists (line :: lines), w'. simpl. unfold bind at 1.
    rewrite Hone, Hloop, <- app_assoc. split; [reflexivity |].
    constructor; assumption.
Qed.

Lemma touch_one_line filename results (self : Session) (w : World) :
  exists line w',
    touch_one filename results (self, w)
    = (inl (results ++ [line]), (self, w'))
    /\ (line = "Touched: " +:+ filename
        \/ exists detail,
             line = "Error touching " +:+ filename +:+ ": " +:+ detail).
Proof.
  unfold touch_one, try_except, bind, get_self, os_call, ret. cbn [fst snd].
  destruct (path_touch (resolve self filename) w) as [[[] | e] w'];
    eexists _, w'; (split; [reflexivity | eauto]).
Qed.

Lemma touch_loop_lines args :
  forall results (self : Session) (w : World),
  exists lines w',
    touch_loop args results (self, w) = (inl (results ++ lines), (self, w'))
    /\ Forall2
         (fun filename line =>
            line = "Touched: " +:+ filename
            \/ exists detail,
                 line = "Error touching " +:+ filename +:+ ": " +:+ detail)
         args lines.
Proof.
  induction args as [| a args IH]; intros results self w.
  - exists [], w. simpl. unfold ret. rewrite app_nil_r. split; constructor.
  - destruct (touch_one_line a results self w) as (line & w1 & Hone & Hline).
    destruct (IH (results ++ [line]) self w1) as (lines & w' & Hloop & Hall).
    exists (line :: lines), w'. simpl. unfold bind at 1.
    rewrite Hone, Hloop, <- app_assoc. split; [reflexivity |].
    constructor; assumption.
Qed.

(** X23.  [mkdir] and [touch] never raise and never change the session;
    they answer one line for each argument, in the order of the
    arguments, either the success line or the error line of that
    argument: a failure does not keep the later arguments from being
    handled. *)
Theorem X23_mkdir_and_touch_answer_every_argument :
  forall (args : list string) (self : Session) (w : World),
    args <> [] ->
    (exists lines w',
       cmd_mkdir args (self, w)
       = (inl (Py.join (String "010" "") lines), (self, w'))
       /\ Forall2
            (fun dir_name line =>
               line = "Created directory: " +:+ dir_name
               \/ exists detail,
                    line = "Error creating " +:+ dir_name +:+ ": "
                           +:+ detail)
            args lines)
    /\ (exists lines w',
          cmd_touch args (self, w)
          = (inl (Py.join (String "010" "") lines), (self, w'))
          /\ Forall2
               (fun filename line =>
                  line = "Touched: " +:+ filename
                  \/ exists detail,
                       line = "Error touching " +:+ filename +:+ ": "
                              +:+ detail)
               args lines).
Proof.
  intros args self w Hne. split.
  - destruct (mkdir_loop_lines args [] self w) as (lines & w' & Hloop & Hall).
    exists lines, w'. split; [| exact Hall].
    unfold cmd_mkdir. destruct args; [contradiction |].
    unfold bind. rewrite Hloop. reflexivity.
  - destruct (touch_loop_lines args [] self w) as (lines & w' & Hloop & Hall).
    exists lines, w'. split; [| exact Hall].
    unfold cmd_touch. destruct args; [contradiction |].
    unfold bind. rewrite Hloop. reflexivity.
Qed.

(** ** [rmdir] *)

Lemma rmdir_loop_fault args :
  forall results (self : Session) (w : World) e w1,
    match args with
    | first :: _ => os_rmdir (resolve self first) w = (RmdirFault e, w1)
    | [] => False
    end ->
    rmdir_loop args results (self, w) = (inr e, (self, w1)).
Proof.
  intros results self w e w1. destruct args as [| first rest]; [intros [] |].
  intros Hf. simpl. unfold bind, rmdir_one. cbn [fst snd]. rewrite Hf.
  reflexivity.
Qed.

Lemma rmdir_loop_done first rest results (self : Session) (w w1 : World) :
  os_rmdir (resolve self first) w = (RmdirDone, w1) ->
  rmdir_loop (first :: rest) results (self, w)
  = rmdir_loop rest (results ++ ["Removed directory: " +:+ first]) (self, w1).
Proof.
  intros Hd. cbn [rmdir_loop]. unfold bind, rmdir_one. cbn [fst snd].
  rewrite Hd. reflexivity.
Qed.

(** X24.  [rmdir] catches [OSError] only.  When [os.rmdir] fails on an
    argument with another exception, [rmdir] raises it: the lines of the
    arguments handled before are lost, and the directories they named
    stay removed. *)
Theorem X24_rmdir_fault_loses_the_earlier_lines :
  forall (first second : string) (rest : list string) (self : Session)
         (w w1 w2 : World) (e : exn),
    os_rmdir (resolve self first) w = (RmdirDone, w1) ->
    os_rmdir (resolve self second) w1 = (RmdirFault e, w2) ->
    cmd_rmdir (first :: second :: rest) (self, w) = (inr e, (self, w2))
    /\ cmd_rmdir [first] (self, w)
       = (inl ("Removed directory: " +:+ first), (self, w1)).
Proof.
  intros first second rest self w w1 w2 e Hdone Hfault. split.
  - unfold cmd_rmdir. unfold bind at 1.
    rewrite (rmdir_loop_done first (second :: rest) [] self w w1 Hdone).
    rewrite (rmdir_loop_fault (second :: rest) _ self w1 e w2 Hfault).
    reflexivity.
  - unfold cmd_rmdir. unfold bind at 1.
    rewrite (rmdir_loop_done first [] [] self w w1 Hdone). reflexivity.
Qed.

(** ** [env] *)

(** X9.  [env] prints the session's own table, one line for each
    variable, and changes nothing; after a [set VAR=value] that the
    process accepted, the listing holds the line [VAR=value]. *)
Theorem X9_env_lists_what_set_stored :
  forall (var value : string) (rest : list string) (self : Session)
         (w w' : World),
    has_equals var = false ->
    os_putenv var value w = (inl tt, w') ->
    exists self' lines,
      cmd_set ((var +:+ "=" +:+ value) :: rest) (self, w)
      = (inl ("Set " +:+ var +:+ "=" +:+ value), (self', w'))
      /\ cmd_env [] (self', w')
         = (inl (Py.join (String "010" "") lines), (self', w'))
      /\ length lines = length (environment_vars self')
      /\ In (var +:+ "=" +:+ value) lines.
Proof.
  intros var value rest self w w' Hn Hput.
  eexists _, _. split.
  { unfold cmd_set, bind, get_self, set_self, os_call, ret.
    rewrite (split_once_first var value Hn). cbn [fst snd]. rewrite Hput.
    reflexivity. }
  split; [reflexivity |].
  cbn [environment_vars with_environment_vars].
  split.
  - rewrite length_map. apply Permutation_length, sorted_items_perm.
  - apply in_map_iff. exists (var, value). split; [reflexivity |].
    apply list_elem_of_In. rewrite sorted_items_perm.
    apply list_elem_of_In, dict_set_in.
Qed.

End MoreBuiltinsFacts.

(** * The further properties on the small world *)

#[local] Existing Instance ToyFiles.files.

(** ** Witnesses of the further properties *)

Definition nul_name : string := "a" +:+ String "000" "b".

Lemma X2_witness :
  execute_command (" " +:+ String "009" " ") (Toy.s0, Toy.w0)
  = (inl ("", 0%Z), (Toy.s0, Toy.w0)).
Proof.
  apply (X2_whitespace_line_is_ignored (" " +:+ String "009" " ")
           (Toy.s0, Toy.w0)).
  repeat constructor.
Defined.

Lemma X3_witness :
  execute_command "echo 'abc" (Toy.s0, Toy.w0)
  = (inl ("Command parsing error: No closing quotation", 1%Z),
     (append_history "echo 'abc" Toy.s0, Toy.w0)).
Proof.
  exact (proj1 (X3_parse_error_is_reported_and_recorded "echo 'abc"
                  (Toy.s0, Toy.w0) (ValueError "No closing quotation")
                  ltac:(vm_compute; reflexivity) ltac:(vm_compute; reflexivity))).
Defined.

Lemma X4_witness :
  execute_command "echo hello, big world" (Toy.s0, Toy.w0)
  = (inl ("hello, big world", 0%Z),
     (append_history "echo hello, big world" Toy.s0, Toy.w0)).
Proof.
  exact (X4_echo_returns_its_words ["hello,"; "big"; "world"]
           (Toy.s0, Toy.w0) ltac:(vm_compute; reflexivity) ltac:(vm_compute; reflexivity)).
Defined.

Lemma X6_witness :
  @cmd_cd Toy.World Strict.os ["/q/vault"] (Toy.s0, Toy.w0)
  = (inl "Permission denied: /q/vault",
     (with_current_directory "/q/vault" Toy.s0, Toy.w0)).
Proof.
  pose proof (@X6_cd_denied_still_moves_the_session Toy.World Strict.os
                ["/q/vault"] Toy.s0 Toy.w0 Toy.w0
                "[Errno 13] Permission denied: '/q/vault'") as Hw.
  vm_compute in Hw. vm_compute. apply Hw; reflexivity.
Defined.

Lemma X7_witness :
  exists self',
    cmd_alias ["ll =ls -l"] (Toy.s0, Toy.w0)
    = (inl "Alias created: ll = ls -l", (self', Toy.w0))
    /\ resolve_alias self' "ll" = "ls -l".
Proof.
  destruct (proj1 (X7_alias_defines_then_resolves "ll " "ls -l" []
                     Toy.s0 Toy.w0 ltac:(vm_compute; reflexivity)))
    as (self' & Hrun & Hres & _).
  exists self'. split; [exact Hrun | exact Hres].
Defined.

Lemma X8_witness :
  exists self',
    cmd_set ["=x"] (Toy.s0, Toy.w0)
    = (inr (OtherException "[Errno 22] Invalid argument"), (self', Toy.w0))
    /\ Py.dict_get (environment_vars self') "" = Some "x".
Proof.
  destruct (X8_set_writes_session_before_process "" "x" [] Toy.s0
              Toy.w0 Toy.w0
              (inr (OtherException "[Errno 22] Invalid argument"))
              ltac:(vm_compute; reflexivity) ltac:(vm_compute; reflexivity))
    as (self' & Hrun & Hget & _).
  exists self'. split; [exact Hrun | exact Hget].
Defined.

Lemma X9_witness :
  exists self' lines w',
    cmd_set ["EDITOR=vi"] (Toy.s0, Toy.w0) = (inl "Set EDITOR=vi", (self', w'))
    /\ cmd_env [] (self', w') = (inl (Py.join newline lines), (self', w'))
    /\ In "EDITOR=vi" lines.
Proof.
  pose proof (X9_env_lists_what_set_stored "EDITOR" "vi" [] Toy.s0 Toy.w0
                (snd (Toy.putenv "EDITOR" "vi" Toy.w0))) as Hw.
  destruct Hw as (self' & lines & Hset & Henv & _ & Hin);
    try (vm_compute; reflexivity).
  exists self', lines, (snd (Toy.putenv "EDITOR" "vi" Toy.w0)).
  split; [exact Hset |]. split; [exact Henv | exact Hin].
Defined.

Lemma X10_witness :
  exists lines,
    fst (execute_command "history" with_ll)
    = inl (Py.join newline lines, 0%Z)
    /\ last lines = Some "  2  history".
Proof.
  destruct (X10_history_lists_itself_last "history" with_ll []
              ltac:(vm_compute; reflexivity) ltac:(vm_compute; reflexivity) ltac:(vm_compute; reflexivity)) as (lines & Hrun & Hlen & Hlast).
  exists lines. split; [now rewrite Hrun |].
  rewrite Hlast, Hlen. reflexivity.
Defined.

Lemma X11_witness :
  @execute_external_command Toy.World Strict.os "/tmp/notes.txt" []
    (Toy.s0, Toy.w0)
  = (inl ("Error executing external command: "
          +:+ "[Errno 13] Permission denied: '/tmp/notes.txt'", 1%Z),
     (Toy.s0, Toy.w0)).
Proof.
  apply (@X11_external_faults_are_answered Toy.World Strict.os
           "/tmp/notes.txt" [] (Toy.s0, Toy.w0)
           (PermissionError "[Errno 13] Permission denied: '/tmp/notes.txt'")
           Toy.w0);
    [reflexivity | discriminate | discriminate].
Defined.

Lemma X12_witness :
  cmd_rm ["-f"; "-v"] (Toy.s0, Toy.w0)
  = (inl "No files specified", (Toy.s0, Toy.w0))
  /\ exists results w',
       cmd_rm ["/nope"; "/tmp/notes.txt"] (Toy.s0, Toy.w0)
       = (inl (Py.join newline results), (Toy.s0, w'))
       /\ length results = 2%nat.
Proof.
  split.
  - apply (proj1 (X12_rm_answers_each_operand ["-f"; "-v"] Toy.s0 Toy.w0
                    ltac:(discriminate))).
    reflexivity.
  - destruct (proj2 (X12_rm_answers_each_operand ["/nope"; "/tmp/notes.txt"]
                       Toy.s0 Toy.w0 ltac:(discriminate))
                ltac:(discriminate))
      as (results & w' & Hrun & _ & Hlen).
    exists results, w'. split; [exact Hrun | exact (Hlen ltac:(vm_compute; reflexivity))].
Defined.

Lemma X13_witness :
  _build_tree Toy.w0 "/q/vault" "│   " ["vault"] 1 3
  = (["vault"; "│   └── [Permission Denied]"], None)
  /\ cmd_tree ["/q/vault"] (Toy.s0, Toy.w0)
     = (inl (Py.join newline ["vault"; "└── [Permission Denied]"]),
        (Toy.s0, Toy.w0)).
Proof.
  pose proof (X13_tree_absorbs_permission_errors Toy.w0 "/q/vault" "│   "
                ["vault"] 1 3) as (_ & _ & Hwalk & Htree).
  split.
  - apply (Hwalk "[Errno 13] Permission denied: '/q/vault'");
      [lia | vm_compute; reflexivity].
  - destruct (Htree Toy.s0 ltac:(vm_compute; reflexivity)
                ltac:(vm_compute; reflexivity)) as [_ Hdenied].
    apply (Hdenied "[Errno 13] Permission denied: '/q/vault'").
    vm_compute. reflexivity.
Defined.


Lemma X15_witness :
  fst (route_execute "a" "pwd" two_sessions) = ("/", 0%Z)
  /\ fst (get_terminal "a"
            (fst (snd (route_execute "a" "pwd" two_sessions))) Toy.w0)
     = append_history "pwd"
         (fst (get_terminal "a" (fst two_sessions) Toy.w0)).
Proof.
  pose proof (fun H1 H2 H3 =>
                proj2 (X15_store_keeps_the_terminal_between_requests "a"
                         "pwd" (fst two_sessions) Toy.w0 Toy.w0 "/" 0%Z
                         (append_history "pwd"
                            (fst (get_terminal "a" (fst two_sessions)
                                    Toy.w0))))
                  H1 H2 H3) as Hw.
  destruct Hw as (Hreply & Hnext).
  - vm_compute. discriminate.
  - intros Heq. inversion Heq.
  - vm_compute. reflexivity.
  - split; [exact Hreply | exact (f_equal fst Hnext)].
Defined.

Lemma X18_witness :
  exists cmd note,
    AI.interpret_command "Fetch my TOOLS" = inl (cmd, note)
    /\ note <> AI.passthrough_note
    /\ note <> AI.keyword_note.
Proof.
  apply (AIMore.X18_bare_word_anywhere_is_translated "Fetch my TOOLS" "ls").
  - left. reflexivity.
  - exists (Py.chars "fetch my too"), []. reflexivity.
Defined.

Lemma X20_witness :
  exists lines,
    cmd_ls ["/q"] (Toy.s0, Toy.w0)
    = (inl (Py.join newline lines), (Toy.s0, Toy.w0))
    /\ lines ≡ₚ ["src"; "vault"; "zz.txt"].
Proof.
  pose proof (X20_ls_short_listing ["/q"] Toy.s0 Toy.w0
                ["src"; ".git"; "vault"; "zz.txt"]) as Hw.
  destruct Hw as [_ Hw]; try (vm_compute; reflexivity).
  destruct Hw as (lines & Hrun & Hperm & _); [discriminate |].
  exists lines. split; [exact Hrun | exact Hperm].
Defined.

Lemma X21_witness :
  cmd_cp ["-rf"; "/q"; "/z"] (Toy.s0, Toy.w0)
  = (inl "Cannot copy directory /q: use -r flag", (Toy.s0, Toy.w0)).
Proof.
  pose proof (X21_cp_refuses_directory_without_recursive_flag
                ["-rf"; "/q"; "/z"] Toy.s0 Toy.w0 "/q" "/z" []) as Hw.
  apply Hw; vm_compute; reflexivity.
Defined.

Lemma X22_witness :
  cmd_mv ["-f"; "/tmp/notes.txt"; "/q"] (Toy.s0, Toy.w0)
  = (inl "Usage: mv <source> <destination>", (Toy.s0, Toy.w0)).
Proof.
  pose proof (X22_mv_wants_exactly_two_arguments
                ["-f"; "/tmp/notes.txt"; "/q"] Toy.s0 Toy.w0) as Hw.
  apply (proj1 Hw). discriminate.
Defined.

Lemma X23_witness :
  exists lines w',
    cmd_mkdir ["x"; "/tmp/notes.txt"; "y"] (Toy.s0, Toy.w0)
    = (inl (Py.join newline lines), (Toy.s0, w'))
    /\ length lines = 3%nat.
Proof.
  pose proof (X23_mkdir_and_touch_answer_every_argument
                ["x"; "/tmp/notes.txt"; "y"] Toy.s0 Toy.w0) as Hw.
  destruct Hw as [(lines & w' & Hrun & Hall) _]; [discriminate |].
  exists lines, w'. split; [exact Hrun |].
  apply Forall2_length in Hall. now rewrite <- Hall.
Defined.

Lemma X24_witness :
  exists w2,
    cmd_rmdir ["/home/user"; nul_name] (Toy.s0, Toy.w0)
    = (inr (ValueError "embedded null byte"), (Toy.s0, w2))
    /\ os_isdir Toy.w0 "/home/user" = true
    /\ os_isdir w2 "/home/user" = false.
Proof.
  pose proof (X24_rmdir_fault_loses_the_earlier_lines "/home/user"
                nul_name [] Toy.s0 Toy.w0
                (snd (ToyFiles.rmdir "/home/user" Toy.w0))
                (snd (ToyFiles.rmdir "/home/user" Toy.w0))
                (ValueError "embedded null byte")) as Hw.
  destruct Hw as [Hrun _]; try (vm_compute; reflexivity).
  eexists. split; [exact Hrun |]. split; vm_compute; reflexivity.
Defined.
